(** * The document-to-answer pipeline of the RAG PDF Q&A workers

    A shallow embedding of the ingest, embed and QA workers
    ([apps/workers/app/workers/*.py]) together with the properties the
    specification states about them.

    Conventions of the embedding:
    - a Python [str] is a Rocq [string], one [ascii] per character;
    - a Python [dict] is a [gmap string pyval];
    - a Python [float] is kept as its [repr] (no float arithmetic occurs in
      the modelled code; where values are compared, the number is read
      back from the [repr]), [time.time()] is read at whole-second
      resolution;
    - [len], list positions and counters are [nat]; other integers are [Z];
    - a coroutine is a computation in the monad [M]: it threads the
      observable state of the worker (its two counters and the sequence of
      calls it makes to its collaborators) and ends with a value or with the
      exception it raises;
    - the collaborators (S3, ClamAV, pdfminer, OCR, NATS, Redis, OpenAI) are
      fields of the worker object; each one answers as a function of the
      history of calls made so far, so the same call may succeed once and
      fail later. *)

From Stdlib Require Import ZArith Lia List String Ascii.
From stdpp Require Import base list strings gmap pretty.

(** ** Python values and string primitives *)

Module Py.

Definition nl : ascii := "010"%char.

(** The paragraph delimiter ["\n\n"]. *)
Definition blank : string := String nl (String nl EmptyString).

Definition is_nl (a : ascii) : bool := Ascii.eqb a nl.

(** Puts a character in front of the first piece of a split. *)
Definition push (a : ascii) (ps : list string) : list string :=
  match ps with
  | [] => [String a EmptyString]
  | p :: ps' => String a p :: ps'
  end.

(** [text.split('\n\n')]: the text is scanned from the left, every
    occurrence of the delimiter that does not overlap an earlier one ends a
    piece; the result always has at least one piece. *)
Fixpoint split_blank (s : string) : list string :=
  match s with
  | EmptyString => [EmptyString]
  | String a t =>
      match t with
      | String b rest =>
          if is_nl a && is_nl b then EmptyString :: split_blank rest
          else push a (split_blank t)
      | EmptyString => [String a EmptyString]
      end
  end.

(** [sep.join(pieces)]. *)
Fixpoint join (sep : string) (pieces : list string) : string :=
  match pieces with
  | [] => EmptyString
  | p :: rest =>
      match rest with
      | [] => p
      | _ :: _ => p +:+ sep +:+ join sep rest
      end
  end.

(** [c * n] for a one-character string. *)
Fixpoint repeat_char (a : ascii) (n : nat) : string :=
  match n with
  | O => EmptyString
  | S k => String a (repeat_char a k)
  end.

(** Sum of the lengths of a list of strings. *)
Definition total_len (ps : list string) : nat :=
  foldr (fun p n => String.length p + n) 0 ps.

(** [str.isspace] on one character (code points below 256). *)
Definition is_space (a : ascii) : bool :=
  let n := nat_of_ascii a in
  ((9 <=? n) && (n <=? 13)) || ((28 <=? n) && (n <=? 32))
  || (n =? 133) || (n =? 160).

Fixpoint lstrip (s : string) : string :=
  match s with
  | EmptyString => EmptyString
  | String a t => if is_space a then lstrip t else s
  end.

Fixpoint rstrip (s : string) : string :=
  match s with
  | EmptyString => EmptyString
  | String a t =>
      match rstrip t with
      | EmptyString => if is_space a then EmptyString else String a EmptyString
      | r => String a r
      end
  end.

(** [s.strip()]. *)
Definition strip (s : string) : string := rstrip (lstrip s).

(** Truth value of a string: non-empty. *)
Definition str_truthy (s : string) : bool :=
  match s with EmptyString => false | String _ _ => true end.

(** Truth value of a list: non-empty. *)
Definition truthy {A} (l : list A) : bool :=
  match l with [] => false | _ :: _ => true end.

(** [needle in hay]. *)
Fixpoint contains (hay needle : string) : bool :=
  String.prefix needle hay
  || match hay with
     | EmptyString => false
     | String _ t => contains t needle
     end.

(** A float, identified by its [repr] (["0.0"], ["0.73"], ["nan"], ["inf"]). *)
Record pyfloat := Float { float_repr : string }.

Definition float_is_zero (f : pyfloat) : bool :=
  bool_decide (float_repr f = "0.0") || bool_decide (float_repr f = "-0.0").

Definition float_is_finite (f : pyfloat) : bool :=
  negb (bool_decide (float_repr f = "nan") || bool_decide (float_repr f = "inf")
        || bool_decide (float_repr f = "-inf")).

(** The values that occur in the dicts of the workers. *)
Inductive pyval :=
  | PNone
  | PInt (z : Z)
  | PFloat (f : pyfloat)
  | PStr (s : string).

#[global] Instance pyfloat_eq_dec : EqDecision pyfloat.
Proof. solve_decision. Defined.

#[global] Instance pyval_eq_dec : EqDecision pyval.
Proof. solve_decision. Defined.

Abbreviation pydict := (gmap string pyval).

(** [d.get(key)] and [d.get(key, default)]. *)
Definition get (d : pydict) (key : string) : pyval := default PNone (d !! key).
Definition get_or (d : pydict) (key : string) (dflt : pyval) : pyval :=
  default dflt (d !! key).

(** [str(v)]. *)
Definition str (v : pyval) : string :=
  match v with
  | PNone => "None"
  | PInt z => pretty z
  | PFloat f => float_repr f
  | PStr s => s
  end.

(** *** Equality of values, as [==] and [hash] see them

    A set holds [1] and [1.0] as one element ([1 == 1.0], with the same
    hash), likewise [0.0] and [-0.0]; [nan] equals nothing, itself
    included.  A float is kept as its [repr]; the number it stands for is
    read back from it: the digits denote a decimal number, and the float
    is the double nearest to it, ties going to the even mantissa. *)

Definition digit_of (a : ascii) : option Z :=
  let n := nat_of_ascii a in
  if (48 <=? n)%nat && (n <=? 57)%nat then Some (Z.of_nat (n - 48)) else None.

(** Reads the digits at the head of [s] after the digits [acc]: the number
    read, how many digits were read, and what follows them. *)
Fixpoint scan_digits (s : string) (acc : Z) (n : nat) : Z * nat * string :=
  match s with
  | EmptyString => (acc, n, s)
  | String a t =>
      match digit_of a with
      | Some d => scan_digits t (10 * acc + d)%Z (S n)
      | None => (acc, n, s)
      end
  end.

Definition minus_sign : ascii := "045"%char.
Definition plus_sign : ascii := "043"%char.
Definition point : ascii := "046"%char.
Definition letter_e : ascii := "101"%char.

(** The sign of a number at the head of [s], and what follows it. *)
Definition scan_sign (plus_allowed : bool) (s : string) : bool * string :=
  match s with
  | String a t =>
      if Ascii.eqb a minus_sign then (true, t)
      else if plus_allowed && Ascii.eqb a plus_sign then (false, t)
      else (false, s)
  | EmptyString => (false, s)
  end.

(** The exponent part [e+16], [e-05] at the end of a [repr], or nothing. *)
Definition scan_exponent (s : string) : option Z :=
  match s with
  | EmptyString => Some 0%Z
  | String a t =>
      if Ascii.eqb a letter_e then
        let (negative, t1) := scan_sign true t in
        match scan_digits t1 0 0 with
        | (x, S _, EmptyString) => Some (if negative then (- x)%Z else x)
        | _ => None
        end
      else None
  end.

(** The decimal number written by the [repr] of a finite float
    ([-12.5], [1e+16], [2.5e-07]): whether it is negative, and [m], [e] with
    absolute value [m * 10 ^ e].  [None] for [nan], [inf] and [-inf]. *)
Definition decimal_of_repr (s : string) : option (bool * Z * Z) :=
  let (negative, s1) := scan_sign false s in
  match scan_digits s1 0 0 with
  | (_, O, _) => None
  | (m1, S _, s2) =>
      let fraction :=
        match s2 with
        | String a t =>
            if Ascii.eqb a point then
              match scan_digits t m1 0 with
              | (_, O, _) => None
              | (m2, S k, s3) => Some (m2, S k, s3)
              end
            else Some (m1, O, s2)
        | EmptyString => Some (m1, O, s2)
        end in
      match fraction with
      | None => None
      | Some (m, places, s3) =>
          match scan_exponent s3 with
          | Some x => Some (negative, m, (x - Z.of_nat places)%Z)
          | None => None
          end
      end
  end.

(** [m * 10 ^ e] when it is an integer. *)
Definition decimal_integer (m e : Z) : option Z :=
  if (0 <=? e)%Z then Some (m * 10 ^ e)%Z
  else if (m mod 10 ^ (- e) =? 0)%Z then Some (m / 10 ^ (- e))%Z
  else None.

(** The double nearest to the integer [d >= 0]: [d] keeps its 53 leading
    bits, rounded to nearest, ties to even. *)
Definition nearest_double (d : Z) : Z :=
  let bits := if (d =? 0)%Z then 0%Z else (Z.log2 d + 1)%Z in
  if (bits <=? 53)%Z then d
  else
    let shift := (bits - 53)%Z in
    let q := Z.shiftr d shift in
    let r := (d - Z.shiftl q shift)%Z in
    let half := Z.shiftl 1 (shift - 1) in
    let q' := if (half <? r)%Z || ((r =? half)%Z && Z.odd q) then (q + 1)%Z
              else q in
    Z.shiftl q' shift.

(** The integer a float is equal to, if there is one. *)
Definition float_integer (f : pyfloat) : option Z :=
  match decimal_of_repr (float_repr f) with
  | Some (negative, m, e) =>
      match decimal_integer m e with
      | Some d => Some (if negative then (- nearest_double d)%Z
                        else nearest_double d)
      | None => None
      end
  | None => None
  end.

(** What [==] and [hash] see of a value: two values are equal exactly when
    both have a key and the keys are the same.  [nan] has none.  Floats
    that are no integers are equal when their [repr] is the same. *)
Inductive pykey :=
  | KNone
  | KInt (z : Z)
  | KFloat (r : string)
  | KStr (s : string).

#[global] Instance pykey_eq_dec : EqDecision pykey.
Proof. solve_decision. Defined.

Definition py_key (v : pyval) : option pykey :=
  match v with
  | PNone => Some KNone
  | PInt z => Some (KInt z)
  | PStr s => Some (KStr s)
  | PFloat f =>
      if bool_decide (float_repr f = "nan") then None
      else match float_integer f with
           | Some z => Some (KInt z)
           | None => Some (KFloat (float_repr f))
           end
  end.

(** [a == b]. *)
Definition py_eq (a b : pyval) : bool :=
  match py_key a, py_key b with
  | Some k1, Some k2 => bool_decide (k1 = k2)
  | _, _ => false
  end.

(** [x in s] for a set [s], given by the elements that were added to it
    (values read from different places are different objects, so that a
    [nan] is never found). *)
Definition py_in (x : pyval) (s : list pyval) : bool := existsb (py_eq x) s.

(** [l[:n]]: a negative bound counts from the end. *)
Definition slice_to {A} (l : list A) (n : Z) : list A :=
  if (0 <=? n)%Z then take (Z.to_nat n) l
  else take (length l - Z.to_nat (- n)) l.

End Py.

(** ** Job models ([app/models/jobs.py]) *)

Module IngestJob.
Record t := Build {
  document_id : string;
  file_path : string;
  mime_type : string;
  file_size : Z
}.
End IngestJob.

Module EmbedJob.
Record t := Build {
  document_id : string;
  chunks : list Py.pydict
}.
End EmbedJob.

Module QAJob.
Record t := Build {
  query : string;
  max_results : Z;
  temperature : Py.pyfloat
}.

(** [max_results: int = Field(default=10, ge=1, le=20)]: what [parse_raw]
    checks before it returns a job. *)
Definition valid (j : t) : Prop := (1 <= max_results j <= 20)%Z.
End QAJob.

(** ** Exceptions, observable calls and the worker monad *)

Module Runtime.
Import Py.

(** A raised exception: the name of its class and [str(e)].  Only
    subclasses of [Exception] are modelled. *)
Record exn := Exn { exc_type : string; exc_str : string }.

(** [Exception(msg)]. *)
Definition Exception (msg : string) : exn := Exn "Exception" msg.

Inductive result (A : Type) :=
  | Ok (a : A)
  | Raise (e : exn).
Arguments Ok {A} a.
Arguments Raise {A} e.

(** A message delivered by the bus. *)
Record message := Message { msg_id : nat; data : string }.

(** The dict cached for an answered question. *)
Record qa_result := QAResult {
  answer : pyval;
  citations : list pydict;
  chunks_retrieved : nat;
  chunks_used : nat;
  model : string
}.

Abbreviation embedding := (list pyfloat).

(** The calls a worker makes to the outside, in the order it makes them.
    [UpdateDocumentStatus] and [StoreEmbeddings] record the calls of the two
    database methods whose bodies are placeholders in the source. *)
Inductive event :=
  | Log (level : string) (text : string) (fields : list (string * pyval))
  | Subscribe (subject : string)
  | Ack (m : message)
  | Nak (m : message)
  | Publish (subject : string) (document_id : string) (chunks : list pydict)
            (timestamp : Z)
  | S3Download (key : string)
  | ClamScan (path : string)
  | FitzOpen (path : string)
  | GetSize (path : string)
  | FitzClose (path : string)
  | PdfExtract (path : string)
  | OcrRead (path : string)
  | Unlink (path : string)
  | EmbeddingsCreate (model : string) (input : pyval)
  | ChatCreate (model : string) (prompt : string) (temperature : pyfloat)
  | RedisSetex (key : string) (ttl : nat) (value : qa_result)
  | UpdateDocumentStatus (document_id status : string) (metadata : option pydict)
  | StoreEmbeddings (document_id : string) (chunks : list pydict)
                    (embeddings : list embedding).

Abbreviation history := (list event).

(** The mutable part of a worker object and the calls made so far. *)
Record wstate := WState {
  trace : history;
  processed_jobs : nat;
  failed_jobs : nat
}.

Definition M (A : Type) : Type := wstate -> wstate * result A.

Definition ret {A} (a : A) : M A := fun st => (st, Ok a).

Definition raise {A} (e : exn) : M A := fun st => (st, Raise e).

Definition bind {A B} (c : M A) (k : A -> M B) : M B :=
  fun st =>
    match c st with
    | (st', Ok a) => k a st'
    | (st', Raise e) => (st', Raise e)
    end.

(** [try: body  except Exception as e: handler]. *)
Definition try_except {A} (body : M A) (handler : exn -> M A) : M A :=
  fun st =>
    match body st with
    | (st', Ok a) => (st', Ok a)
    | (st', Raise e) => handler e st'
    end.

(** The state once one more call is recorded. *)
Definition note (st : wstate) (ev : event) : wstate :=
  WState (trace st ++ [ev]) (processed_jobs st) (failed_jobs st).

(** A call to a collaborator: it is recorded, and it answers from the
    history before the call. *)
Definition call {A} (ev : event) (answer : history -> result A) : M A :=
  fun st => (note st ev, answer (trace st)).

(** A call that cannot fail. *)
Definition record (ev : event) : M unit :=
  call ev (fun _ => Ok tt).

(** A reading of the environment that leaves no mark. *)
Definition peek {A} (read : history -> A) : M A :=
  fun st => (st, Ok (read (trace st))).

Definition incr_processed : M unit :=
  fun st => (WState (trace st) (S (processed_jobs st)) (failed_jobs st), Ok tt).

Definition incr_failed : M unit :=
  fun st => (WState (trace st) (processed_jobs st) (S (failed_jobs st)), Ok tt).

End Runtime.

Declare Scope worker_scope.
Delimit Scope worker_scope with worker.
Notation "'do' x <- c ; k" := (Runtime.bind c (fun x => k))
  (at level 10, x name, c at level 100, k at level 200) : worker_scope.

Module Loops.
Import Py Runtime.
Local Open Scope worker_scope.

(** [for x in xs: body], with the loop variables carried in [acc]. *)
Fixpoint for_each {A S} (xs : list A) (acc : S) (body : S -> A -> M S) : M S :=
  match xs with
  | [] => ret acc
  | x :: rest => do acc' <- body acc x; for_each rest acc' body
  end.

End Loops.

(** ** The logger wrapper and the consume-process-ack loop *)

Module Worker.
Import Py Runtime Loops.
Local Open Scope worker_scope.

(** What every worker holds of the bus: the clock, the subscription (the
    messages it delivers during one call of [_process_jobs]), the outcome of
    acknowledging or rejecting a message, of publishing, and of decoding the
    bytes of a message. *)
Record bus := Bus {
  clock : history -> Z;
  nats_subscribe : history -> string -> result (list message);
  msg_ack : history -> message -> result unit;
  msg_nak : history -> message -> result unit;
  nats_publish : history -> string -> result unit;
  bytes_decode : string -> result string
}.

(** [WorkerLogger.log_job_start]. *)
Definition log_job_start (worker job_id job_type : string)
    (kwargs : list (string * pyval)) : M unit :=
  record (Log "info" "Job started"
            ([("worker", PStr worker); ("job_id", PStr job_id);
              ("job_type", PStr job_type)] ++ kwargs)).

(** [WorkerLogger.log_job_success]. *)
Definition log_job_success (worker job_id : string) (duration : Z)
    (kwargs : list (string * pyval)) : M unit :=
  record (Log "info" "Job completed"
            ([("worker", PStr worker); ("job_id", PStr job_id);
              ("duration", PInt duration)] ++ kwargs)).

(** [WorkerLogger.log_job_error]. *)
Definition log_job_error (worker job_id : string) (error : exn)
    (kwargs : list (string * pyval)) : M unit :=
  record (Log "error" "Job failed"
            ([("worker", PStr worker); ("job_id", PStr job_id);
              ("error", PStr (exc_str error));
              ("error_type", PStr (exc_type error))] ++ kwargs)).

Definition logger_warning (text : string) : M unit := record (Log "warning" text []).
Definition logger_error (text : string) : M unit := record (Log "error" text []).

(** [time.time()]. *)
Definition time_time (b : bus) : M Z := peek (clock b).

(** Reading the local variable [job] before any message of this call was
    parsed. *)
Definition unbound_job : exn :=
  Exn "UnboundLocalError"
      "cannot access local variable 'job' where it is not associated with a value".

(** The three workers share the text of [_process_jobs]; it is written
    once, over the job model [J], the subject, [J.parse_raw], the attribute
    of the job that the error log reads ([job.document_id], [job.query]) and
    the handler. *)
Section ProcessJobs.
Context {J : Type}.
Variable b : bus.
Variable worker_name : string.
Variable subject : string.
Variable parse_raw : string -> result J.
Variable job_attr : J -> string.
Variable handler : J -> M unit.

(** The [except Exception as e:] clause inside the loop.  [job] is the
    local variable as it stands: bound by the last message that was
    parsed in this call, if any. *)
Definition on_exception (job : option J) (msg : message) (e : exn) : M unit :=
  do key <- match job with
            | Some j => ret (job_attr j)
            | None => raise unbound_job
            end;
  do _ <- log_job_error worker_name key e [];
  do _ <- incr_failed;
  call (Nak msg) (fun h => msg_nak b h msg).

(** [job_data = msg.data.decode(); job = J.parse_raw(job_data)]. *)
Definition decode_job (msg : message) : result J :=
  match bytes_decode b (data msg) with
  | Ok job_data => parse_raw job_data
  | Raise e => Raise e
  end.

(** The body of [async for msg in subscription.messages].  The value
    carried from one message to the next is the local variable [job]; the
    assignment to it survives a later exception of the same [try]. *)
Definition on_message (job : option J) (msg : message) : M (option J) :=
  match decode_job msg with
  | Raise e => do _ <- on_exception job msg e; ret job
  | Ok j =>
      try_except
        (do _ <- handler j;
         do _ <- call (Ack msg) (fun h => msg_ack b h msg);
         ret (Some j))
        (fun e => do _ <- on_exception (Some j) msg e; ret (Some j))
  end.

Definition process_jobs : M unit :=
  try_except
    (do msgs <- call (Subscribe subject) (fun h => nats_subscribe b h subject);
     do _ <- for_each msgs None on_message;
     ret tt)
    (fun e => logger_error ("Error processing jobs: " +:+ exc_str e)).
End ProcessJobs.

End Worker.

(** ** [IngestWorker] *)

Module IngestWorker.
Import Py Runtime Loops Worker.
Local Open Scope worker_scope.

Definition name : string := "ingest".

(** The reply of [clamd]'s [scan]: [None], or a dict from the scanned path
    to a pair of a status and the name of what was found. *)
Abbreviation scan_reply := (option (gmap string (string * pyval))).

(** The worker object: its connections and the libraries it calls.
    [clamav_client] is [None] when the connection made at start-up failed;
    [ocr_reader] holds, per page, the text fragments recognised by EasyOCR. *)
Record self := Self {
  nats : bus;
  parse_raw : string -> result IngestJob.t;
  s3_download_file : history -> string -> result string;
  clamav_client : option (history -> string -> result scan_reply);
  fitz_page_count : history -> string -> result nat;
  os_path_getsize : history -> string -> result Z;
  fitz_close : history -> string -> result unit;
  extract_text : history -> string -> result string;
  ENABLE_OCR : bool;
  ocr_reader : option (history -> string -> result (list (list string)));
  os_unlink : history -> string -> result unit
}.

Definition max_page_length : nat := 2000.

(** The dict [{"page_number": n, "content": c}]. *)
Definition page (n : nat) (c : string) : pydict :=
  {[ "page_number" := PInt (Z.of_nat n); "content" := PStr c ]}.

(** The local variables of the loop of [_split_text_into_pages]. *)
Record loop_state := LoopState {
  pages : list pydict;
  current_page : list string;
  current_length : nat
}.

Definition loop_init : loop_state :=
  {| pages := []; current_page := []; current_length := 0 |}.

(** [pages.append({"page_number": len(pages), "content": "\n\n".join(current_page)})] *)
Definition append_page (ps : list pydict) (cur : list string) : list pydict :=
  ps ++ [ page (length ps) (join blank cur) ].

(** One iteration of [for paragraph in paragraphs]. *)
Definition loop_step (st : loop_state) (paragraph : string) : loop_state :=
  if (max_page_length <? current_length st + String.length paragraph)%nat
     && truthy (current_page st)
  then {| pages := append_page (pages st) (current_page st);
          current_page := [paragraph];
          current_length := String.length paragraph |}
  else {| pages := pages st;
          current_page := current_page st ++ [paragraph];
          current_length := (current_length st + String.length paragraph)%nat |}.

Definition _split_text_into_pages (text : string) : list pydict :=
  let paragraphs := split_blank text in
  let st := fold_left loop_step paragraphs loop_init in
  if truthy (current_page st) then append_page (pages st) (current_page st)
  else pages st.

(** [page["content"]] of a page made by the splitter. *)
Definition content (p : pydict) : string :=
  match p !! "content" with
  | Some (PStr c) => c
  | _ => EmptyString
  end.

Section Methods.
Variable this : self.

Definition _download_file (file_path : string) : M string :=
  try_except
    (call (S3Download file_path) (fun h => s3_download_file this h file_path))
    (fun e =>
       if bool_decide (exc_type e = "ClientError")
       then raise (Exception ("Failed to download file from S3: " +:+ exc_str e))
       else raise e).

Definition _virus_scan (file_path : string) : M unit :=
  match clamav_client this with
  | None => logger_warning "ClamAV not available, skipping virus scan"
  | Some scan =>
      try_except
        (do result <- call (ClamScan file_path) (fun h => scan h file_path);
         match result with
         | None => ret tt
         | Some reply =>
             if bool_decide (reply = ∅) then ret tt
             else
               match reply !! file_path with
               | None => raise (Exn "KeyError" ("'" +:+ file_path +:+ "'"))
               | Some (status, found) =>
                   if bool_decide (status = "FOUND")
                   then raise (Exception ("Virus detected: " +:+ str found))
                   else ret tt
               end
         end)
        (fun e => raise (Exception ("Virus scan failed: " +:+ exc_str e)))
  end.

Definition _get_file_metadata (file_path mime_type : string) : M pydict :=
  if bool_decide (mime_type = "application/pdf") then
    let warn (e : exn) :=
      logger_warning ("Could not get PDF metadata: " +:+ exc_str e) in
    try_except
      (do page_count <- call (FitzOpen file_path)
                             (fun h => fitz_page_count this h file_path);
       let metadata : pydict := {[ "page_count" := PInt (Z.of_nat page_count) ]} in
       try_except
         (do size <- call (GetSize file_path)
                          (fun h => os_path_getsize this h file_path);
          let metadata : pydict := <[ "file_size" := PInt size ]> metadata in
          try_except
            (do _ <- call (FitzClose file_path)
                          (fun h => fitz_close this h file_path);
             ret metadata)
            (fun e => do _ <- warn e; ret metadata))
         (fun e => do _ <- warn e; ret metadata))
      (fun e => do _ <- warn e; ret ∅)
  else ret ∅.

Definition _extract_text_with_ocr
    (reader : history -> string -> result (list (list string)))
    (file_path : string) : M string :=
  try_except
    (do results <- call (OcrRead file_path) (fun h => reader h file_path);
     let text_parts := map (join " ") results in
     ret (join blank text_parts))
    (fun e => raise (Exception ("OCR extraction failed: " +:+ exc_str e))).

Definition _extract_text (file_path mime_type : string) : M (list pydict) :=
  if negb (bool_decide (mime_type = "application/pdf")) then
    raise (Exception ("Unsupported mime type: " +:+ mime_type))
  else
    try_except
      (do text <- call (PdfExtract file_path)
                       (fun h => extract_text this h file_path);
       do text <- (if negb (str_truthy (strip text)) then
                     match ENABLE_OCR this, ocr_reader this with
                     | true, Some reader => _extract_text_with_ocr reader file_path
                     | _, _ => raise (Exception "No text found and OCR is disabled")
                     end
                   else ret text);
       ret (_split_text_into_pages text))
      (fun e => raise (Exception ("Text extraction failed: " +:+ exc_str e))).

(** The body is a placeholder in the source; the call is recorded. *)
Definition _update_document_status (document_id status : string)
    (metadata : pydict) : M unit :=
  record (UpdateDocumentStatus document_id status (Some metadata)).

Definition _publish_embed_job (document_id : string)
    (text_content : list pydict) : M unit :=
  try_except
    (do timestamp <- time_time (nats this);
     call (Publish "jobs.embed" document_id text_content timestamp)
          (fun h => nats_publish (nats this) h "jobs.embed"))
    (fun e =>
       do _ <- logger_error ("Failed to publish embed job: " +:+ exc_str e);
       raise e).

Definition _process_ingest_job (job : IngestJob.t) : M unit :=
  let document_id := IngestJob.document_id job in
  do start_time <- time_time (nats this);
  let job_id := document_id in
  do _ <- log_job_start name job_id "ingest" [("document_id", PStr document_id)];
  try_except
    (do local_file <- _download_file (IngestJob.file_path job);
     do _ <- _virus_scan local_file;
     do metadata <- _get_file_metadata local_file (IngestJob.mime_type job);
     do text_content <- _extract_text local_file (IngestJob.mime_type job);
     do _ <- _update_document_status document_id "ingested" metadata;
     do _ <- _publish_embed_job document_id text_content;
     do _ <- call (Unlink local_file) (fun h => os_unlink this h local_file);
     do now <- time_time (nats this);
     let duration := (now - start_time)%Z in
     do _ <- log_job_success name job_id duration [("document_id", PStr document_id)];
     incr_processed)
    (fun e =>
       do _ <- _update_document_status document_id "failed"
                 {[ "error" := PStr (exc_str e) ]};
       raise e).

Definition _process_jobs : M unit :=
  process_jobs (nats this) name "jobs.ingest" (parse_raw this)
               IngestJob.document_id _process_ingest_job.
End Methods.

End IngestWorker.

(** ** The paragraphs of a page *)

Module Paragraphs.
Import Py IngestWorker.

(** The loop of [_split_text_into_pages] once more, keeping for every page
    the paragraphs it is joined from instead of their join.  It only serves
    to say which paragraphs a page holds. *)
Record group_state := GroupState {
  groups : list (list string);
  g_current : list string;
  g_length : nat
}.

Definition g_init : group_state :=
  {| groups := []; g_current := []; g_length := 0 |}.

Definition g_step (st : group_state) (paragraph : string) : group_state :=
  if (max_page_length <? g_length st + String.length paragraph)%nat
     && truthy (g_current st)
  then {| groups := groups st ++ [g_current st];
          g_current := [paragraph];
          g_length := String.length paragraph |}
  else {| groups := groups st;
          g_current := g_current st ++ [paragraph];
          g_length := (g_length st + String.length paragraph)%nat |}.

Definition g_finish (st : group_state) : list (list string) :=
  if truthy (g_current st) then groups st ++ [g_current st] else groups st.

Definition paragraph_groups (text : string) : list (list string) :=
  g_finish (fold_left g_step (split_blank text) g_init).

(** Numbers the groups from [base] and joins each one. *)
Fixpoint pages_of (base : nat) (gs : list (list string)) : list pydict :=
  match gs with
  | [] => []
  | g :: rest => page base (join blank g) :: pages_of (S base) rest
  end.

(** The pages built so far are the numbered joins of the groups built so
    far, and the other loop variables agree. *)
Definition sim (st : loop_state) (gst : group_state) : Prop :=
  pages st = pages_of 0 (groups gst)
  ∧ current_page st = g_current gst
  ∧ current_length st = g_length gst.

(** What holds of a closed group: it is not empty, and it is one paragraph
    or its paragraphs together have at most [max_page_length] characters. *)
Definition group_ok (g : list string) : Prop :=
  g ≠ [] ∧ (length g = 1 ∨ total_len g ≤ max_page_length).

(** The invariant of the loop, after the paragraphs [consumed]. *)
Definition ginv (consumed : list string) (st : group_state) : Prop :=
  concat (groups st) ++ g_current st = consumed
  ∧ Forall group_ok (groups st)
  ∧ g_length st = total_len (g_current st)
  ∧ (length (g_current st) ≤ 1 ∨ total_len (g_current st) ≤ max_page_length).

End Paragraphs.

(** ** [EmbedWorker] *)

Module EmbedWorker.
Import Py Runtime Loops Worker.
Local Open Scope worker_scope.

Definition name : string := "embed".

(** [embeddings_create h model input] is [response.data] of
    [openai_client.embeddings.create(model=..., input=...)], as a list of
    the [.embedding] of its items. *)
Record self := Self {
  nats : bus;
  parse_raw : string -> result EmbedJob.t;
  OPENAI_EMBEDDING_MODEL : string;
  embeddings_create : history -> string -> pyval -> result (list embedding)
}.

Section Methods.
Variable this : self.

(** [chunk["content"]]. *)
Definition chunk_content (chunk : pydict) : M pyval :=
  match chunk !! "content" with
  | Some v => ret v
  | None => raise (Exn "KeyError" "'content'")
  end.

(** [response.data[0].embedding]. *)
Definition first_embedding (data : list embedding) : M embedding :=
  match data with
  | e :: _ => ret e
  | [] => raise (Exn "IndexError" "list index out of range")
  end.

(** The body of [for chunk in chunks]; [embeddings] is the list built so
    far. *)
Definition embed_chunk (embeddings : list embedding) (chunk : pydict)
    : M (list embedding) :=
  try_except
    (do input <- chunk_content chunk;
     do data <- call (EmbeddingsCreate (OPENAI_EMBEDDING_MODEL this) input)
                     (fun h => embeddings_create this h
                                 (OPENAI_EMBEDDING_MODEL this) input);
     do e <- first_embedding data;
     ret (embeddings ++ [e]))
    (fun e => raise (Exception ("Failed to generate embedding: " +:+ exc_str e))).

Definition _generate_embeddings (chunks : list pydict) : M (list embedding) :=
  for_each chunks [] embed_chunk.

(** The body is a placeholder in the source; the call is recorded. *)
Definition _store_embeddings (document_id : string) (chunks : list pydict)
    (embeddings : list embedding) : M unit :=
  record (StoreEmbeddings document_id chunks embeddings).

(** The body is a placeholder in the source; the call is recorded. *)
Definition _update_document_status (document_id status : string)
    (metadata : option pydict) : M unit :=
  record (UpdateDocumentStatus document_id status metadata).

Definition _process_embed_job (job : EmbedJob.t) : M unit :=
  let document_id := EmbedJob.document_id job in
  do start_time <- time_time (nats this);
  let job_id := document_id in
  do _ <- log_job_start name job_id "embed" [("document_id", PStr document_id)];
  try_except
    (do embeddings <- _generate_embeddings (EmbedJob.chunks job);
     do _ <- _store_embeddings document_id (EmbedJob.chunks job) embeddings;
     do _ <- _update_document_status document_id "embedded" None;
     do now <- time_time (nats this);
     let duration := (now - start_time)%Z in
     do _ <- log_job_success name job_id duration [("document_id", PStr document_id)];
     incr_processed)
    (fun e =>
       do _ <- _update_document_status document_id "failed"
                 (Some {[ "error" := PStr (exc_str e) ]});
       raise e).

Definition _process_jobs : M unit :=
  process_jobs (nats this) name "jobs.embed" (parse_raw this)
               EmbedJob.document_id _process_embed_job.
End Methods.

End EmbedWorker.

(** ** [QAWorker] *)

Module QAWorker.
Import Py Runtime Loops Worker.
Local Open Scope worker_scope.

Definition name : string := "qa".

(** [chat_create h model prompt temperature] is the list of the
    [.message.content] of [response.choices]. *)
Record self := Self {
  nats : bus;
  parse_raw : string -> result QAJob.t;
  OPENAI_MODEL : string;
  OPENAI_EMBEDDING_MODEL : string;
  embeddings_create : history -> string -> pyval -> result (list embedding);
  chat_create : history -> string -> string -> pyfloat -> result (list pyval);
  redis_setex : history -> string -> result unit
}.

(** The loop variables of [_combine_results]; the set [seen] is given by
    the elements added to it, in the order they were added. *)
Record dedup_state := DedupState {
  seen : list pyval;
  unique_results : list pydict
}.

Definition dedup_step (st : dedup_state) (result : pydict) : dedup_state :=
  let chunk_id := get result "chunk_id" in
  if negb (py_in chunk_id (seen st)) then
    {| seen := seen st ++ [chunk_id];
       unique_results := unique_results st ++ [result] |}
  else st.

Definition _combine_results (vector_results bm25_results : list pydict)
    : list pydict :=
  let combined := vector_results ++ bm25_results in
  unique_results (fold_left dedup_step combined (DedupState [] [])).

(** The body of the loop of [_prepare_context], [i] counted from 0. *)
Definition context_part (i : nat) (chunk : pydict) : string :=
  "Source " +:+ pretty (i + 1)%nat +:+ ":" +:+ String nl EmptyString
  +:+ str (get_or chunk "content" (PStr EmptyString)).

Definition _prepare_context (chunks : list pydict) : string :=
  join blank (imap context_part chunks).

Definition _create_prompt (query context : string) : string :=
  "Based on the following context, answer the question. If the answer cannot be found in the context, say so."
  +:+ blank +:+ "Context:" +:+ String nl EmptyString +:+ context
  +:+ blank +:+ "Question: " +:+ query +:+ blank +:+ "Answer:".

(** The dict built for one chunk in [_create_citations]. *)
Definition citation (chunk : pydict) : pydict :=
  {[ "document_id" := get chunk "document_id";
     "page_number" := get_or chunk "page_number" (PInt 0);
     "chunk_index" := get_or chunk "chunk_index" (PInt 0);
     "content" := get_or chunk "content" (PStr EmptyString);
     "score" := get_or chunk "score" (PFloat (Float "0.0")) ]}.

Definition _create_citations (chunks : list pydict) : list pydict :=
  fold_left (fun citations chunk => citations ++ [citation chunk]) chunks [].

Section Methods.
Variable this : self.

Definition _vector_search (query : string) (limit : Z) : M (list pydict) :=
  try_except
    (do data <- call (EmbeddingsCreate (OPENAI_EMBEDDING_MODEL this) (PStr query))
                     (fun h => embeddings_create this h
                                 (OPENAI_EMBEDDING_MODEL this) (PStr query));
     do query_embedding <- match data with
                           | e :: _ => ret e
                           | [] => raise (Exn "IndexError" "list index out of range")
                           end;
     ret [])
    (fun e => raise (Exception ("Vector search failed: " +:+ exc_str e))).

Definition _bm25_search (query : string) (limit : Z) : M (list pydict) :=
  ret [].

(** [_retrieve_chunks], over the two search methods it calls. *)
Definition retrieve_with (vector_search bm25_search : string -> Z -> M (list pydict))
    (job : QAJob.t) : M (list pydict) :=
  try_except
    (do vector_results <- vector_search (QAJob.query job) (QAJob.max_results job * 2)%Z;
     do bm25_results <- bm25_search (QAJob.query job) (QAJob.max_results job * 2)%Z;
     let combined_results := _combine_results vector_results bm25_results in
     ret (slice_to combined_results (QAJob.max_results job)))
    (fun e => raise (Exception ("Failed to retrieve chunks: " +:+ exc_str e))).

Definition _retrieve_chunks (job : QAJob.t) : M (list pydict) :=
  retrieve_with _vector_search _bm25_search job.

Definition _rerank_chunks (query : string) (chunks : list pydict)
    : M (list pydict) :=
  ret chunks.

Definition _generate_answer (query : string) (chunks : list pydict)
    (temperature : pyfloat) : M pyval :=
  try_except
    (let context := _prepare_context chunks in
     let prompt := _create_prompt query context in
     do choices <- call (ChatCreate (OPENAI_MODEL this) prompt temperature)
                        (fun h => chat_create this h (OPENAI_MODEL this)
                                    prompt temperature);
     match choices with
     | c :: _ => ret c
     | [] => raise (Exn "IndexError" "list index out of range")
     end)
    (fun e => raise (Exception ("Failed to generate answer: " +:+ exc_str e))).

Definition _cache_result (job_id : string) (result : qa_result) : M unit :=
  try_except
    (call (RedisSetex ("qa_result:" +:+ job_id) 3600 result)
          (fun h => redis_setex this h ("qa_result:" +:+ job_id)))
    (fun e => logger_warning ("Failed to cache result: " +:+ exc_str e)).

(** [_process_qa_job], over the retrieval method. *)
Definition process_qa_job_with (retrieve : QAJob.t -> M (list pydict))
    (job : QAJob.t) : M unit :=
  do start_time <- time_time (nats this);
  let job_id := "qa_" +:+ pretty start_time in
  do _ <- log_job_start name job_id "qa" [("query", PStr (QAJob.query job))];
  try_except
    (do chunks <- retrieve job;
     do ranked_chunks <- _rerank_chunks (QAJob.query job) chunks;
     do answer <- _generate_answer (QAJob.query job) ranked_chunks
                                   (QAJob.temperature job);
     let citations := _create_citations ranked_chunks in
     let result :=
       {| answer := answer;
          citations := citations;
          chunks_retrieved := length chunks;
          chunks_used := length ranked_chunks;
          model := OPENAI_MODEL this |} in
     do _ <- _cache_result job_id result;
     do now <- time_time (nats this);
     let duration := (now - start_time)%Z in
     do _ <- log_job_success name job_id duration [("query", PStr (QAJob.query job))];
     incr_processed)
    (fun e =>
       do _ <- log_job_error name job_id e [("query", PStr (QAJob.query job))];
       raise e).

Definition _process_qa_job (job : QAJob.t) : M unit :=
  process_qa_job_with _retrieve_chunks job.

Definition _process_jobs : M unit :=
  process_jobs (nats this) name "jobs.qa" (parse_raw this)
               QAJob.query _process_qa_job.
End Methods.

End QAWorker.

(** ** The statements of the specification that the code does not meet,
    and the inputs on which they are examined *)

Module StatedSplitter.
Import Py Runtime Worker.

(** "Every chunk has at most [max_page_length] characters, unless it
    consists of exactly one paragraph that is itself longer." *)
Definition chunk_bound (text : string) : Prop :=
  ∀ p, p ∈ IngestWorker._split_text_into_pages text →
    String.length (IngestWorker.content p) ≤ IngestWorker.max_page_length
    ∨ ∃ paragraph,
        split_blank (IngestWorker.content p) = [paragraph]
        ∧ IngestWorker.max_page_length < String.length paragraph.

(** Two paragraphs of 1000 characters, separated by a blank line. *)
Definition two_halves : string :=
  repeat_char "a" 1000 +:+ blank +:+ repeat_char "b" 1000.

End StatedSplitter.

(** ** Reading a list of retrieval candidates *)

Module Candidates.
Import Py.

(** [result.get("chunk_id")], the identity by which candidates are
    deduplicated. *)
Definition chunk_id (c : pydict) : pyval := get c "chunk_id".

(** The two candidates have the same identity: their [chunk_id]s are
    equal for Python. *)
Definition same_id (c c' : pydict) : bool := py_eq (chunk_id c) (chunk_id c').

(** [c] stands in [l] with no candidate of its identity before it. *)
Definition first_of_its_id (l : list pydict) (c : pydict) : Prop :=
  ∃ before after,
    l = before ++ c :: after ∧ Forall (λ c', same_id c' c = false) before.

(** No two candidates of [u] have the same identity. *)
Fixpoint distinct_ids (u : list pydict) : Prop :=
  match u with
  | [] => True
  | c :: rest => Forall (λ c', same_id c c' = false) rest ∧ distinct_ids rest
  end.

(** The identity of [c] is that of a candidate of [u]. *)
Definition represented (u : list pydict) (c : pydict) : Prop :=
  c ∈ u ∨ Exists (λ c', same_id c c' = true) u.

(** [u] is [l] deduplicated by identity, first occurrence kept: [u] is [l]
    with candidates left out, no identity occurs twice in it, each of its
    candidates is the first of [l] with its identity, and every identity
    of [l] is represented. *)
Definition deduplicated (l u : list pydict) : Prop :=
  u `sublist_of` l
  ∧ distinct_ids u
  ∧ Forall (first_of_its_id l) u
  ∧ Forall (represented u) l.

(** The invariant of the loop of [_combine_results] after the candidates
    [done_] were visited. *)
Definition dedup_inv (done_ : list pydict) (st : QAWorker.dedup_state) : Prop :=
  QAWorker.seen st = map chunk_id (QAWorker.unique_results st)
  ∧ deduplicated done_ (QAWorker.unique_results st).

End Candidates.

(** ** Sample inputs *)

Module Samples.
Import Py Runtime Worker.

Definition empty_state : wstate := WState [] 0 0.

(** A bus on which every operation succeeds; it delivers [msgs]. *)
Definition quiet_bus (msgs : list message) : bus :=
  {| clock := λ _, 1700000000%Z;
     nats_subscribe := λ _ _, Ok msgs;
     msg_ack := λ _ _, Ok tt;
     msg_nak := λ _ _, Ok tt;
     nats_publish := λ _ _, Ok tt;
     bytes_decode := λ bytes, Ok bytes |}.

(** Three retrieval candidates; the first and the third have the same
    chunk identity. *)
Definition cand_a : pydict :=
  {[ "chunk_id" := PStr "a"; "document_id" := PStr "doc-1";
     "page_number" := PInt 0; "chunk_index" := PInt 0;
     "content" := PStr "Alpha."; "score" := PFloat (Float "0.9") ]}.

Definition cand_b : pydict :=
  {[ "chunk_id" := PStr "b"; "document_id" := PStr "doc-1";
     "page_number" := PInt 1; "chunk_index" := PInt 1;
     "content" := PStr "Beta."; "score" := PFloat (Float "0.8") ]}.

Definition cand_a_lexical : pydict :=
  {[ "chunk_id" := PStr "a"; "document_id" := PStr "doc-1";
     "page_number" := PInt 0; "chunk_index" := PInt 0;
     "content" := PStr "Alpha."; "score" := PFloat (Float "0.2") ]}.

Definition qa_job : QAJob.t :=
  {| QAJob.query := "What is alpha?"; QAJob.max_results := 1;
     QAJob.temperature := Float "0.7" |}.

End Samples.

Module StatedQA.
Import Py Runtime Worker QAWorker.

(** The ordinal marker [[n]] of the n-th source. *)
Definition marker (n : nat) : string := "[" +:+ pretty n +:+ "]".

(** "Every citation has a non-empty content excerpt, a page number that is
    at least 0, and the ordinal of a marker that appears in the answer
    text."  The citation at position [i] is the one made for the ranked
    chunk labelled [Source i+1]. *)
Definition citations_wellformed (answer : string) (ranked_chunks : list pydict)
    : Prop :=
  ∀ i c, _create_citations ranked_chunks !! i = Some c →
    (∃ excerpt, c !! "content" = Some (PStr excerpt) ∧ excerpt ≠ EmptyString)
    ∧ (∃ n, c !! "page_number" = Some (PInt n) ∧ (0 ≤ n)%Z)
    ∧ contains answer (marker (i + 1)) = true.

(** An answer that cites the first source only. *)
Definition answer_citing_1 : string := "Alpha is the first letter [1].".

(** A QA worker whose model provider answers every prompt with
    [answer_citing_1] and whose cache accepts every result. *)
Definition qa_worker : self :=
  {| nats := Samples.quiet_bus [];
     parse_raw := λ _, Ok Samples.qa_job;
     OPENAI_MODEL := "gpt-4-turbo-preview";
     OPENAI_EMBEDDING_MODEL := "text-embedding-ada-002";
     embeddings_create := λ _ _ _, Ok [[Float "0.1"]];
     chat_create := λ _ _ _ _, Ok [PStr answer_citing_1];
     redis_setex := λ _ _, Ok tt |}.

End StatedQA.

Module AmendedQA.
Import Py Runtime Worker QAWorker.

(** The citation [c] copies the five fields of [chunk], with the defaults
    of [_create_citations] for the absent ones. *)
Definition copies (chunk c : pydict) : Prop :=
  c !! "document_id" = Some (get chunk "document_id")
  ∧ c !! "page_number" = Some (get_or chunk "page_number" (PInt 0))
  ∧ c !! "chunk_index" = Some (get_or chunk "chunk_index" (PInt 0))
  ∧ c !! "content" = Some (get_or chunk "content" (PStr EmptyString))
  ∧ c !! "score" = Some (get_or chunk "score" (PFloat (Float "0.0"))).

(** The [job_id] of a QA job started in the state [st]. *)
Definition job_id_at (this : self) (st : wstate) : string :=
  "qa_" +:+ pretty (clock (nats this) (trace st)).

(** The state in which the retrieval of a QA job starts: the start of the
    job has been logged. *)
Definition started (this : self) (job : QAJob.t) (st : wstate) : wstate :=
  note st (Log "info" "Job started"
             [("worker", PStr name); ("job_id", PStr (job_id_at this st));
              ("job_type", PStr "qa"); ("query", PStr (QAJob.query job))]).

(** The result cached for an answer over the ranked chunks. *)
Definition response (this : self) (answer : pyval) (ranked_chunks : list pydict)
    : qa_result :=
  {| answer := answer;
     citations := _create_citations ranked_chunks;
     chunks_retrieved := length ranked_chunks;
     chunks_used := length ranked_chunks;
     model := OPENAI_MODEL this |}.

End AmendedQA.

Module StatedEmbed.
Import Py Runtime Worker EmbedWorker.

(** What the specification asks of a stored vector: the configured
    dimension, every component finite, not all components zero. *)
Definition valid_embedding (dimension : nat) (v : embedding) : bool :=
  bool_decide (length v = dimension)
  && forallb float_is_finite v
  && negb (forallb float_is_zero v).

(** "A vector is validated before it is accepted: no accepted vector is
    all-zero or has a non-finite component, and every one has the
    configured dimension." *)
Definition embeddings_validated (dimension : nat) (this : self)
    (chunks : list pydict) (st : wstate) : Prop :=
  ∀ st' embeddings,
    _generate_embeddings this chunks st = (st', Ok embeddings) →
    Forall (λ v, valid_embedding dimension v = true) embeddings.

(** "A rejected vector is retried once": a second request for the chunk. *)
Definition retried (this : self) (chunk : pydict) (st st' : wstate) : Prop :=
  ∃ before between after,
    let request := EmbeddingsCreate (OPENAI_EMBEDDING_MODEL this) (get chunk "content") in
    trace st' = trace st ++ before ++ [request] ++ between ++ [request] ++ after.

(** An embed worker whose model provider answers every input with the
    all-zero vector of three components. *)
Definition zero_worker : self :=
  {| nats := Samples.quiet_bus [];
     parse_raw := λ _, Raise (Exn "ValidationError" "invalid job");
     OPENAI_EMBEDDING_MODEL := "text-embedding-ada-002";
     embeddings_create := λ _ _ _, Ok [[Float "0.0"; Float "0.0"; Float "0.0"]] |}.

Definition hello_chunk : pydict :=
  {[ "page_number" := PInt 0; "content" := PStr "Hello World" ]}.

End StatedEmbed.

Module AmendedEmbed.
Import Py Runtime Worker EmbedWorker.

(** The request made for a chunk. *)
Definition request (this : self) (chunk : pydict) : event :=
  EmbeddingsCreate (OPENAI_EMBEDDING_MODEL this) (get chunk "content").

(** [v] is the first vector of an answer of the provider to the content of
    [chunk]. *)
Definition accepted (this : self) (chunk : pydict) (v : embedding) : Prop :=
  ∃ h input rest,
    chunk !! "content" = Some input
    ∧ embeddings_create this h (OPENAI_EMBEDDING_MODEL this) input = Ok (v :: rest).

Definition is_request (ev : event) : bool :=
  match ev with EmbeddingsCreate _ _ => true | _ => false end.

(** Every chunk of [chunks] has a content, and the provider, asked for
    them one after the other from the state [st], answers each request
    with a list whose first vector is the corresponding one of [vs]. *)
Fixpoint answered (this : self) (st : wstate) (chunks : list pydict)
    (vs : list embedding) : Prop :=
  match chunks, vs with
  | [], [] => True
  | chunk :: chunks', v :: vs' =>
      ∃ input rest,
        chunk !! "content" = Some input
        ∧ embeddings_create this (trace st) (OPENAI_EMBEDDING_MODEL this) input
          = Ok (v :: rest)
        ∧ answered this (note st (request this chunk)) chunks' vs'
  | _, _ => False
  end.

(** The state in which the generation of an embed job starts. *)
Definition started (job : EmbedJob.t) (st : wstate) : wstate :=
  note st (Log "info" "Job started"
             [("worker", PStr name); ("job_id", PStr (EmbedJob.document_id job));
              ("job_type", PStr "embed");
              ("document_id", PStr (EmbedJob.document_id job))]).

(** A call that sets the status of some document to [status]. *)
Definition sets_status (status : string) (ev : event) : bool :=
  match ev with
  | UpdateDocumentStatus _ s _ => bool_decide (s = status)
  | _ => false
  end.

End AmendedEmbed.

Module AmendedIngest.
Import Py Runtime Worker IngestWorker.

(** The state in which the download of an ingest job starts. *)
Definition started (job : IngestJob.t) (st : wstate) : wstate :=
  note st (Log "info" "Job started"
             [("worker", PStr name); ("job_id", PStr (IngestJob.document_id job));
              ("job_type", PStr "ingest");
              ("document_id", PStr (IngestJob.document_id job))]).

(** The chunk lists of the embed jobs among the calls [evs]. *)
Fixpoint published (evs : list event) : list (list pydict) :=
  match evs with
  | [] => []
  | Publish _ _ chunks _ :: rest => chunks :: published rest
  | _ :: rest => published rest
  end.

(** [st'] is reached from [st] by calls that publish the chunk lists
    [lists], in this order. *)
Definition adds (st st' : wstate) (lists : list (list pydict)) : Prop :=
  ∃ evs, trace st' = trace st ++ evs ∧ published evs = lists.

(** [text] is a text that the extraction step can obtain: the text
    pdfminer finds, if it is not blank, or else, pdfminer having found a
    blank text, the pages read by OCR, joined. *)
Definition extracted (this : self) (text : string) : Prop :=
  (∃ h path, extract_text this h path = Ok text ∧ str_truthy (strip text) = true)
  ∨ (∃ h0 path0 blank_text reader h path results,
       extract_text this h0 path0 = Ok blank_text
       ∧ str_truthy (strip blank_text) = false
       ∧ ocr_reader this = Some reader ∧ reader h path = Ok results
       ∧ text = join blank (map (join " ") results)).

(** The file of the worker reads the same whenever it is read: pdfminer
    and OCR return the same thing each time they succeed. *)
Definition same_source (this : self) : Prop :=
  (∀ h h' path path' text text',
     extract_text this h path = Ok text →
     extract_text this h' path' = Ok text' → text = text')
  ∧ (∀ reader h h' path path' results results',
       ocr_reader this = Some reader →
       reader h path = Ok results → reader h' path' = Ok results' →
       results = results').

(** The message that reports a threat. *)
Definition threat_error (found : pyval) : exn :=
  Exception ("Virus scan failed: Virus detected: " +:+ str found).

End AmendedIngest.

Module StatedIngest.
Import Py Runtime Worker IngestWorker.

Definition pdf_job : IngestJob.t :=
  {| IngestJob.document_id := "doc-1"; IngestJob.file_path := "uploads/doc-1.pdf";
     IngestJob.mime_type := "application/pdf"; IngestJob.file_size := 1024 |}.

Definition good_payload : string := "{job doc-1}".

(** The job parser of the sample workers: one payload is a job, anything
    else is rejected. *)
Definition sample_parse (job_data : string) : result IngestJob.t :=
  if bool_decide (job_data = good_payload) then Ok pdf_job
  else Raise (Exn "ValidationError" "1 validation error for IngestJob").

(** An ingest worker, given its scanner and the messages of its
    subscription: the download, pdfminer and the bus succeed, the PDF has
    one page with the text "Hello World". *)
Definition worker_with
    (scanner : option (history → string → result scan_reply))
    (msgs : list message) : self :=
  {| nats := Samples.quiet_bus msgs;
     parse_raw := sample_parse;
     s3_download_file := λ _ _, Ok "/tmp/tmp1.pdf";
     clamav_client := scanner;
     fitz_page_count := λ _ _, Ok 1;
     os_path_getsize := λ _ _, Ok 1024%Z;
     fitz_close := λ _ _, Ok tt;
     extract_text := λ _ _, Ok "Hello World";
     ENABLE_OCR := true;
     ocr_reader := None;
     os_unlink := λ _ _, Ok tt |}.

(** A scanner that finds nothing, one that finds a test virus, and one
    that cannot be reached when asked to scan. *)
Definition clean_scanner : history → string → result scan_reply :=
  λ _ path, Ok (Some {[ path := ("OK", PNone) ]}).
Definition alarmed_scanner : history → string → result scan_reply :=
  λ _ path, Ok (Some {[ path := ("FOUND", PStr "Eicar-Test-Signature") ]}).
Definition unreachable_scanner : history → string → result scan_reply :=
  λ _ _, Raise (Exn "ConnectionError" "Connection refused").

Definition healthy_worker : self := worker_with (Some clean_scanner) [].
Definition infected_worker : self := worker_with (Some alarmed_scanner) [].
Definition cut_off_worker : self := worker_with (Some unreachable_scanner) [].

(** "A threat aborts the job with an error kind of its own, distinguishable
    from ordinary failures": the class of the exception of the job whose
    file is infected differs from the class of the exception of a job that
    fails for another reason. *)
Definition virus_kind_dedicated (infected other : self) (job : IngestJob.t)
    (st : wstate) : Prop :=
  ∀ st1 st2 e1 e2,
    _process_ingest_job infected job st = (st1, Raise e1) →
    _process_ingest_job other job st = (st2, Raise e2) →
    exc_type e1 ≠ exc_type e2.

(** "If the scanner is unreachable the job continues": the job of a worker
    whose scanner cannot be reached succeeds like the job of the healthy
    one. *)
Definition scan_best_effort (cut_off : self) (job : IngestJob.t)
    (st : wstate) : Prop :=
  ∃ st', _process_ingest_job cut_off job st = (st', Ok tt).

(** "The second run wholesale replaces rather than duplicates the first
    run's chunks": once the job has run twice, one run after the other,
    the chunk lists handed on for the document are the list of one run. *)
Definition replaced_wholesale (this : self) (job : IngestJob.t)
    (st : wstate) : Prop :=
  ∀ st1 st2,
    _process_ingest_job this job st = (st1, Ok tt) →
    _process_ingest_job this job st1 = (st2, Ok tt) →
    ∃ chunks, AmendedIngest.adds st st2 [chunks].

End StatedIngest.

Module RerunIngest.
Import Py Runtime Worker IngestWorker.

(** The healthy worker runs the sample job, and runs it again. *)
Definition after_first_run : wstate :=
  (_process_ingest_job StatedIngest.healthy_worker StatedIngest.pdf_job
     Samples.empty_state).1.

Definition after_second_run : wstate :=
  (_process_ingest_job StatedIngest.healthy_worker StatedIngest.pdf_job
     after_first_run).1.

End RerunIngest.

Module StatedRuntime.
Import Py Runtime Worker.

(** Two messages for the ingest worker: one whose payload is not a job, and
    one that is the sample job. *)
Definition bad_message : message := Message 1 "not json".
Definition good_message : message := Message 2 StatedIngest.good_payload.

(** The healthy ingest worker, receiving the bad message first. *)
Definition bad_first_worker : IngestWorker.self :=
  StatedIngest.worker_with (Some StatedIngest.clean_scanner)
    [bad_message; good_message].

(** The same worker, receiving the good message first. *)
Definition good_first_worker : IngestWorker.self :=
  StatedIngest.worker_with (Some StatedIngest.clean_scanner)
    [good_message; bad_message].

(** The line that the outer [except] clause of [_process_jobs] logs. *)
Definition loop_error (e : exn) : event :=
  Log "error" ("Error processing jobs: " +:+ exc_str e) [].

(** The line that the [except] clause inside the loop logs. *)
Definition job_failed (worker job_attr : string) (e : exn) : event :=
  Log "error" "Job failed"
    [("worker", PStr worker); ("job_id", PStr job_attr);
     ("error", PStr (exc_str e)); ("error_type", PStr (exc_type e))].

(** The state once a failure is counted. *)
Definition counted (st : wstate) : wstate :=
  WState (trace st) (processed_jobs st) (S (failed_jobs st)).

End StatedRuntime.

Module FailingQA.
Import Py Runtime Worker QAWorker.

(** The line that [_process_qa_job] logs before it raises again. *)
Definition qa_failed (this : self) (job : QAJob.t) (st : wstate) (e : exn) : event :=
  Log "error" "Job failed"
    [("worker", PStr name); ("job_id", PStr (AmendedQA.job_id_at this st));
     ("error", PStr (exc_str e)); ("error_type", PStr (exc_type e));
     ("query", PStr (QAJob.query job))].

Definition qa_message : message := Message 7 "{question}".

(** A QA worker that is delivered one question and whose model provider
    cannot be reached. *)
Definition offline_worker : self :=
  {| nats := Samples.quiet_bus [qa_message];
     parse_raw := λ _, Ok Samples.qa_job;
     OPENAI_MODEL := "gpt-4-turbo-preview";
     OPENAI_EMBEDDING_MODEL := "text-embedding-ada-002";
     embeddings_create := λ _ _ _, Raise (Exn "APIConnectionError" "Connection error.");
     chat_create := λ _ _ _ _, Raise (Exn "APIConnectionError" "Connection error.");
     redis_setex := λ _ _, Ok tt |}.

(** What the offline worker raises for a question. *)
Definition retrieval_error : exn :=
  Exception "Failed to retrieve chunks: Vector search failed: Connection error.".

Definition generation_error : exn :=
  Exception "Failed to generate answer: Connection error.".

(** The state once the loop has answered the exception [e] of the job of
    [msg], raised in the state [st1]: the failure is logged under the
    query, counted, and the message rejected. *)
Definition rejected (job : QAJob.t) (msg : message) (st1 : wstate) (e : exn)
    : wstate :=
  note (StatedRuntime.counted
          (note st1 (StatedRuntime.job_failed name (QAJob.query job) e)))
       (Nak msg).

(** What [msg.nak()] answers at that point. *)
Definition nak_outcome (this : self) (job : QAJob.t) (msg : message)
    (st1 : wstate) (e : exn) : result unit :=
  msg_nak (nats this)
    (trace (StatedRuntime.counted
              (note st1 (StatedRuntime.job_failed name (QAJob.query job) e))))
    msg.

(** [_process_jobs] from the second message of its subscription on, [job]
    being bound. *)
Definition rest_of_subscription (this : self) (job : QAJob.t)
    (msgs : list message) : M unit :=
  try_except
    (bind (Loops.for_each msgs (Some job)
             (on_message (nats this) name (parse_raw this) QAJob.query
                (_process_qa_job this)))
          (λ _, ret tt))
    (λ e, logger_error ("Error processing jobs: " +:+ exc_str e)).

End FailingQA.

(** ** Further notions used to describe what the workers do *)

Module SplitterShape.
Import Py IngestWorker.

(** The group [g] was closed because the first paragraph of the next
    group did not fit with it. *)
Definition next_overflows (g : list string) (rest : list (list string)) : Prop :=
  match rest with
  | [] => True
  | [] :: _ => False
  | (p :: _) :: _ => max_page_length < total_len g + String.length p
  end.

(** Every group but the last was closed because the next paragraph did not
    fit. *)
Fixpoint closed_when_full (gs : list (list string)) : Prop :=
  match gs with
  | [] => True
  | g :: rest => next_overflows g rest ∧ closed_when_full rest
  end.

(** The groups closed so far, followed by the open one if it has a
    paragraph. *)
Definition with_open (gs : list (list string)) (cur : list string)
    : list (list string) :=
  match cur with [] => gs | _ :: _ => gs ++ [cur] end.

End SplitterShape.

Module JobShape.
Import Py Runtime Worker.

(** Calls that only fetch, read or warn: the steps of an ingest job before
    its first status update make no other call. *)
Definition is_probe (ev : event) : bool :=
  match ev with
  | S3Download _ | ClamScan _ | FitzOpen _ | GetSize _ | FitzClose _
  | PdfExtract _
  | OcrRead _ => true
  | Log level _ _ => bool_decide (level = "warning")
  | _ => false
  end.

(** Calls that open or read the downloaded file, publish or clean up. *)
Definition is_extraction (ev : event) : bool :=
  match ev with
  | FitzOpen _ | GetSize _ | FitzClose _ | PdfExtract _ | OcrRead _
  | Publish _ _ _ _
  | Unlink _ => true
  | _ => false
  end.

Definition is_unlink (ev : event) : bool :=
  match ev with Unlink _ => true | _ => false end.

(** The statuses set by the calls [evs], in order. *)
Fixpoint statuses (evs : list event) : list string :=
  match evs with
  | [] => []
  | UpdateDocumentStatus _ status _ :: rest => status :: statuses rest
  | _ :: rest => statuses rest
  end.

(** The status call of the [except] clause of a job. *)
Definition failed_status (document_id : string) (e : exn) : event :=
  UpdateDocumentStatus document_id "failed"
    (Some {[ "error" := PStr (exc_str e) ]}).

(** [st'] is reached from [st] by probes, the counters untouched. *)
Definition probing (st st' : wstate) : Prop :=
  ∃ evs, trace st' = trace st ++ evs ∧ forallb is_probe evs = true
         ∧ processed_jobs st' = processed_jobs st
         ∧ failed_jobs st' = failed_jobs st.

(** How a run of an ingest job ends, after its calls that only fetch,
    read or warn: the calls it ends with, what it returns and what it adds
    to [processed_jobs].  [unlinked before local_file answer] says what
    [os.unlink(local_file)] answered when it was called after the calls
    [before] of the ending. *)
Inductive ingest_tail (document_id : string)
    (unlinked : list event → string → result unit → Prop)
    : list event → result unit → nat → Prop :=
  | EarlyFailure e :
      ingest_tail document_id unlinked
        [failed_status document_id e] (Raise e) 0
  | PublishFailure e metadata pages timestamp :
      ingest_tail document_id unlinked
        [UpdateDocumentStatus document_id "ingested" (Some metadata);
         Publish "jobs.embed" document_id pages timestamp;
         Log "error" ("Failed to publish embed job: " +:+ exc_str e) [];
         failed_status document_id e]
        (Raise e) 0
  | CleanupFailure e metadata pages timestamp local_file :
      unlinked
        [UpdateDocumentStatus document_id "ingested" (Some metadata);
         Publish "jobs.embed" document_id pages timestamp]
        local_file (Raise e) →
      ingest_tail document_id unlinked
        [UpdateDocumentStatus document_id "ingested" (Some metadata);
         Publish "jobs.embed" document_id pages timestamp;
         Unlink local_file;
         failed_status document_id e]
        (Raise e) 0
  | Success metadata pages timestamp local_file fields :
      unlinked
        [UpdateDocumentStatus document_id "ingested" (Some metadata);
         Publish "jobs.embed" document_id pages timestamp]
        local_file (Ok tt) →
      ingest_tail document_id unlinked
        [UpdateDocumentStatus document_id "ingested" (Some metadata);
         Publish "jobs.embed" document_id pages timestamp;
         Unlink local_file;
         Log "info" "Job completed" fields]
        (Ok tt) 1.

End JobShape.

Module NonPdf.
Import Py Runtime Worker IngestWorker.

(** The exception of [_extract_text] for a file that is not a PDF. *)
Definition unsupported (mime_type : string) : exn :=
  Exception ("Unsupported mime type: " +:+ mime_type).

Definition png_job : IngestJob.t :=
  {| IngestJob.document_id := "doc-2"; IngestJob.file_path := "uploads/doc-2.png";
     IngestJob.mime_type := "image/png"; IngestJob.file_size := 2048 |}.

End NonPdf.

Module EmbedShape.
Import Py Runtime Worker EmbedWorker.

(** What [embed_chunk] raises when the failure inside its [try] has the
    text [reason]. *)
Definition generation_failed (reason : string) : exn :=
  Exception ("Failed to generate embedding: " +:+ reason).

Definition has_content (chunk : pydict) : Prop := chunk !! "content" ≠ None.

(** An embed job for a document whose text gave no chunk, and a chunk
    without the key [content]. *)
Definition empty_job : EmbedJob.t :=
  {| EmbedJob.document_id := "doc-3"; EmbedJob.chunks := [] |}.

Definition bare_chunk : pydict := {[ "page_number" := PInt 1 ]}.

End EmbedShape.

Module QAShape.
Import Py Runtime Worker QAWorker.

(** The request for the vector of the question. *)
Definition search_request (this : self) (job : QAJob.t) : event :=
  EmbeddingsCreate (OPENAI_EMBEDDING_MODEL this) (PStr (QAJob.query job)).

(** The request for an answer over the ranked chunks. *)
Definition answer_request (this : self) (job : QAJob.t) (chunks : list pydict)
    : event :=
  ChatCreate (OPENAI_MODEL this)
    (_create_prompt (QAJob.query job) (_prepare_context chunks))
    (QAJob.temperature job).

(** The result cached for an answer found without any chunk. *)
Definition bare_response (this : self) (answer : pyval) : qa_result :=
  {| answer := answer; citations := []; chunks_retrieved := 0;
     chunks_used := 0; model := OPENAI_MODEL this |}.

(** The line logged when the cache refuses a result. *)
Definition cache_warning (e : exn) : event :=
  Log "warning" ("Failed to cache result: " +:+ exc_str e) [].

(** The line logged at the end of a QA job started in [st] and finished
    when the clock shows [now]. *)
Definition qa_completed (this : self) (job : QAJob.t) (st : wstate) (now : Z)
    : event :=
  Log "info" "Job completed"
    [("worker", PStr name); ("job_id", PStr (AmendedQA.job_id_at this st));
     ("duration", PInt (now - clock (nats this) (trace st)));
     ("query", PStr (QAJob.query job))].

Definition retrieval_failed (reason : string) : exn :=
  Exception ("Failed to retrieve chunks: Vector search failed: " +:+ reason).

Definition answer_failed (reason : string) : exn :=
  Exception ("Failed to generate answer: " +:+ reason).

(** The part of the context written for the citation at position [i]. *)
Definition source_of_citation (i : nat) (c : pydict) : string :=
  "Source " +:+ pretty (i + 1)%nat +:+ ":" +:+ String nl EmptyString
  +:+ str (get c "content").

(** A QA worker whose cache cannot be reached. *)
Definition forgetful_worker : self :=
  {| nats := Samples.quiet_bus [];
     parse_raw := λ _, Ok Samples.qa_job;
     OPENAI_MODEL := "gpt-4-turbo-preview";
     OPENAI_EMBEDDING_MODEL := "text-embedding-ada-002";
     embeddings_create := λ _ _ _, Ok [[Float "0.1"]];
     chat_create := λ _ _ _ _, Ok [PStr "I cannot find that in the context."];
     redis_setex := λ _ _, Raise (Exn "ConnectionError" "Connection refused") |}.

End QAShape.

Module LoopTally.
Import Py Runtime Worker.

Definition is_ack (ev : event) : bool :=
  match ev with Ack _ => true | _ => false end.

Definition is_nak (ev : event) : bool :=
  match ev with Nak _ => true | _ => false end.

(** The number of calls of a kind among [evs]. *)
Definition calls (kind : event → bool) (evs : list event) : nat :=
  length (List.filter kind evs).

(** From [st] to [st'] calls were only added, [processed_jobs] grew by the
    number of acknowledgements sent and [failed_jobs] by the number of
    rejections sent. *)
Definition tallied (st st' : wstate) : Prop :=
  ∃ added,
    trace st' = trace st ++ added
    ∧ processed_jobs st' = processed_jobs st + calls is_ack added
    ∧ failed_jobs st' = failed_jobs st + calls is_nak added.

(** What the loop relies on in a job handler: it answers no message
    itself, leaves [failed_jobs] alone and counts the job as processed
    exactly when it returns. *)
Definition keeps_tally {J} (handler : J → M unit) : Prop :=
  ∀ j st, ∃ st' r added,
    handler j st = (st', r)
    ∧ trace st' = trace st ++ added
    ∧ calls is_ack added = 0 ∧ calls is_nak added = 0
    ∧ failed_jobs st' = failed_jobs st
    ∧ processed_jobs st'
      = processed_jobs st + match r with Ok _ => 1 | Raise _ => 0 end.

(** The message was answered among [added]. *)
Definition answered (added : list event) (msg : message) : Prop :=
  Ack msg ∈ added ∨ Nak msg ∈ added.

(** The healthy ingest worker on a bus that delivers the sample job and
    loses every acknowledgement. *)
Definition unacked_worker : IngestWorker.self :=
  {| IngestWorker.nats :=
       {| clock := λ _, 1700000000%Z;
          nats_subscribe := λ _ _, Ok [StatedRuntime.good_message];
          msg_ack := λ _ _, Raise (Exn "TimeoutError" "nats: timeout");
          msg_nak := λ _ _, Ok tt;
          nats_publish := λ _ _, Ok tt;
          bytes_decode := λ bytes, Ok bytes |};
     IngestWorker.parse_raw := StatedIngest.sample_parse;
     IngestWorker.s3_download_file := λ _ _, Ok "/tmp/tmp1.pdf";
     IngestWorker.clamav_client := Some StatedIngest.clean_scanner;
     IngestWorker.fitz_page_count := λ _ _, Ok 1;
     IngestWorker.os_path_getsize := λ _ _, Ok 1024%Z;
     IngestWorker.fitz_close := λ _ _, Ok tt;
     IngestWorker.extract_text := λ _ _, Ok "Hello World";
     IngestWorker.ENABLE_OCR := true;
     IngestWorker.ocr_reader := None;
     IngestWorker.os_unlink := λ _ _, Ok tt |}.

End LoopTally.

(** ** Starting and stopping a worker ([start], [stop], [_init_connections]) *)

Module Lifecycle.
Import Py Runtime Loops Worker.

(** What [start] and [stop] read and write on the worker object besides
    what the jobs use: the flag [is_running], whether [nats_client] and
    [redis_client] hold a client (they are [None] until
    [_init_connections]), the pauses taken with [asyncio.sleep], in
    seconds, and the clients asked to close, in order. *)
Record lstate := LState {
  core : wstate;
  is_running : bool;
  nats_client : bool;
  redis_client : bool;
  sleeps : list nat;
  closing : list string
}.

(** The outcome of connecting to the bus, of [redis.from_url] and of
    closing the two clients. *)
Record host := Host {
  nats_connect : history → result unit;
  redis_from_url : history → result unit;
  nats_close : history → result unit;
  redis_close : history → result unit
}.

(** How a call of [start] stands when it is looked at: it has returned,
    it has raised, or its loop is still turning (the model was given no
    more turns). *)
Inductive outcome :=
  | Returned
  | Raised (e : exn)
  | Running.

Definition with_core (ls : lstate) (w : wstate) : lstate :=
  LState w (is_running ls) (nats_client ls) (redis_client ls) (sleeps ls)
         (closing ls).

Definition set_running (ls : lstate) (flag : bool) : lstate :=
  LState (core ls) flag (nats_client ls) (redis_client ls) (sleeps ls)
         (closing ls).

Definition sleep (seconds : nat) (ls : lstate) : lstate :=
  LState (core ls) (is_running ls) (nats_client ls) (redis_client ls)
         (sleeps ls ++ [seconds]) (closing ls).

Definition ask_to_close (client : string) (ls : lstate) : lstate :=
  LState (core ls) (is_running ls) (nats_client ls) (redis_client ls)
         (sleeps ls) (closing ls ++ [client]).

(** [WorkerLogger.log_worker_start] and [log_worker_stop]. *)
Definition log_worker_start (worker : string) : event :=
  Log "info" "Worker started" [("worker", PStr worker)].

Definition log_worker_stop (worker : string) : event :=
  Log "info" "Worker stopped" [("worker", PStr worker)].

(** [_init_connections] of the embed and QA workers, and the first two
    steps of that of the ingest worker. *)
Definition init_clients (h : host) (ls : lstate) : lstate * result unit :=
  let ls1 := LState (core ls) (is_running ls) true (redis_client ls)
                    (sleeps ls) (closing ls) in
  match nats_connect h (trace (core ls)) with
  | Raise e => (ls1, Raise e)
  | Ok _ =>
      match redis_from_url h (trace (core ls)) with
      | Raise e => (ls1, Raise e)
      | Ok _ =>
          (LState (core ls) (is_running ls) true true (sleeps ls) (closing ls),
           Ok tt)
      end
  end.

(** The line logged by the [except] clause of the loop of [start]. *)
Definition worker_error (label : string) (e : exn) : event :=
  Log "error" ("Error in " +:+ label +:+ " worker: " +:+ exc_str e) [].

(** The body of [while self.is_running]. *)
Definition turn (label : string) (process_jobs : M unit) (ls : lstate) : lstate :=
  match process_jobs (core ls) with
  | (w, Ok _) => sleep 1 (with_core ls w)
  | (w, Raise e) => sleep 5 (with_core ls (note w (worker_error label e)))
  end.

(** [while self.is_running: body], looked at after at most [turns] turns. *)
Fixpoint while_running (turns : nat) (body : lstate → lstate) (ls : lstate)
    : lstate * outcome :=
  if is_running ls then
    match turns with
    | 0 => (ls, Running)
    | S turns' => while_running turns' body (body ls)
    end
  else (ls, Returned).

(** The first two statements of [start]. *)
Definition announce (worker : string) (ls : lstate) : lstate :=
  set_running (with_core ls (note (core ls) (log_worker_start worker))) true.

(** [start] of the embed and QA workers. *)
Definition start_with (worker label : string) (h : host) (process_jobs : M unit)
    (turns : nat) (ls : lstate) : lstate * outcome :=
  match init_clients h (announce worker ls) with
  | (ls1, Raise e) => (ls1, Raised e)
  | (ls1, Ok _) => while_running turns (turn label process_jobs) ls1
  end.

Definition close_redis (h : host) (ls : lstate) : lstate * result unit :=
  if redis_client ls then
    (ask_to_close "redis" ls, redis_close h (trace (core ls)))
  else (ls, Ok tt).

(** [stop], the same in the three workers. *)
Definition stop (worker : string) (h : host) (ls : lstate) : lstate * result unit :=
  let ls1 :=
    set_running (with_core ls (note (core ls) (log_worker_stop worker))) false in
  if nats_client ls1 then
    match nats_close h (trace (core ls1)) with
    | Ok _ => close_redis h (ask_to_close "nats" ls1)
    | Raise e => (ask_to_close "nats" ls1, Raise e)
    end
  else close_redis h ls1.

(** A worker object as [__init__] leaves it. *)
Definition fresh : lstate := LState (WState [] 0 0) false false false [] [].

End Lifecycle.

Module EmbedLifecycle.
Import Py Runtime Worker Lifecycle.

Definition start (this : EmbedWorker.self) (h : host) :=
  start_with EmbedWorker.name "embed" h (EmbedWorker._process_jobs this).

Definition stop := Lifecycle.stop EmbedWorker.name.

End EmbedLifecycle.

Module QALifecycle.
Import Py Runtime Worker Lifecycle.

Definition start (this : QAWorker.self) (h : host) :=
  start_with QAWorker.name "QA" h (QAWorker._process_jobs this).

Definition stop := Lifecycle.stop QAWorker.name.

End QALifecycle.

Module IngestLifecycle.
Import Py Runtime Worker Lifecycle IngestWorker.

(** The scanner daemon and the OCR library: the outcome of
    [clamd.ClamdUnixSocket()] followed by [ping()], the [scan] of that
    client, and [easyocr.Reader(settings.OCR_LANGUAGES)]. *)
Record services := Services {
  clamd_ping : history → result unit;
  clamd_scan : history → string → result scan_reply;
  easyocr_Reader :
    history → result (history → string → result (list (list string)))
}.

Definition with_clamav (this : self)
    (client : option (history → string → result scan_reply)) : self :=
  {| nats := nats this; parse_raw := parse_raw this;
     s3_download_file := s3_download_file this;
     clamav_client := client;
     fitz_page_count := fitz_page_count this;
     os_path_getsize := os_path_getsize this;
     fitz_close := fitz_close this;
     extract_text := extract_text this;
     ENABLE_OCR := ENABLE_OCR this;
     ocr_reader := ocr_reader this;
     os_unlink := os_unlink this |}.

Definition with_ocr (this : self)
    (reader : option (history → string → result (list (list string)))) : self :=
  {| nats := nats this; parse_raw := parse_raw this;
     s3_download_file := s3_download_file this;
     clamav_client := clamav_client this;
     fitz_page_count := fitz_page_count this;
     os_path_getsize := os_path_getsize this;
     fitz_close := fitz_close this;
     extract_text := extract_text this;
     ENABLE_OCR := ENABLE_OCR this;
     ocr_reader := reader;
     os_unlink := os_unlink this |}.

(** The line logged when the scanner cannot be reached at start-up. *)
Definition clamav_warning (e : exn) : event :=
  Log "warning" ("Could not connect to ClamAV: " +:+ exc_str e) [].

(** [_init_connections]; the worker object it returns is [this] with the
    scanner client it found. *)
Definition _init_connections (h : host) (sv : services) (this : self)
    (ls : lstate) : lstate * result self :=
  match init_clients h ls with
  | (ls1, Raise e) => (ls1, Raise e)
  | (ls1, Ok _) =>
      match clamd_ping sv (trace (core ls1)) with
      | Ok _ => (ls1, Ok (with_clamav this (Some (clamd_scan sv))))
      | Raise e =>
          (with_core ls1 (note (core ls1) (clamav_warning e)),
           Ok (with_clamav this None))
      end
  end.

(** The worker object once [_init_connections] has looked for the
    scanner, the clients having been made in [ls1]. *)
Definition after_ping (sv : services) (ls1 : lstate) : lstate :=
  match clamd_ping sv (trace (core ls1)) with
  | Ok _ => ls1
  | Raise e => with_core ls1 (note (core ls1) (clamav_warning e))
  end.

(** [if settings.ENABLE_OCR: self.ocr_reader = easyocr.Reader(...)]. *)
Definition init_ocr (sv : services) (this : self) (ls : lstate) : result self :=
  if ENABLE_OCR this then
    match easyocr_Reader sv (trace (core ls)) with
    | Ok reader => Ok (with_ocr this (Some reader))
    | Raise e => Raise e
    end
  else Ok this.

Definition start (this : self) (h : host) (sv : services) (turns : nat)
    (ls : lstate) : lstate * outcome :=
  match _init_connections h sv this (announce name ls) with
  | (ls1, Raise e) => (ls1, Raised e)
  | (ls1, Ok this1) =>
      match init_ocr sv this1 ls1 with
      | Raise e => (ls1, Raised e)
      | Ok this2 => while_running turns (turn "ingest" (_process_jobs this2)) ls1
      end
  end.

Definition stop := Lifecycle.stop name.

(** A host on which every connection succeeds, and services whose scanner
    daemon is not running. *)
Definition open_host : host :=
  {| nats_connect := λ _, Ok tt; redis_from_url := λ _, Ok tt;
     nats_close := λ _, Ok tt; redis_close := λ _, Ok tt |}.

Definition no_daemon : services :=
  {| clamd_ping := λ _, Raise (Exn "ConnectionError" "Error 2 connecting");
     clamd_scan := StatedIngest.clean_scanner;
     easyocr_Reader := λ _, Ok (λ _ _, Ok []) |}.

(** A host whose bus refuses the connection. *)
Definition closed_host : host :=
  {| nats_connect := λ _, Raise (Exn "NoServersError" "nats: no servers available");
     redis_from_url := λ _, Ok tt;
     nats_close := λ _, Ok tt; redis_close := λ _, Ok tt |}.

End IngestLifecycle.

Module ExtractionShape.
Import Py Runtime Worker IngestWorker.

(** The line logged when the page count or the size cannot be read. *)
Definition metadata_warning (e : exn) : event :=
  Log "warning" ("Could not get PDF metadata: " +:+ exc_str e) [].

Definition extraction_failed (reason : string) : exn :=
  Exception ("Text extraction failed: " +:+ reason).

(** The text that [_extract_text_with_ocr] makes of what was read on the
    pages. *)
Definition ocr_text (results : list (list string)) : string :=
  join blank (map (join " ") results).

(** An ingest worker for scanned documents of two pages: pdfminer finds
    only white space, and OCR recognises nothing on either page. *)
Definition scanned_worker : self :=
  {| nats := Samples.quiet_bus [];
     parse_raw := StatedIngest.sample_parse;
     s3_download_file := λ _ _, Ok "/tmp/tmp1.pdf";
     clamav_client := None;
     fitz_page_count := λ _ _, Ok 1;
     os_path_getsize := λ _ _, Ok 1024%Z;
     fitz_close := λ _ _, Ok tt;
     extract_text := λ _ _, Ok "  ";
     ENABLE_OCR := true;
     ocr_reader := Some (λ _ _, Ok [[]; []]);
     os_unlink := λ _ _, Ok tt |}.

End ExtractionShape.

Module LifecycleSamples.
Import Py Runtime Worker.

(** A bus that is connected but refuses every subscription. *)
Definition down_bus : bus :=
  {| clock := λ _, 1700000000%Z;
     nats_subscribe := λ _ _, Raise (Exn "ConnectionClosedError" "nats: connection closed");
     msg_ack := λ _ _, Ok tt;
     msg_nak := λ _ _, Ok tt;
     nats_publish := λ _ _, Ok tt;
     bytes_decode := λ bytes, Ok bytes |}.

End LifecycleSamples.

(** * Properties *)

(** ** The worker monad *)

Module RuntimeFacts.
Import Py Runtime.

Lemma run_bind {A B} (c : M A) (k : A → M B) st st' a :
  c st = (st', Ok a) → bind c k st = k a st'.
Proof. intros H. unfold bind. by rewrite H. Qed.

Lemma run_bind_raise {A B} (c : M A) (k : A → M B) st st' e :
  c st = (st', Raise e) → bind c k st = (st', Raise e).
Proof. intros H. unfold bind. by rewrite H. Qed.

Lemma elem_note_now (st : wstate) (ev : event) : ev ∈ trace (note st ev).
Proof. unfold note. cbn [trace]. apply elem_of_app. right. by left. Qed.

Lemma elem_note_later (st : wstate) (ev ev' : event) :
  ev ∈ trace st → ev ∈ trace (note st ev').
Proof. intros H. unfold note. cbn [trace]. apply elem_of_app. by left. Qed.

End RuntimeFacts.

(** ** Strings: splitting on blank lines and joining *)

Module PyFacts.
Import Py.

Lemma append_cons (a : ascii) (s1 s2 : string) :
  String a s1 +:+ s2 = String a (s1 +:+ s2).
Proof. reflexivity. Qed.

Lemma append_nil (s : string) : EmptyString +:+ s = s.
Proof. reflexivity. Qed.

Lemma length_append (s1 s2 : string) :
  String.length (s1 +:+ s2) = String.length s1 + String.length s2.
Proof.
  induction s1 as [|a s1 IH]; [done |].
  rewrite append_cons. simpl. by rewrite IH.
Qed.

Lemma append_assoc (s1 s2 s3 : string) :
  (s1 +:+ s2) +:+ s3 = s1 +:+ (s2 +:+ s3).
Proof.
  induction s1 as [|a s1 IH]; [done |].
  rewrite !append_cons. by rewrite IH.
Qed.

Lemma push_nonempty (a : ascii) (ps : list string) : push a ps ≠ [].
Proof. by destruct ps. Qed.

Lemma split_blank_cons (a b : ascii) (rest : string) :
  split_blank (String a (String b rest))
  = if is_nl a && is_nl b then EmptyString :: split_blank rest
    else push a (split_blank (String b rest)).
Proof. reflexivity. Qed.

Lemma split_blank_nonempty (s : string) : split_blank s ≠ [].
Proof.
  destruct s as [|a [|b rest]]; try done.
  rewrite split_blank_cons.
  destruct (is_nl a && is_nl b); [done | apply push_nonempty].
Qed.

Lemma join_cons (sep p : string) (rest : list string) :
  rest ≠ [] → join sep (p :: rest) = p +:+ sep +:+ join sep rest.
Proof. by destruct rest. Qed.

Lemma join_push (sep : string) (a : ascii) (ps : list string) :
  ps ≠ [] → join sep (push a ps) = String a (join sep ps).
Proof. destruct ps as [|p [|q ps]]; simpl; done. Qed.

Lemma is_nl_true (a : ascii) : is_nl a = true → a = nl.
Proof. unfold is_nl. by intros ?%Ascii.eqb_eq. Qed.

Lemma join_split_blank_bounded (n : nat) :
  ∀ s, String.length s ≤ n → join blank (split_blank s) = s.
Proof.
  induction n as [|n IH]; intros s Hn.
  - destruct s; [done | simpl in Hn; lia].
  - destruct s as [|a [|b rest]]; try done.
    rewrite split_blank_cons.
    destruct (is_nl a && is_nl b) eqn:Hab.
    + apply andb_prop in Hab as [->%is_nl_true ->%is_nl_true].
      rewrite join_cons by apply split_blank_nonempty.
      rewrite IH; [done | simpl in Hn; lia].
    + rewrite join_push by apply split_blank_nonempty.
      rewrite IH; [done | simpl in *; lia].
Qed.

(** Joining the pieces of a split gives the text back. *)
Lemma join_split_blank (s : string) : join blank (split_blank s) = s.
Proof. by apply (join_split_blank_bounded (String.length s)). Qed.

Lemma join_app (sep : string) (l1 l2 : list string) :
  l1 ≠ [] → l2 ≠ [] →
  join sep (l1 ++ l2) = join sep l1 +:+ sep +:+ join sep l2.
Proof.
  intros H1 H2. induction l1 as [|p l1 IH]; [done |].
  destruct l1 as [|q l1].
  - simpl app. by rewrite join_cons.
  - change ((p :: q :: l1) ++ l2) with (p :: ((q :: l1) ++ l2)).
    rewrite join_cons by done. rewrite IH by done.
    rewrite (join_cons sep p (q :: l1)) by done.
    by rewrite !append_assoc.
Qed.

Lemma concat_nonempty {A} (g : list A) (gs : list (list A)) :
  g ≠ [] → concat (g :: gs) ≠ [].
Proof. destruct g; [done | by simpl]. Qed.

(** Joining groups that were joined one by one is joining all the pieces. *)
Lemma join_concat (sep : string) (gs : list (list string)) :
  Forall (λ g, g ≠ []) gs →
  join sep (map (join sep) gs) = join sep (concat gs).
Proof.
  induction 1 as [|g gs Hg Hgs IH]; [done |].
  destruct gs as [|g' gs].
  - simpl. by rewrite app_nil_r.
  - change (map (join sep) (g :: g' :: gs))
      with (join sep g :: map (join sep) (g' :: gs)).
    rewrite join_cons by done. rewrite IH.
    change (concat (g :: g' :: gs)) with (g ++ concat (g' :: gs)).
    rewrite join_app; [done | done |].
    apply concat_nonempty. by inversion Hgs.
Qed.

Lemma total_len_app (l1 l2 : list string) :
  total_len (l1 ++ l2) = total_len l1 + total_len l2.
Proof. unfold total_len. induction l1; simpl; lia. Qed.

(** The length of a join: the pieces, and one delimiter between two of them. *)
Lemma length_join_blank (g : list string) :
  String.length (join blank g) = total_len g + 2 * (length g - 1).
Proof.
  induction g as [|p g IH]; [done |].
  destruct g as [|q g].
  - simpl. unfold total_len. simpl. lia.
  - rewrite join_cons by done. rewrite !length_append, IH.
    unfold total_len. simpl. lia.
Qed.

End PyFacts.

(** ** The chunk splitter *)

Module SplitterFacts.
Import Py IngestWorker Paragraphs PyFacts.

Lemma content_page (n : nat) (c : string) : content (page n c) = c.
Proof. unfold content, page. by simplify_map_eq. Qed.

Lemma length_pages_of (base : nat) (gs : list (list string)) :
  length (pages_of base gs) = length gs.
Proof. revert base. induction gs; intros; simpl; [done | by rewrite IHgs]. Qed.

Lemma pages_of_snoc (base : nat) (gs : list (list string)) (g : list string) :
  pages_of base (gs ++ [g]) = pages_of base gs ++ [page (base + length gs) (join blank g)].
Proof.
  revert base. induction gs as [|g0 gs IH]; intros base; simpl.
  - by rewrite Nat.add_0_r.
  - rewrite IH. by rewrite Nat.add_succ_r.
Qed.

Lemma map_content_pages_of (base : nat) (gs : list (list string)) :
  map content (pages_of base gs) = map (join blank) gs.
Proof.
  revert base. induction gs as [|g gs IH]; intros base; simpl; [done |].
  by rewrite content_page, IH.
Qed.

Lemma sim_step st gst p : sim st gst → sim (loop_step st p) (g_step gst p).
Proof.
  intros (Hp & Hc & Hl). unfold loop_step, g_step. rewrite Hc, Hl.
  destruct (_ && _); split_and!; simpl; try done.
  unfold append_page. by rewrite Hp, pages_of_snoc, length_pages_of.
Qed.

Lemma sim_fold ps : ∀ st gst,
  sim st gst → sim (fold_left loop_step ps st) (fold_left g_step ps gst).
Proof. induction ps; intros; simpl; [done | by apply IHps, sim_step]. Qed.

(** The pages of a text are its paragraph groups, joined and numbered. *)
Lemma split_pages_of (text : string) :
  _split_text_into_pages text = pages_of 0 (paragraph_groups text).
Proof.
  unfold _split_text_into_pages, paragraph_groups, g_finish.
  destruct (sim_fold (split_blank text) loop_init g_init) as (Hp & Hc & Hl);
    [done |].
  cbv zeta. rewrite Hc.
  destruct (truthy _); [| done].
  unfold append_page. by rewrite Hp, pages_of_snoc, length_pages_of.
Qed.

Lemma ginv_step consumed st p :
  ginv consumed st → ginv (consumed ++ [p]) (g_step st p).
Proof.
  intros (Hc & Hg & Hl & Hb). unfold g_step.
  destruct (_ && _) eqn:Hcond; split_and!; simpl.
  - rewrite concat_app. simpl. rewrite app_nil_r. by rewrite Hc.
  - apply andb_prop in Hcond as [_ Hne].
    apply Forall_app; split; [done |]. constructor; [| done].
    split; [by destruct (g_current st) |].
    destruct Hb as [Hb | Hb]; [left | by right].
    destruct (g_current st) as [|? [|? ?]]; simpl in *; [done | done | lia].
  - unfold total_len. simpl. lia.
  - left. lia.
  - by rewrite app_assoc, Hc.
  - done.
  - rewrite total_len_app, Hl. unfold total_len. simpl. lia.
  - apply andb_false_iff in Hcond as [Hlt | Hemp].
    + right. apply Nat.ltb_ge in Hlt.
      rewrite total_len_app, <- Hl. unfold total_len. simpl. lia.
    + left. destruct (g_current st); [simpl; lia | done].
Qed.

Lemma ginv_fold ps : ∀ consumed st,
  ginv consumed st → ginv (consumed ++ ps) (fold_left g_step ps st).
Proof.
  induction ps as [|p ps IH]; intros consumed st H; simpl.
  - by rewrite app_nil_r.
  - replace (consumed ++ p :: ps) with ((consumed ++ [p]) ++ ps)
      by (by rewrite <- app_assoc).
    by apply IH, ginv_step.
Qed.

Lemma ginv_init : ginv [] g_init.
Proof. split_and!; simpl; try done. left. simpl. lia. Qed.

(** The groups of a text are its paragraphs, in order, cut into non-empty
    runs each of which is within the bound or a single paragraph. *)
Lemma paragraph_groups_spec (text : string) :
  concat (paragraph_groups text) = split_blank text
  ∧ Forall group_ok (paragraph_groups text).
Proof.
  unfold paragraph_groups, g_finish.
  destruct (ginv_fold (split_blank text) [] g_init ginv_init)
    as (Hc & Hg & Hl & Hb).
  simpl in Hc.
  destruct (g_current _) as [|p cur] eqn:Hcur; simpl.
  - rewrite app_nil_r in Hc. done.
  - split.
    + rewrite concat_app. simpl. by rewrite app_nil_r.
    + apply Forall_app; split; [done |]. constructor; [| done].
      split; [done |]. destruct Hb as [Hb | Hb]; [left | by right].
      destruct cur; simpl in *; [done | lia].
Qed.

End SplitterFacts.

Module SplitterClaims.
Import Py IngestWorker Paragraphs PyFacts SplitterFacts.

(** Every page is the join of its group and has the length of its
    paragraphs plus two characters per delimiter. *)
Lemma pages_groups_Forall2 (base : nat) (gs : list (list string)) :
  Forall group_ok gs →
  Forall2 (λ p g,
      g ≠ []
      ∧ content p = join blank g
      ∧ String.length (content p) = total_len g + 2 * (length g - 1)
      ∧ (length g = 1 ∨ total_len g ≤ max_page_length))
    (pages_of base gs) gs.
Proof.
  intros H. revert base.
  induction H as [|g gs [Hne Hb] _ IH]; intros base; simpl; constructor.
  - rewrite content_page. split_and!; try done. apply length_join_blank.
  - apply IH.
Qed.

(** C2 as the specification states it fails: the two paragraphs of
    [two_halves] fit the bound together (1000 + 1000), the page that holds
    both has 2002 characters. *)
Lemma C2_chunk_bound_counterexample : ¬ StatedSplitter.chunk_bound StatedSplitter.two_halves.
Proof.
  intros H.
  destruct (H (page 0 StatedSplitter.two_halves)) as [Hle | (para & Hsplit & _)].
  - replace (_split_text_into_pages StatedSplitter.two_halves)
      with [page 0 StatedSplitter.two_halves] by (vm_compute; reflexivity).
    apply list_elem_of_here.
  - rewrite content_page in Hle. vm_compute in Hle. lia.
  - rewrite content_page in Hsplit. vm_compute in Hsplit. discriminate.
Qed.

(** C2 (amended): the pages of a text are, in order, the joins of
    consecutive non-empty runs of its paragraphs; a run is a single
    paragraph, or the lengths of its paragraphs add up to at most
    [max_page_length]; the delimiters between the paragraphs of a run are
    not counted, so a page of [k] paragraphs has the length of its
    paragraphs plus [2 * (k - 1)]. *)
Theorem C2_chunk_bound (text : string) :
  ∃ gs : list (list string),
    concat gs = split_blank text
    ∧ Forall2 (λ p g,
          g ≠ []
          ∧ content p = join blank g
          ∧ String.length (content p) = total_len g + 2 * (length g - 1)
          ∧ (length g = 1 ∨ total_len g ≤ max_page_length))
        (_split_text_into_pages text) gs.
Proof.
  exists (paragraph_groups text).
  destruct (paragraph_groups_spec text) as [Hc Hg].
  split; [done |]. rewrite split_pages_of. by apply pages_groups_Forall2.
Qed.

(** C10: joining the contents of the pages with the paragraph delimiter
    gives the text back; the pages hold the paragraphs of the text, each
    paragraph in exactly one page, in the order of the text. *)
Theorem C10_split_join_roundtrip (text : string) :
  join blank (map content (_split_text_into_pages text)) = text
  ∧ ∃ gs : list (list string),
      concat gs = split_blank text
      ∧ Forall2 (λ p g, g ≠ [] ∧ content p = join blank g)
          (_split_text_into_pages text) gs.
Proof.
  destruct (paragraph_groups_spec text) as [Hc Hg].
  assert (Hne : Forall (λ g, g ≠ []) (paragraph_groups text)).
  { eapply Forall_impl; [exact Hg |]. by intros g [? _]. }
  split.
  - rewrite split_pages_of, map_content_pages_of, join_concat by done.
    rewrite Hc. apply join_split_blank.
  - exists (paragraph_groups text). split; [done |].
    rewrite split_pages_of.
    eapply Forall2_impl; [by apply pages_groups_Forall2 |].
    by intros p g (? & ? & _).
Qed.

End SplitterClaims.

(** ** Hybrid retrieval *)

Module RetrievalFacts.
Import Py Runtime Worker QAWorker Candidates.

Lemma py_eq_sym (a b : pyval) : py_eq a b = py_eq b a.
Proof.
  unfold py_eq. destruct (py_key a), (py_key b); try done.
  apply bool_decide_ext. split; by intros ->.
Qed.

(** Equal values are equal to the same values. *)
Lemma py_eq_left (a b c : pyval) : py_eq a b = true → py_eq a c = py_eq b c.
Proof.
  unfold py_eq. destruct (py_key a), (py_key b), (py_key c); try done.
  all: by intros ->%bool_decide_eq_true.
Qed.

Lemma same_id_sym (c c' : pydict) : same_id c c' = same_id c' c.
Proof. apply py_eq_sym. Qed.

Lemma same_id_left (c1 c2 c3 : pydict) :
  same_id c1 c2 = true → same_id c1 c3 = same_id c2 c3.
Proof. apply py_eq_left. Qed.

Lemma py_in_false (x : pyval) (s : list pyval) :
  py_in x s = false ↔ Forall (λ k, py_eq x k = false) s.
Proof.
  unfold py_in. induction s as [|k s IH]; simpl.
  - split; [constructor | done].
  - rewrite orb_false_iff, IH. split.
    + intros [? ?]. by constructor.
    + intros [? ?]%Forall_cons_1. done.
Qed.

Lemma py_in_true (x : pyval) (s : list pyval) :
  py_in x s = true ↔ Exists (λ k, py_eq x k = true) s.
Proof.
  unfold py_in. induction s as [|k s IH]; simpl.
  - split; [done | by intros ?%Exists_nil].
  - rewrite orb_true_iff, IH, Exists_cons. done.
Qed.

Lemma first_of_its_id_app (l extra : list pydict) (c : pydict) :
  first_of_its_id l c → first_of_its_id (l ++ extra) c.
Proof.
  intros (before & after & -> & H). exists before, (after ++ extra).
  split; [by rewrite <- app_assoc | done].
Qed.

Lemma represented_app (u extra : list pydict) (c : pydict) :
  represented u c → represented (u ++ extra) c.
Proof.
  intros [H | H]; [left | right].
  - apply elem_of_app. by left.
  - apply Exists_app. by left.
Qed.

Lemma distinct_ids_snoc (u : list pydict) (c : pydict) :
  distinct_ids u → Forall (λ c', same_id c' c = false) u →
  distinct_ids (u ++ [c]).
Proof.
  induction u as [|c0 u IH]; intros Hd Hc; simpl; [done |].
  destruct Hd as [H0 Hd]. apply Forall_cons_1 in Hc as [Hc0 Hc].
  split; [| by apply IH].
  apply Forall_app. split; [done | by constructor].
Qed.

Lemma distinct_ids_app_l (u1 u2 : list pydict) :
  distinct_ids (u1 ++ u2) → distinct_ids u1.
Proof.
  induction u1 as [|c u1 IH]; simpl; [done |].
  intros [H Hd]. split; [by apply Forall_app in H as [? _] | by apply IH].
Qed.

(** A candidate with the identity of one that is represented has none of
    its identity among the candidates kept, or is not new. *)
Lemma unseen_is_new (done_ u : list pydict) (c : pydict) :
  Forall (represented u) done_ →
  Forall (λ c', same_id c' c = false) u →
  Forall (λ c', same_id c' c = false) done_.
Proof.
  intros Hrep Hu. apply Forall_forall. intros c' Hc'.
  rewrite Forall_forall in Hrep, Hu.
  destruct (Hrep c' Hc') as [Hin | (c'' & Hin & Hsame)%Exists_exists];
    [by apply Hu |].
  rewrite (same_id_left _ _ _ Hsame). by apply Hu.
Qed.

Lemma dedup_inv_step done_ st c :
  dedup_inv done_ st → dedup_inv (done_ ++ [c]) (dedup_step st c).
Proof.
  intros (Hseen & Hsub & Hd & Hfirst & Hrep). unfold dedup_step.
  fold (chunk_id c). destruct (py_in (chunk_id c) (seen st)) eqn:Hin; cbn [negb].
  - apply py_in_true in Hin. rewrite Hseen in Hin.
    split; [done |]. split_and!.
    + by apply sublist_inserts_r.
    + done.
    + eapply Forall_impl; [exact Hfirst |]. intros c'.
      apply first_of_its_id_app.
    + apply Forall_app. split; [done |]. constructor; [| done].
      right. apply Exists_exists.
      apply Exists_exists in Hin as (k & (c' & <- & Hc')%list_elem_of_In%in_map_iff & Hk).
      exists c'. split; [by apply list_elem_of_In | done].
  - apply py_in_false in Hin. rewrite Hseen in Hin.
    assert (Forall (λ c', same_id c' c = false) (unique_results st)) as Hnew.
    { apply Forall_forall. intros c' Hc'. rewrite same_id_sym.
      rewrite Forall_forall in Hin. apply Hin.
      by apply list_elem_of_In, in_map, list_elem_of_In. }
    split; cbn [seen unique_results]; [by rewrite map_app, Hseen |].
    split_and!.
    + by apply sublist_app.
    + by apply distinct_ids_snoc.
    + apply Forall_app. split.
      * eapply Forall_impl; [exact Hfirst |]. intros c'.
        apply first_of_its_id_app.
      * constructor; [| done]. exists done_, []. split; [done |].
        by eapply unseen_is_new.
    + apply Forall_app. split.
      * eapply Forall_impl; [exact Hrep |]. intros c'. apply represented_app.
      * constructor; [| done]. left. apply elem_of_app. right.
        apply list_elem_of_here.
Qed.

Lemma dedup_inv_fold l : ∀ done_ st,
  dedup_inv done_ st → dedup_inv (done_ ++ l) (fold_left dedup_step l st).
Proof.
  induction l as [|c l IH]; intros done_ st H; simpl.
  - by rewrite app_nil_r.
  - replace (done_ ++ c :: l) with ((done_ ++ [c]) ++ l)
      by (by rewrite <- app_assoc).
    by apply IH, dedup_inv_step.
Qed.

(** [_combine_results] deduplicates the vector results followed by the
    lexical results, first occurrence kept. *)
Lemma combine_results_spec (v b : list pydict) :
  deduplicated (v ++ b) (_combine_results v b).
Proof.
  unfold _combine_results.
  destruct (dedup_inv_fold (v ++ b) [] (DedupState [] [])) as [_ H]; [| done].
  split; [done |]. split_and!; simpl; try done.
Qed.

(** The first candidate of an identity found by the vector pass is a
    vector-pass candidate. *)
Lemma first_in_vector (v b : list pydict) (c : pydict) :
  first_of_its_id (v ++ b) c →
  Exists (λ c', same_id c' c = true) v → c ∈ v.
Proof.
  intros (before & after & Heq & Hnone) (c' & Hc' & Hsame)%Exists_exists.
  apply app_eq_app in Heq as [l [[-> Hl] | [-> Hl]]].
  - destruct l as [|c0 l].
    + rewrite app_nil_r in Hc'. rewrite Forall_forall in Hnone.
      by rewrite (Hnone c' Hc') in Hsame.
    + injection Hl as <- _. apply elem_of_app. right. apply list_elem_of_here.
  - rewrite Forall_forall in Hnone.
    rewrite (Hnone c') in Hsame; [done |]. apply elem_of_app. by left.
Qed.

Lemma slice_to_nonneg {A} (l : list A) (n : Z) :
  (0 ≤ n)%Z → slice_to l n = take (Z.to_nat n) l.
Proof. intros H. unfold slice_to. by rewrite (proj2 (Z.leb_le 0 n)). Qed.

End RetrievalFacts.

Module RetrievalClaims.
Import Py Runtime Worker QAWorker Candidates RetrievalFacts.

(** When both passes answer, [retrieve_with] answers with the first
    [max_results] of the combined candidates. *)
Lemma retrieve_with_ok vs bs (job : QAJob.t) st st1 st' v b :
  vs (QAJob.query job) (QAJob.max_results job * 2)%Z st = (st1, Ok v) →
  bs (QAJob.query job) (QAJob.max_results job * 2)%Z st1 = (st', Ok b) →
  retrieve_with vs bs job st
  = (st', Ok (slice_to (_combine_results v b) (QAJob.max_results job))).
Proof.
  intros Hv Hb. unfold retrieve_with, try_except, bind, ret.
  by rewrite Hv, Hb.
Qed.



(** On the sample the candidate returned is the one of the vector pass,
    with its score, and [b] is cut off. *)
Example sample_retrieval :
  retrieve_with (λ _ _, ret [Samples.cand_a; Samples.cand_b])
                (λ _ _, ret [Samples.cand_a_lexical])
                Samples.qa_job Samples.empty_state
  = (Samples.empty_state, Ok [Samples.cand_a])
  ∧ _combine_results [Samples.cand_a; Samples.cand_b] [Samples.cand_a_lexical]
    = [Samples.cand_a; Samples.cand_b].
Proof. split; vm_compute; reflexivity. Qed.

(** Identities are compared as Python compares them: [1] and [1.0] are one
    identity, two [nan] are two. *)
Example numeric_identities :
  _combine_results [{[ "chunk_id" := PInt 1 ]}]
                   [{[ "chunk_id" := PFloat (Float "1.0") ]}]
  = [{[ "chunk_id" := PInt 1 ]}]
  ∧ _combine_results [{[ "chunk_id" := PFloat (Float "nan") ]}]
                     [{[ "chunk_id" := PFloat (Float "nan") ]}]
    = [{[ "chunk_id" := PFloat (Float "nan") ]};
       {[ "chunk_id" := PFloat (Float "nan") ]}].
Proof. split; vm_compute; reflexivity. Qed.

End RetrievalClaims.

(** ** Answers and citations *)

Module CitationFacts.
Import Py Runtime Worker QAWorker.

Lemma create_citations_from (chunks : list pydict) : ∀ acc,
  fold_left (λ citations chunk, citations ++ [citation chunk]) chunks acc
  = acc ++ map citation chunks.
Proof.
  induction chunks as [|c chunks IH]; intros acc; simpl.
  - by rewrite app_nil_r.
  - by rewrite IH, <- app_assoc.
Qed.

(** The loop of [_create_citations] makes the citation of every chunk, in
    the order of the chunks. *)
Lemma create_citations_map (chunks : list pydict) :
  _create_citations chunks = map citation chunks.
Proof. unfold _create_citations. by rewrite create_citations_from. Qed.

Lemma citation_fields (chunk : pydict) :
  citation chunk !! "document_id" = Some (get chunk "document_id")
  ∧ citation chunk !! "page_number" = Some (get_or chunk "page_number" (PInt 0))
  ∧ citation chunk !! "chunk_index" = Some (get_or chunk "chunk_index" (PInt 0))
  ∧ citation chunk !! "content" = Some (get_or chunk "content" (PStr EmptyString))
  ∧ citation chunk !! "score" = Some (get_or chunk "score" (PFloat (Float "0.0"))).
Proof. unfold citation. split_and!; by simplify_map_eq. Qed.

End CitationFacts.

Module CitationClaims.
Import Py Runtime Worker QAWorker CitationFacts.

(** C1 as the specification states it fails: two chunks were ranked, the
    answer cites [1] only, and the second chunk is cited all the same. *)
Lemma C1_citations_counterexample :
  ¬ StatedQA.citations_wellformed StatedQA.answer_citing_1
      [Samples.cand_a; Samples.cand_b].
Proof.
  intros H.
  destruct (H 1 (citation Samples.cand_b)) as (_ & _ & Hmarker); [done |].
  vm_compute in Hmarker. discriminate.
Qed.

End CitationClaims.

Module CitationAmended.
Import Py Runtime Worker QAWorker RuntimeFacts CitationFacts AmendedQA.


Lemma citations_copy (chunks : list pydict) :
  Forall2 copies chunks (_create_citations chunks).
Proof.
  rewrite create_citations_map.
  induction chunks; simpl; constructor; [apply citation_fields | done].
Qed.

(** C1 (amended): the citation list has one citation per ranked chunk, in
    rank order, each a copy of the fields of its chunk; whenever retrieval
    and generation succeed the job succeeds and the cached response pairs
    the answer with exactly these citations, whatever markers the answer
    contains. *)
Theorem C1_citations this retrieve (job : QAJob.t) st st1 st2 chunks answer :
  retrieve job (started this job st) = (st1, Ok chunks) →
  _generate_answer this (QAJob.query job) chunks (QAJob.temperature job) st1
    = (st2, Ok answer) →
  Forall2 copies chunks (_create_citations chunks)
  ∧ ∃ st', process_qa_job_with this retrieve job st = (st', Ok tt)
      ∧ RedisSetex ("qa_result:" +:+ job_id_at this st) 3600
          (response this answer chunks) ∈ trace st'.
Proof.
  intros Hr Hg. split; [apply citations_copy |].
  unfold process_qa_job_with.
  unfold time_time at 1, peek. unfold bind at 1.
  unfold bind at 1. fold (job_id_at this st).
  change (log_job_start name (job_id_at this st) "qa"
            [("query", PStr (QAJob.query job))] st)
    with (started this job st, Ok tt).
  unfold try_except at 1.
  rewrite (run_bind _ _ _ _ _ Hr).
  unfold _rerank_chunks. unfold bind at 1, ret at 1.
  rewrite (run_bind _ _ _ _ _ Hg).
  unfold _cache_result, try_except, call, bind, time_time, peek, log_job_success,
    logger_warning, record, call, incr_processed, ret.
  destruct (redis_setex this (trace st2) ("qa_result:" +:+ job_id_at this st))
    as [[]|e];
    (eexists; split; [reflexivity |]); cbn [trace].
  - apply elem_note_later, elem_note_now.
  - apply elem_note_later, elem_note_later, elem_note_now.
Qed.

(** C1 (amended) on the sample: two ranked chunks, an answer citing [1]. *)
Lemma C1_citations_witness :
  Forall2 copies [Samples.cand_a; Samples.cand_b]
    (_create_citations [Samples.cand_a; Samples.cand_b])
  ∧ ∃ st',
      process_qa_job_with StatedQA.qa_worker
        (λ _, ret [Samples.cand_a; Samples.cand_b])
        Samples.qa_job Samples.empty_state = (st', Ok tt)
      ∧ RedisSetex ("qa_result:" +:+ job_id_at StatedQA.qa_worker Samples.empty_state)
          3600
          (response StatedQA.qa_worker (PStr StatedQA.answer_citing_1)
             [Samples.cand_a; Samples.cand_b]) ∈ trace st'.
Proof.
  eapply (C1_citations StatedQA.qa_worker
            (λ _, ret [Samples.cand_a; Samples.cand_b])
            Samples.qa_job Samples.empty_state).
  - reflexivity.
  - reflexivity.
Defined.

End CitationAmended.

(** ** Embedding generation *)

Module EmbedFacts.
Import Py Runtime Loops Worker EmbedWorker RuntimeFacts AmendedEmbed.

Lemma embed_chunk_run this acc chunk st :
  match embed_chunk this acc chunk st with
  | (st', Ok r) =>
      ∃ v, accepted this chunk v ∧ r = acc ++ [v]
           ∧ st' = note st (request this chunk)
  | (st', Raise e) =>
      exc_type e = "Exception"
      ∧ (st' = st ∨ st' = note st (request this chunk))
  end.
Proof.
  unfold embed_chunk, try_except, bind, chunk_content, first_embedding,
    call, ret, raise, request, accepted, get.
  destruct (chunk !! "content") as [input|] eqn:Hc; simpl; [| by eauto].
  destruct (embeddings_create this (trace st) _ input) as [[|v rest]|e] eqn:Ho;
    simpl; eauto 10.
Qed.

(** The loop of [_generate_embeddings] from the list [acc]. *)
Lemma generate_from this chunks : ∀ acc st,
  match for_each chunks acc (embed_chunk this) st with
  | (st', Ok r) =>
      ∃ new, r = acc ++ new ∧ Forall2 (accepted this) chunks new
             ∧ trace st' = trace st ++ map (request this) chunks
  | (st', Raise e) =>
      exc_type e = "Exception"
      ∧ ∃ evs, trace st' = trace st ++ evs ∧ forallb is_request evs = true
  end.
Proof.
  induction chunks as [|chunk chunks IH]; intros acc st; simpl.
  - exists []. by rewrite !app_nil_r.
  - unfold bind. pose proof (embed_chunk_run this acc chunk st) as Hc.
    destruct (embed_chunk this acc chunk st) as [st1 [r|e]].
    + destruct Hc as (v & Hv & -> & ->).
      specialize (IH (acc ++ [v]) (note st (request this chunk))).
      destruct (for_each chunks _ _ _) as [st' [r|e]].
      * destruct IH as (new & -> & Hnew & Htr). exists (v :: new).
        split_and!; [by rewrite <- app_assoc | by constructor |].
        rewrite Htr. unfold note. cbn [trace]. by rewrite <- app_assoc.
      * destruct IH as (He & evs & Htr & Hevs). split; [done |].
        exists (request this chunk :: evs). split; [| done].
        rewrite Htr. unfold note. cbn [trace]. by rewrite <- app_assoc.
    + destruct Hc as (He & [-> | ->]); (split; [done |]).
      * exists []. by rewrite app_nil_r.
      * by exists [request this chunk].
Qed.

Lemma generate_run this chunks st :
  match _generate_embeddings this chunks st with
  | (st', Ok embeddings) =>
      Forall2 (accepted this) chunks embeddings
      ∧ trace st' = trace st ++ map (request this) chunks
  | (st', Raise e) =>
      exc_type e = "Exception"
      ∧ ∃ evs, trace st' = trace st ++ evs ∧ forallb is_request evs = true
  end.
Proof.
  unfold _generate_embeddings.
  pose proof (generate_from this chunks [] st) as H.
  destruct (for_each chunks [] _ st) as [st' [r|e]]; [| done].
  by destruct H as (new & -> & ? & ?).
Qed.

(** Whatever the vectors are, they are accepted as they come. *)
Lemma generate_answered this chunks : ∀ acc st vs,
  answered this st chunks vs →
  for_each chunks acc (embed_chunk this) st
  = (WState (trace st ++ map (request this) chunks)
       (processed_jobs st) (failed_jobs st), Ok (acc ++ vs)).
Proof.
  induction chunks as [|chunk chunks IH]; intros acc st [|v vs] H; try done.
  - cbn [for_each map]. rewrite !app_nil_r. by destruct st.
  - destruct H as (input & rest & Hc & Ho & H).
    cbn [for_each]. unfold bind at 1.
    unfold embed_chunk at 1, try_except, bind, chunk_content, first_embedding,
      call, ret.
    rewrite Hc, Ho.
    assert (request this chunk
            = EmbeddingsCreate (OPENAI_EMBEDDING_MODEL this) input) as Hreq.
    { unfold request, get. by rewrite Hc. }
    rewrite Hreq in H. rewrite (IH _ _ vs H).
    cbn [map]. rewrite Hreq. unfold note.
    cbn [trace processed_jobs failed_jobs].
    by rewrite <- !app_assoc.
Qed.

(** The vectors returned are those the provider answered with. *)
Lemma generate_from_answered this chunks : ∀ acc st st' r,
  for_each chunks acc (embed_chunk this) st = (st', Ok r) →
  ∃ vs, r = acc ++ vs ∧ answered this st chunks vs.
Proof.
  induction chunks as [|chunk chunks IH]; intros acc st st' r.
  - cbn [for_each]. unfold ret. intros [= <- <-]. exists []. by rewrite app_nil_r.
  - cbn [for_each]. unfold bind at 1.
    unfold embed_chunk at 1, try_except, bind, chunk_content, first_embedding,
      call, ret, raise.
    destruct (chunk !! "content") as [input|] eqn:Hc; [| done].
    destruct (embeddings_create this (trace st) _ input) as [[|v rest]|e] eqn:Ho;
      [done | | done].
    intros Hrun.
    assert (note st (EmbeddingsCreate (OPENAI_EMBEDDING_MODEL this) input)
            = note st (request this chunk)) as Hreq.
    { unfold request, get. by rewrite Hc. }
    rewrite Hreq in Hrun.
    destruct (IH _ _ _ _ Hrun) as (vs & -> & Hvs).
    exists (v :: vs). split; [by rewrite <- app_assoc |].
    exists input, rest. done.
Qed.

End EmbedFacts.

Module EmbedClaims.
Import Py Runtime Loops Worker EmbedWorker RuntimeFacts AmendedEmbed EmbedFacts.

(** C5 as the specification states it fails, whatever the configured
    dimension: the provider answers with an all-zero vector and the
    generator accepts it. *)
Lemma C5_embedding_validation_counterexample :
  ¬ ∃ dimension,
      StatedEmbed.embeddings_validated dimension StatedEmbed.zero_worker
        [StatedEmbed.hello_chunk] Samples.empty_state.
Proof.
  intros (dimension & H).
  specialize (H _ _ eq_refl). apply Forall_cons_1 in H as [H _].
  unfold StatedEmbed.valid_embedding in H. destruct (bool_decide _); simpl in H; discriminate.
Qed.

(** Nor is the all-zero vector asked for again: the run makes a single
    request. *)
Lemma zero_vector_not_retried st' embeddings :
  _generate_embeddings StatedEmbed.zero_worker [StatedEmbed.hello_chunk]
    Samples.empty_state = (st', Ok embeddings) →
  ¬ StatedEmbed.retried StatedEmbed.zero_worker StatedEmbed.hello_chunk
      Samples.empty_state st'.
Proof.
  intros Hrun (before & between & after & Htr).
  vm_compute in Hrun. injection Hrun as <- <-. cbn in Htr.
  apply (f_equal length) in Htr.
  rewrite !length_app in Htr. simpl in Htr. rewrite !length_app in Htr.
  simpl in Htr. lia.
Qed.

(** C5 (amended): the generator makes one request per chunk, in order,
    and accepts the first vector of each answer as it comes, whatever its
    components and its length are: when the provider answers every request
    with at least one vector the generation succeeds with exactly these
    vectors, and a generation that succeeds returns them; no vector is
    examined, rejected or asked for again.  A generation that raises
    raises an [Exception] after requests only. *)
Theorem C5_embedding_acceptance this chunks st :
  match _generate_embeddings this chunks st with
  | (st', Ok embeddings) =>
      Forall2 (accepted this) chunks embeddings
      ∧ answered this st chunks embeddings
      ∧ trace st' = trace st ++ map (request this) chunks
  | (st', Raise e) =>
      exc_type e = "Exception"
      ∧ ∃ requests, trace st' = trace st ++ requests
                    ∧ forallb is_request requests = true
  end
  ∧ ∀ vs,
      answered this st chunks vs →
      _generate_embeddings this chunks st
      = (WState (trace st ++ map (request this) chunks)
           (processed_jobs st) (failed_jobs st), Ok vs).
Proof.
  split.
  - pose proof (generate_run this chunks st) as H.
    unfold _generate_embeddings in *.
    destruct (for_each chunks [] (embed_chunk this) st) as [st' [r|e]] eqn:Hrun;
      [| done].
    destruct H as [Hacc Htr]. split_and!; [done | | done].
    by destruct (generate_from_answered this chunks [] st st' r Hrun)
      as (vs & -> & Hvs).
  - intros vs Hvs. apply (generate_answered this chunks [] st vs Hvs).
Qed.

(** C5 (amended) on the sample: the all-zero vector is accepted after one
    request. *)
Lemma C5_embedding_acceptance_witness :
  _generate_embeddings StatedEmbed.zero_worker [StatedEmbed.hello_chunk]
    Samples.empty_state
  = (WState [request StatedEmbed.zero_worker StatedEmbed.hello_chunk] 0 0,
     Ok [[Float "0.0"; Float "0.0"; Float "0.0"]]).
Proof.
  apply (proj2 (C5_embedding_acceptance StatedEmbed.zero_worker
                  [StatedEmbed.hello_chunk] Samples.empty_state)).
  exists (PStr "Hello World"), []. split_and!; reflexivity.
Defined.

End EmbedClaims.

Module EmbedJobClaims.
Import Py Runtime Loops Worker EmbedWorker RuntimeFacts AmendedEmbed EmbedFacts.

Lemma requests_set_no_status (status : string) (evs : list event) :
  forallb is_request evs = true → existsb (sets_status status) evs = false.
Proof.
  induction evs as [|ev evs IH]; simpl; [done |].
  intros [Hev Hevs]%andb_prop. rewrite IH by done. by destruct ev.
Qed.

(** C3: a run of an embed job either succeeds, and then it has made one
    request per chunk, handed one accepted vector per chunk to
    [_store_embeddings] and only then set the status [embedded]; or it
    raises, and then the only thing it did besides requests is to set
    the status [failed] with the error: no call of that run sets
    [embedded]. *)
Theorem C3_embedded_after_all_chunks this (job : EmbedJob.t) st :
  let doc := EmbedJob.document_id job in
  let chunks := EmbedJob.chunks job in
  match _process_embed_job this job st with
  | (st', Ok _) =>
      ∃ embeddings completed,
        Forall2 (accepted this) chunks embeddings
        ∧ trace st'
          = trace (started job st) ++ map (request this) chunks
            ++ [StoreEmbeddings doc chunks embeddings;
                UpdateDocumentStatus doc "embedded" None;
                completed]
        ∧ sets_status "failed" completed = false
  | (st', Raise e) =>
      ∃ requests,
        trace st'
        = trace (started job st) ++ requests
          ++ [UpdateDocumentStatus doc "failed"
                (Some {[ "error" := PStr (exc_str e) ]})]
        ∧ existsb (sets_status "embedded")
            (requests ++ [UpdateDocumentStatus doc "failed"
                            (Some {[ "error" := PStr (exc_str e) ]})]) = false
  end.
Proof.
  intros doc chunks. unfold _process_embed_job.
  unfold time_time at 1, peek. unfold bind at 1. unfold bind at 1.
  change (log_job_start name (EmbedJob.document_id job) "embed"
            [("document_id", PStr (EmbedJob.document_id job))] st)
    with (started job st, Ok tt).
  unfold try_except at 1. unfold bind at 1.
  pose proof (generate_run this chunks (started job st)) as Hg.
  fold chunks doc.
  destruct (_generate_embeddings this chunks (started job st)) as [st1 [embs|e]].
  - destruct Hg as [Hacc Htr].
    unfold _store_embeddings, _update_document_status, record, call, bind,
      time_time, peek, log_job_success, record, call, incr_processed.
    cbn [trace note]. eexists embs, _. split_and!; [done | | ].
    + rewrite Htr, <- !app_assoc. cbn [app]. reflexivity.
    + reflexivity.
  - destruct Hg as (_ & evs & Htr & Hevs).
    unfold _update_document_status, record, call, bind, raise.
    cbn [trace note]. exists evs. split.
    + rewrite Htr. by rewrite <- !app_assoc.
    + rewrite existsb_app, requests_set_no_status by done. done.
Qed.

End EmbedJobClaims.

(** ** The ingest job *)

Module IngestFacts.
Import Py Runtime Loops Worker IngestWorker RuntimeFacts SplitterFacts AmendedIngest.

(** [st'] is reached from [st] by calls none of which publishes. *)
Abbreviation quietly st st' := (adds st st' []).

Lemma published_app (evs1 evs2 : list event) :
  published (evs1 ++ evs2) = published evs1 ++ published evs2.
Proof.
  induction evs1 as [|ev evs1 IH]; [done |].
  destruct ev; simpl; by rewrite ?IH.
Qed.

Lemma quietly_refl st : quietly st st.
Proof. exists []. by rewrite app_nil_r. Qed.

Lemma adds_trans st1 st2 st3 l1 l2 :
  adds st1 st2 l1 → adds st2 st3 l2 → adds st1 st3 (l1 ++ l2).
Proof.
  intros (evs1 & H1 & Q1) (evs2 & H2 & Q2). exists (evs1 ++ evs2).
  rewrite H2, H1, <- app_assoc, published_app, Q1, Q2. done.
Qed.

Lemma quietly_trans st1 st2 st3 :
  quietly st1 st2 → quietly st2 st3 → quietly st1 st3.
Proof. apply (adds_trans st1 st2 st3 [] []). Qed.

Lemma quietly_note st ev : published [ev] = [] → quietly st (note st ev).
Proof. intros H. by exists [ev]. Qed.

Lemma adds_quietly_l st1 st2 st3 l :
  quietly st1 st2 → adds st2 st3 l → adds st1 st3 l.
Proof. apply (adds_trans st1 st2 st3 [] l). Qed.

Lemma adds_quietly_r st1 st2 st3 l :
  adds st1 st2 l → quietly st2 st3 → adds st1 st3 l.
Proof. intros H1 H2. rewrite <- (app_nil_r l). by eapply adds_trans. Qed.

Lemma download_run this file_path st :
  ∃ r, _download_file this file_path st = (note st (S3Download file_path), r).
Proof.
  unfold _download_file, try_except, call, raise.
  destruct (s3_download_file this (trace st) file_path) as [p|e]; [by eauto |].
  destruct (bool_decide _); eauto.
Qed.

(** A step that ends after one call that is not a publication. *)
Ltac one_quiet_call :=
  eexists _, _; split; [reflexivity | by apply quietly_note].

Lemma virus_scan_run this path st :
  ∃ st' r, _virus_scan this path st = (st', r) ∧ quietly st st'.
Proof.
  unfold _virus_scan, logger_warning, record, try_except, bind, call, raise, ret.
  destruct (clamav_client this) as [scan|]; [| one_quiet_call].
  destruct (scan (trace st) path) as [[reply|]|e]; try one_quiet_call.
  destruct (bool_decide (reply = ∅)); [one_quiet_call |].
  destruct (reply !! path) as [[status found]|]; [| one_quiet_call].
  destruct (bool_decide (status = "FOUND")); one_quiet_call.
Qed.

Lemma metadata_run this path mime st :
  ∃ st' metadata,
    _get_file_metadata this path mime st = (st', Ok metadata) ∧ quietly st st'.
Proof.
  unfold _get_file_metadata, logger_warning, record, try_except, bind, call, ret.
  destruct (bool_decide (mime = "application/pdf"));
    [| eexists _, _; split; [reflexivity | apply quietly_refl]].
  destruct (fitz_page_count this (trace st) path) as [n|e].
  - cbn [trace note].
    destruct (os_path_getsize this _ path) as [size|e].
    + destruct (fitz_close this _ path) as [[]|e];
        (eexists _, _; split; [reflexivity |]);
        repeat first [by apply quietly_note
                     | eapply quietly_trans; [| by apply quietly_note]].
    + eexists _, _; split; [reflexivity |].
      eapply quietly_trans; [| by apply quietly_note].
      eapply quietly_trans; by apply quietly_note.
  - eexists _, _; split; [reflexivity |].
    eapply quietly_trans; by apply quietly_note.
Qed.

Lemma ocr_run reader path st :
  ∃ st' r, _extract_text_with_ocr reader path st = (st', r) ∧ quietly st st'
    ∧ ∀ text, r = Ok text →
        ∃ results, reader (trace st) path = Ok results
                   ∧ text = join blank (map (join " ") results).
Proof.
  unfold _extract_text_with_ocr, try_except, bind, call, raise, ret.
  destruct (reader (trace st) path) as [results|e] eqn:Hr;
    (eexists _, _; split_and!; [reflexivity | by apply quietly_note |]).
  - intros text [= <-]. by exists results.
  - by intros text.
Qed.

Lemma extract_run this path mime st :
  ∃ st' r, _extract_text this path mime st = (st', r) ∧ quietly st st'
    ∧ ∀ pages, r = Ok pages →
        ∃ text, extracted this text ∧ pages = _split_text_into_pages text.
Proof.
  unfold _extract_text.
  destruct (negb (bool_decide (mime = "application/pdf"))).
  { eexists _, _. split_and!; [reflexivity | apply quietly_refl | done]. }
  unfold try_except at 1. unfold bind at 1. unfold call at 1.
  destruct (extract_text this (trace st) path) as [text|e] eqn:Ht.
  2:{ eexists _, _. split_and!; [reflexivity | by apply quietly_note | done]. }
  unfold bind at 1.
  destruct (negb (str_truthy (strip text))) eqn:Hblank.
  - apply negb_true_iff in Hblank.
    destruct (ENABLE_OCR this), (ocr_reader this) as [reader|] eqn:Hreader;
      try (eexists _, _;
           split_and!; [reflexivity | by apply quietly_note | done]).
    destruct (ocr_run reader path (note st (PdfExtract path)))
      as (st' & r & Hrun & Hq & Hx).
    rewrite Hrun. destruct r as [ocr_text|e].
    + eexists _, _. split_and!; [reflexivity | |].
      * eapply quietly_trans; [| exact Hq]. by apply quietly_note.
      * intros pages [= <-]. exists ocr_text. split; [| done].
        destruct (Hx ocr_text eq_refl) as (results & Hres & ->).
        right. by eexists (trace st), path, text, reader, _, path, results.
    + eexists _, _. split_and!; [reflexivity | | done].
      eapply quietly_trans; [| exact Hq]. by apply quietly_note.
  - eexists _, _. split_and!; [reflexivity | by apply quietly_note |].
    intros pages [= <-]. exists text. split; [| done].
    left. exists (trace st), path. split; [done |].
    by apply negb_false_iff in Hblank.
Qed.

End IngestFacts.

Module IngestJobFacts.
Import Py Runtime Loops Worker IngestWorker RuntimeFacts SplitterFacts
  AmendedIngest IngestFacts.

Lemma publish_run this doc chunks st :
  ∃ st' r, _publish_embed_job this doc chunks st = (st', r) ∧ adds st st' [chunks].
Proof.
  unfold _publish_embed_job, try_except, bind, time_time, peek, call,
    logger_error, record, call, raise.
  destruct (nats_publish (nats this) (trace st) "jobs.embed") as [[]|e];
    (eexists _, _; split; [reflexivity |]).
  - by eexists [_].
  - eexists [_; _]. cbn [trace note]. by rewrite <- app_assoc.
Qed.

(** The [except] clause of [_process_ingest_job]. *)
Lemma failed_run doc e st :
  (do _ <- _update_document_status doc "failed" {[ "error" := PStr (exc_str e) ]};
   @raise unit e)%worker st
  = (note st (UpdateDocumentStatus doc "failed"
                (Some {[ "error" := PStr (exc_str e) ]})), Raise e).
Proof. reflexivity. Qed.

(** What a run of an ingest job publishes: on success one embed job, with
    the pages of the extracted text; on failure nothing, or that same
    embed job when the failure came after it was sent. *)
Lemma ingest_run this (job : IngestJob.t) st :
  ∃ st' r lists,
    _process_ingest_job this job st = (st', r) ∧ adds st st' lists
    ∧ match r with
      | Ok _ => ∃ text, extracted this text
                        ∧ lists = [_split_text_into_pages text]
      | Raise _ => lists = []
                   ∨ ∃ text, extracted this text
                             ∧ lists = [_split_text_into_pages text]
      end.
Proof.
  unfold _process_ingest_job.
  unfold time_time at 1, peek. unfold bind at 1. unfold bind at 1.
  change (log_job_start name (IngestJob.document_id job) "ingest"
            [("document_id", PStr (IngestJob.document_id job))] st)
    with (started job st, Ok tt).
  assert (Q0 : quietly st (started job st)) by by apply quietly_note.
  unfold try_except at 1.
  (* download *)
  unfold bind at 1.
  destruct (download_run this (IngestJob.file_path job) (started job st)) as [r1 H1].
  rewrite H1.
  assert (Q1 : quietly st (note (started job st) (S3Download (IngestJob.file_path job)))).
  { eapply quietly_trans; [exact Q0 | by apply quietly_note]. }
  destruct r1 as [local|e].
  2:{ rewrite failed_run. eexists _, _, []. split_and!; [reflexivity | | by left].
      eapply quietly_trans; [exact Q1 | by apply quietly_note]. }
  (* virus scan *)
  unfold bind at 1.
  destruct (virus_scan_run this local
              (note (started job st) (S3Download (IngestJob.file_path job))))
    as (s2 & r2 & H2 & Q2').
  rewrite H2. pose proof (quietly_trans _ _ _ Q1 Q2') as Q2.
  destruct r2 as [[]|e].
  2:{ rewrite failed_run. eexists _, _, []. split_and!; [reflexivity | | by left].
      eapply quietly_trans; [exact Q2 | by apply quietly_note]. }
  (* metadata *)
  unfold bind at 1.
  destruct (metadata_run this local (IngestJob.mime_type job) s2)
    as (s3 & metadata & H3 & Q3').
  rewrite H3. pose proof (quietly_trans _ _ _ Q2 Q3') as Q3.
  (* text *)
  unfold bind at 1.
  destruct (extract_run this local (IngestJob.mime_type job) s3)
    as (s4 & r4 & H4 & Q4' & Hx).
  rewrite H4. pose proof (quietly_trans _ _ _ Q3 Q4') as Q4.
  destruct r4 as [pages|e].
  2:{ rewrite failed_run. eexists _, _, []. split_and!; [reflexivity | | by left].
      eapply quietly_trans; [exact Q4 | by apply quietly_note]. }
  destruct (Hx pages eq_refl) as (text & Htext & ->).
  (* status, publish *)
  unfold bind at 1. unfold _update_document_status at 1, record, call.
  unfold bind at 1.
  destruct (publish_run this (IngestJob.document_id job) (_split_text_into_pages text)
              (note s4 (UpdateDocumentStatus (IngestJob.document_id job) "ingested"
                          (Some metadata))))
    as (s5 & r5 & H5 & P5').
  rewrite H5.
  assert (P5 : adds st s5 [_split_text_into_pages text]).
  { eapply adds_quietly_l; [| exact P5'].
    eapply quietly_trans; [exact Q4 | by apply quietly_note]. }
  destruct r5 as [[]|e].
  2:{ rewrite failed_run. eexists _, _, _. split_and!; [reflexivity | | right; eauto].
      eapply adds_quietly_r; [exact P5 | by apply quietly_note]. }
  (* cleanup *)
  unfold bind at 1.
  assert (P6 : adds st (note s5 (Unlink local)) [_split_text_into_pages text]).
  { eapply adds_quietly_r; [exact P5 | by apply quietly_note]. }
  destruct (os_unlink this (trace s5) local) as [[]|e].
  2:{ rewrite failed_run. eexists _, _, _. split_and!; [reflexivity | | right; eauto].
      eapply adds_quietly_r; [exact P6 | by apply quietly_note]. }
  unfold bind, time_time, peek, log_job_success, record, call, incr_processed.
  eexists _, _, [_split_text_into_pages text].
  split_and!; [reflexivity | | by exists text].
  destruct P6 as (evs & Htr & Hp). eexists (evs ++ [_]). cbn [trace note] in *.
  split.
  - rewrite Htr, <- app_assoc. reflexivity.
  - by rewrite published_app, Hp.
Qed.

End IngestJobFacts.

Module IngestClaims.
Import Py Runtime Loops Worker IngestWorker Paragraphs RuntimeFacts SplitterFacts
  AmendedIngest IngestFacts IngestJobFacts.

Lemma pages_of_page_number (gs : list (list string)) : ∀ base i p,
  pages_of base gs !! i = Some p →
  p !! "page_number" = Some (PInt (Z.of_nat (base + i))).
Proof.
  induction gs as [|g gs IH]; intros base i p; [done |].
  destruct i as [|i]; simpl.
  - intros [= <-]. rewrite Nat.add_0_r. unfold page. by simplify_map_eq.
  - intros H. rewrite Nat.add_succ_r. by apply (IH (S base)).
Qed.

(** Under [same_source] there is one text that extraction can obtain. *)
Lemma extracted_unique this text1 text2 :
  same_source this → extracted this text1 → extracted this text2 → text1 = text2.
Proof.
  intros [Hpdf Hocr] H1 H2.
  destruct H1 as [(h1 & p1 & E1 & T1) | (h1 & p1 & b1 & r1 & g1 & q1 & res1 & E1 & B1 & R1 & O1 & ->)],
           H2 as [(h2 & p2 & E2 & T2) | (h2 & p2 & b2 & r2 & g2 & q2 & res2 & E2 & B2 & R2 & O2 & ->)].
  - by eapply Hpdf.
  - rewrite (Hpdf _ _ _ _ _ _ E1 E2) in T1. congruence.
  - rewrite (Hpdf _ _ _ _ _ _ E1 E2) in B1. congruence.
  - rewrite R1 in R2. injection R2 as ->.
    by rewrite (Hocr _ _ _ _ _ _ _ R1 O1 O2).
Qed.




End IngestClaims.

Module VirusScanClaims.
Import Py Runtime Loops Worker IngestWorker RuntimeFacts AmendedIngest.

(** C6 as the specification states it fails: the job of the worker whose
    scanner reports a threat and the job of the worker whose scanner cannot
    be reached both end with an exception of the class [Exception]. *)
Lemma C6_virus_kind_counterexample :
  ¬ StatedIngest.virus_kind_dedicated StatedIngest.infected_worker
      StatedIngest.cut_off_worker StatedIngest.pdf_job Samples.empty_state.
Proof.
  intros H.
  eapply (H _ _ (threat_error (PStr "Eicar-Test-Signature"))
            (Exception "Virus scan failed: Connection refused")).
  - vm_compute. reflexivity.
  - vm_compute. reflexivity.
  - reflexivity.
Qed.

(** A scanner that was reachable at start-up and is not when the file is
    scanned fails the job. *)
Lemma unreachable_at_scan_fails_job :
  ¬ StatedIngest.scan_best_effort StatedIngest.cut_off_worker
      StatedIngest.pdf_job Samples.empty_state.
Proof. intros [st' H]. vm_compute in H. discriminate. Qed.

Lemma reply_not_empty {V} (reply : gmap string V) (path : string) (v : V) :
  reply !! path = Some v → reply ≠ ∅.
Proof. intros H ->. by rewrite lookup_empty in H. Qed.

(** C6 (amended): without a scanner client (the connection made at
    start-up failed) the scan step logs a warning and does nothing else;
    when the scanner reports a threat in the downloaded file, the job ends
    with the exception [Exception("Virus scan failed: Virus detected:
    <name>")] after a single further call that sets the status [failed]
    with that message: nothing is extracted and no embed job is
    published.  The threat has no error class of its own: whatever the
    scan step raises is an [Exception] whose message starts with
    [Virus scan failed: ], and a scanner that fails when it is asked to
    scan yields [Exception("Virus scan failed: <cause>")]. *)
Theorem C6_virus_scan this :
  (clamav_client this = None →
   ∀ path st,
     _virus_scan this path st
     = (note st (Log "warning" "ClamAV not available, skipping virus scan" []),
        Ok tt))
  ∧ (∀ (job : IngestJob.t) st local scan reply found,
       s3_download_file this (trace (started job st)) (IngestJob.file_path job)
         = Ok local →
       clamav_client this = Some scan →
       scan (trace (note (started job st) (S3Download (IngestJob.file_path job))))
            local = Ok (Some reply) →
       reply !! local = Some ("FOUND", found) →
       _process_ingest_job this job st
       = (note (note (note (started job st)
                        (S3Download (IngestJob.file_path job)))
                  (ClamScan local))
            (UpdateDocumentStatus (IngestJob.document_id job) "failed"
               (Some {[ "error" := PStr (exc_str (threat_error found)) ]})),
          Raise (threat_error found)))
  ∧ (∀ path st,
       match _virus_scan this path st with
       | (_, Ok _) => True
       | (_, Raise e) =>
           ∃ cause, e = Exception ("Virus scan failed: " +:+ cause)
       end)
  ∧ (∀ path st scan cause,
       clamav_client this = Some scan →
       scan (trace st) path = Raise cause →
       _virus_scan this path st
       = (note st (ClamScan path),
          Raise (Exception ("Virus scan failed: " +:+ exc_str cause)))).
Proof.
  split_and!.
  - intros Hnone path st. unfold _virus_scan. by rewrite Hnone.
  - intros job st local scan reply found Hdl Hclient Hscan Hfound.
    unfold _process_ingest_job.
    unfold time_time at 1, peek. unfold bind at 1. unfold bind at 1.
    change (log_job_start name (IngestJob.document_id job) "ingest"
              [("document_id", PStr (IngestJob.document_id job))] st)
      with (started job st, Ok tt).
    unfold try_except at 1. unfold bind at 1.
    unfold _download_file, try_except at 1, call at 1. rewrite Hdl.
    unfold bind at 1. unfold _virus_scan. rewrite Hclient.
    unfold try_except at 1. unfold bind at 1. unfold call at 1. rewrite Hscan.
    rewrite (bool_decide_eq_false_2 _ (reply_not_empty _ _ _ Hfound)).
    rewrite Hfound. reflexivity.
  - intros path st.
    unfold _virus_scan, logger_warning, record, try_except, bind, call, raise, ret.
    destruct (clamav_client this) as [scan|]; [| done].
    destruct (scan (trace st) path) as [[reply|]|e]; try done; [| by eexists].
    destruct (bool_decide (reply = ∅)); [done |].
    destruct (reply !! path) as [[status found]|]; [| by eexists].
    destruct (bool_decide (status = "FOUND")); [by eexists | done].
  - intros path st scan cause Hclient Hscan.
    unfold _virus_scan. rewrite Hclient.
    unfold try_except, bind, call, raise. by rewrite Hscan.
Qed.

(** C6 (amended) on the samples: a worker without scanner client, the
    worker whose scanner finds the test virus, and the worker whose
    scanner cannot be reached when it is asked to scan. *)
Lemma C6_virus_scan_witness :
  _virus_scan (StatedIngest.worker_with None []) "/tmp/tmp1.pdf" Samples.empty_state
  = (note Samples.empty_state
       (Log "warning" "ClamAV not available, skipping virus scan" []), Ok tt)
  ∧ (∃ st', _process_ingest_job StatedIngest.infected_worker StatedIngest.pdf_job
              Samples.empty_state
            = (st', Raise (threat_error (PStr "Eicar-Test-Signature")))
            ∧ published (trace st') = [])
  ∧ _virus_scan StatedIngest.cut_off_worker "/tmp/tmp1.pdf" Samples.empty_state
    = (note Samples.empty_state (ClamScan "/tmp/tmp1.pdf"),
       Raise (Exception "Virus scan failed: Connection refused")).
Proof.
  split_and!.
  - apply (proj1 (C6_virus_scan (StatedIngest.worker_with None []))). reflexivity.
  - eexists. split.
    + apply (proj1 (proj2 (C6_virus_scan StatedIngest.infected_worker))
               StatedIngest.pdf_job Samples.empty_state "/tmp/tmp1.pdf"
               StatedIngest.alarmed_scanner
               {[ "/tmp/tmp1.pdf" := ("FOUND", PStr "Eicar-Test-Signature") ]}).
      * reflexivity.
      * reflexivity.
      * reflexivity.
      * reflexivity.
    + reflexivity.
  - apply (proj2 (proj2 (proj2 (C6_virus_scan StatedIngest.cut_off_worker)))
             "/tmp/tmp1.pdf" Samples.empty_state
             StatedIngest.unreachable_scanner
             (Exn "ConnectionError" "Connection refused")).
    + reflexivity.
    + reflexivity.
Defined.

End VirusScanClaims.

(** ** The consume-process-ack loop *)

Module LoopFacts.
Import Py Runtime Loops Worker RuntimeFacts StatedRuntime.

Section Loop.
Context {J : Type}.
Variable b : bus.
Variable worker_name subject : string.
Variable parse_raw : string → result J.
Variable job_attr : J → string.
Variable handler : J → M unit.

(** Nothing is raised out of [_process_jobs]. *)
Lemma process_jobs_returns st :
  ∃ st', process_jobs b worker_name subject parse_raw job_attr handler st
         = (st', Ok tt).
Proof.
  unfold process_jobs, try_except, logger_error, record.
  destruct (bind _ _ st) as [st' [[]|e]]; eauto.
Qed.

(** A job that was parsed and whose handler raises is logged, counted
    and rejected. *)
Lemma failed_job_rejected prev msg job st st1 e :
  decode_job b parse_raw msg = Ok job →
  handler job st = (st1, Raise e) →
  ∃ r, on_message b worker_name parse_raw job_attr handler prev msg st
       = (note (counted (note st1 (job_failed worker_name (job_attr job) e)))
               (Nak msg), r).
Proof.
  intros Hd Hh. unfold on_message. rewrite Hd.
  unfold try_except. rewrite (run_bind_raise _ _ _ _ _ Hh).
  unfold on_exception, bind, ret, log_job_error, record, call, incr_failed.
  cbn [trace note processed_jobs failed_jobs].
  destruct (msg_nak b _ msg) as [[]|e']; eauto.
Qed.

(** A job that was parsed and handled is acknowledged, and not rejected
    unless the acknowledgement itself fails. *)
Lemma handled_job_acked prev msg job st st1 :
  decode_job b parse_raw msg = Ok job →
  handler job st = (st1, Ok tt) →
  msg_ack b (trace st1) msg = Ok tt →
  on_message b worker_name parse_raw job_attr handler prev msg st
  = (note st1 (Ack msg), Ok (Some job)).
Proof.
  intros Hd Hh Ha. unfold on_message. rewrite Hd.
  unfold try_except. rewrite (run_bind _ _ _ _ _ Hh).
  unfold bind, call, ret. by rewrite Ha.
Qed.

(** A message that cannot be parsed while [job] is unbound is neither
    acknowledged nor rejected, and ends the loop. *)
Lemma unparsed_first_message_dropped msg msgs st e :
  nats_subscribe b (trace st) subject = Ok (msg :: msgs) →
  decode_job b parse_raw msg = Raise e →
  process_jobs b worker_name subject parse_raw job_attr handler st
  = (note (note st (Subscribe subject)) (loop_error unbound_job), Ok tt).
Proof.
  intros Hs Hd.
  unfold process_jobs, try_except, bind, call.
  rewrite Hs. cbn [for_each]. unfold bind, on_message. rewrite Hd.
  reflexivity.
Qed.
End Loop.

End LoopFacts.

Module LoopClaims.
Import Py Runtime Loops Worker RuntimeFacts StatedRuntime LoopFacts.

(** C7 fails on the code: the first message delivered to the ingest worker
    does not parse; the [except] clause reads [job.document_id] while [job]
    is unbound, the resulting [UnboundLocalError] leaves the loop, and the
    run ends having neither acknowledged nor rejected the message (nor
    counted the failure, nor looked at the message behind it). *)
Theorem C7_unparsed_first_message_not_rejected :
  IngestWorker._process_jobs bad_first_worker Samples.empty_state
  = (WState [Subscribe "jobs.ingest"; loop_error unbound_job] 0 0, Ok tt)
  ∧ (Nak bad_message ∉ [Subscribe "jobs.ingest"; loop_error unbound_job])
  ∧ (Ack bad_message ∉ [Subscribe "jobs.ingest"; loop_error unbound_job]).
Proof.
  split_and!.
  - exact (unparsed_first_message_dropped
             (IngestWorker.nats bad_first_worker) IngestWorker.name "jobs.ingest"
             (IngestWorker.parse_raw bad_first_worker) IngestJob.document_id
             (IngestWorker._process_ingest_job bad_first_worker)
             bad_message [good_message] Samples.empty_state
             (Exn "ValidationError" "1 validation error for IngestJob")
             eq_refl eq_refl).
  - by intros [[=] | [[=] | ?%elem_of_nil]%elem_of_cons]%elem_of_cons.
  - by intros [[=] | [[=] | ?%elem_of_nil]%elem_of_cons]%elem_of_cons.
Qed.

(** Behind a message that was parsed, the same bad message is rejected
    (and logged under the document of the message before it). *)
Lemma unparsed_later_message_rejected :
  ∃ st', IngestWorker._process_jobs good_first_worker Samples.empty_state
         = (st', Ok tt)
    ∧ Ack good_message ∈ trace st'
    ∧ job_failed "ingest" "doc-1"
        (Exn "ValidationError" "1 validation error for IngestJob") ∈ trace st'
    ∧ Nak bad_message ∈ trace st'
    ∧ failed_jobs st' = 1.
Proof.
  eexists. split; [vm_compute; reflexivity |].
  split_and!; [| | | reflexivity];
    cbn [trace]; repeat first [apply list_elem_of_here | apply list_elem_of_further].
Qed.

End LoopClaims.

Module QAFailureClaims.
Import Py Runtime Loops Worker QAWorker RuntimeFacts StatedRuntime LoopFacts
  AmendedQA FailingQA.

Lemma qa_started this (job : QAJob.t) st :
  log_job_start name (job_id_at this st) "qa" [("query", PStr (QAJob.query job))] st
  = (started this job st, Ok tt).
Proof. reflexivity. Qed.



End QAFailureClaims.

(** ** The scenarios of the specification, run on the embedding *)

Module Scenarios.
Import Py Runtime Worker.

Example split_hello_world :
  IngestWorker._split_text_into_pages "Hello World"
  = [IngestWorker.page 0 "Hello World"].
Proof. vm_compute. reflexivity. Qed.

Example split_empty_text :
  IngestWorker._split_text_into_pages EmptyString
  = [IngestWorker.page 0 EmptyString].
Proof. vm_compute. reflexivity. Qed.

Example split_blank_three_newlines :
  split_blank ("a" +:+ blank +:+ String nl "b") = ["a"; String nl "b"].
Proof. reflexivity. Qed.

(** A paragraph longer than the bound is kept whole. *)
Example split_oversize_paragraph :
  map (λ p, String.length (IngestWorker.content p))
      (IngestWorker._split_text_into_pages (repeat_char "a" 2001))
  = [2001].
Proof. vm_compute. reflexivity. Qed.

(** Paragraphs of 1500, 600 and 10 characters: the second does not fit
    with the first, the third fits with the second. *)
Example split_three_paragraphs :
  map (λ p, (p !! "page_number", String.length (IngestWorker.content p)))
      (IngestWorker._split_text_into_pages
         (repeat_char "a" 1500 +:+ blank +:+ repeat_char "b" 600
          +:+ blank +:+ repeat_char "c" 10))
  = [(Some (PInt 0), 1500); (Some (PInt 1), 612)].
Proof. vm_compute. reflexivity. Qed.

Example combine_prefers_vector :
  QAWorker._combine_results [Samples.cand_a; Samples.cand_b]
                            [Samples.cand_a_lexical]
  = [Samples.cand_a; Samples.cand_b].
Proof. vm_compute. reflexivity. Qed.

(** Scenario 5: two chunks were retrieved; whatever the answer cites, both
    are cited. *)
Example citations_of_two_chunks :
  QAWorker._create_citations [Samples.cand_a; Samples.cand_b]
  = [QAWorker.citation Samples.cand_a; QAWorker.citation Samples.cand_b].
Proof. reflexivity. Qed.

(** Scenario 1, up to the embed job: the healthy worker publishes the one
    chunk of "Hello World". *)
Example ingest_hello_world :
  AmendedIngest.published (trace RerunIngest.after_first_run)
  = [[IngestWorker.page 0 "Hello World"]].
Proof. vm_compute. reflexivity. Qed.

(** Scenario 3: the infected file leaves the status [failed] and no embed
    job. *)
Example ingest_infected :
  let st' := (IngestWorker._process_ingest_job StatedIngest.infected_worker
                StatedIngest.pdf_job Samples.empty_state).1 in
  AmendedIngest.published (trace st') = []
  ∧ last (trace st')
    = Some (UpdateDocumentStatus "doc-1" "failed"
              (Some {[ "error" :=
                         PStr "Virus scan failed: Virus detected: Eicar-Test-Signature" ]})).
Proof. split; vm_compute; reflexivity. Qed.

End Scenarios.

Module RetrievalScenario.
Import Py Runtime Worker.

(** Scenario 4 on the source as it stands: its two searches are
    placeholders that find nothing, so retrieval returns no candidate. *)
Example retrieve_with_placeholder_searches :
  (QAWorker._retrieve_chunks StatedQA.qa_worker Samples.qa_job
     Samples.empty_state).2 = Ok [].
Proof. vm_compute. reflexivity. Qed.

End RetrievalScenario.

(** * Further properties of the code *)

(** ** The chunk splitter: numbering, unsplit text, greedy filling *)

Module SplitterExtras.
Import Py IngestWorker Paragraphs PyFacts SplitterFacts SplitterShape.

Lemma page_numbers_pages_of (gs : list (list string)) : ∀ base,
  map (λ p : pydict, p !! "page_number") (pages_of base gs)
  = map (λ i, Some (PInt (Z.of_nat i))) (seq base (length gs)).
Proof.
  induction gs as [|g gs IH]; intros base; [done |].
  cbn [pages_of map length seq]. rewrite IH. f_equal.
Qed.

Lemma length_concat_nonempty {A} (gs : list (list A)) :
  Forall (λ g, g ≠ []) gs → length gs ≤ length (concat gs).
Proof.
  induction 1 as [|g gs Hg _ IH]; [done |].
  simpl. rewrite length_app. destruct g; [done |]. simpl. lia.
Qed.

(** X1: every text, the empty one included, gives at least one page; the pages
    are numbered 0, 1, 2, ... in the order of the list; there are never
    more pages than paragraphs. *)
Theorem X_pages_numbered_from_zero (text : string) :
  _split_text_into_pages text ≠ []
  ∧ map (λ p : pydict, p !! "page_number") (_split_text_into_pages text)
    = map (λ i, Some (PInt (Z.of_nat i)))
          (seq 0 (length (_split_text_into_pages text)))
  ∧ length (_split_text_into_pages text) ≤ length (split_blank text).
Proof.
  destruct (paragraph_groups_spec text) as [Hc Hg].
  assert (Hne : Forall (λ g, g ≠ []) (paragraph_groups text)).
  { eapply Forall_impl; [exact Hg |]. by intros g [? _]. }
  rewrite split_pages_of, length_pages_of. split_and!.
  - destruct (paragraph_groups text) as [|g gs] eqn:Hgs; [| done].
    simpl in Hc. by destruct (split_blank_nonempty text).
  - apply page_numbers_pages_of.
  - rewrite <- Hc. by apply length_concat_nonempty.
Qed.

Lemma prefix_blank (a b : ascii) (rest : string) :
  String.prefix blank (String a (String b rest)) = is_nl a && is_nl b.
Proof.
  unfold blank, is_nl. cbn [String.prefix].
  destruct (ascii_dec nl a) as [<-|Ha].
  - rewrite Ascii.eqb_refl. destruct (ascii_dec nl b) as [<-|Hb].
    + rewrite Ascii.eqb_refl. by destruct rest.
    + symmetry. apply Ascii.eqb_neq. congruence.
  - symmetry. apply andb_false_iff. left. apply Ascii.eqb_neq. congruence.
Qed.

Lemma contains_cons (a : ascii) (t needle : string) :
  contains (String a t) needle
  = String.prefix needle (String a t) || contains t needle.
Proof. reflexivity. Qed.

Lemma split_blank_unsplit_bounded (n : nat) : ∀ s,
  String.length s ≤ n → contains s blank = false → split_blank s = [s].
Proof.
  induction n as [|n IH]; intros s Hn Hs.
  - destruct s; [done | simpl in Hn; lia].
  - destruct s as [|a [|b rest]]; try done.
    rewrite contains_cons, prefix_blank in Hs.
    apply orb_false_iff in Hs as [Hab Hrest].
    rewrite split_blank_cons, Hab, IH; [done | simpl in *; lia | done].
Qed.

(** X2: a text without a blank line is never cut: it is the single page 0,
    however long it is. *)
Theorem X_text_without_blank_line (text : string) :
  contains text blank = false →
  _split_text_into_pages text = [page 0 text].
Proof.
  intros H. unfold _split_text_into_pages.
  rewrite (split_blank_unsplit_bounded _ text (le_n _) H).
  cbn [fold_left]. unfold loop_step. cbn [current_page loop_init truthy].
  by rewrite andb_false_r.
Qed.

Lemma X_text_without_blank_line_witness :
  _split_text_into_pages (repeat_char "x" 2500) = [page 0 (repeat_char "x" 2500)].
Proof. apply X_text_without_blank_line. vm_compute. reflexivity. Defined.

Lemma next_overflows_snoc g gs g' p :
  g' ≠ [] → next_overflows g (gs ++ [g' ++ [p]]) ↔ next_overflows g (gs ++ [g']).
Proof.
  intros Hg'. destruct gs as [|g0 gs]; simpl; [| done].
  by destruct g'.
Qed.

Lemma closed_when_full_grow gs g p :
  g ≠ [] → closed_when_full (gs ++ [g ++ [p]]) ↔ closed_when_full (gs ++ [g]).
Proof.
  intros Hg. induction gs as [|g0 gs IH]; simpl; [done |].
  by rewrite IH, next_overflows_snoc.
Qed.

Lemma closed_when_full_close gs g p :
  closed_when_full (gs ++ [g]) →
  max_page_length < total_len g + String.length p →
  closed_when_full ((gs ++ [g]) ++ [[p]]).
Proof.
  intros H Hp. induction gs as [|g0 gs IH]; simpl in *; [done |].
  destruct H as [H0 H]. split; [| by apply IH].
  destruct gs as [|g1 gs]; simpl in *; [by destruct g | done].
Qed.

(** The invariant of the loop about the moment groups are closed. *)
Lemma greedy_step consumed st p :
  ginv consumed st →
  (g_current st = [] → groups st = []) →
  closed_when_full (with_open (groups st) (g_current st)) →
  closed_when_full (with_open (groups (g_step st p)) (g_current (g_step st p))).
Proof.
  intros (_ & _ & Hl & _) Hemp H. unfold g_step.
  destruct (_ && _) eqn:Hcond; cbn [groups g_current with_open].
  - apply andb_prop in Hcond as [Hlt Hne]. apply Nat.ltb_lt in Hlt.
    destruct (g_current st) as [|q cur] eqn:Hcur; [done |].
    cbn [with_open] in H. apply closed_when_full_close; [done |].
    rewrite <- Hl. done.
  - destruct (g_current st) as [|q cur] eqn:Hcur; cbn [with_open app] in *.
    + by rewrite (Hemp eq_refl).
    + change (q :: cur ++ [p]) with ((q :: cur) ++ [p]).
      by apply closed_when_full_grow.
Qed.

Lemma greedy_fold ps : ∀ consumed st,
  ginv consumed st →
  (g_current st = [] → groups st = []) →
  closed_when_full (with_open (groups st) (g_current st)) →
  closed_when_full (with_open (groups (fold_left g_step ps st))
                              (g_current (fold_left g_step ps st))).
Proof.
  induction ps as [|p ps IH]; intros consumed st Hinv Hemp H; [done |].
  simpl. apply (IH (consumed ++ [p])).
  - by apply ginv_step.
  - unfold g_step. destruct (_ && _); cbn [g_current groups]; [done |].
    by destruct (g_current st).
  - by eapply greedy_step.
Qed.

(** X3: the splitter fills pages greedily: the pages are the joins of
    consecutive runs of the paragraphs, and a run is closed only when the
    lengths of its paragraphs and of the paragraph that follows exceed
    [max_page_length] together. *)
Theorem X_pages_filled_greedily (text : string) :
  ∃ gs : list (list string),
    concat gs = split_blank text
    ∧ map content (_split_text_into_pages text) = map (join blank) gs
    ∧ closed_when_full gs.
Proof.
  exists (paragraph_groups text).
  destruct (paragraph_groups_spec text) as [Hc _].
  split_and!; [done | by rewrite split_pages_of, map_content_pages_of |].
  unfold paragraph_groups, g_finish.
  pose proof (greedy_fold (split_blank text) [] g_init ginv_init
                (λ _, eq_refl) I) as H.
  destruct (g_current _); cbn [truthy with_open] in *; done.
Qed.

End SplitterExtras.

(** ** Deduplication of retrieval candidates *)

Module CombineExtras.
Import Py Runtime Worker QAWorker Candidates RetrievalFacts.

(** X4: the combined list is the concatenation of the two passes with some
    candidates left out: the order is kept and no candidate is made up. *)
Theorem X_combine_keeps_order (v b : list pydict) :
  _combine_results v b `sublist_of` (v ++ b)
  ∧ length (_combine_results v b) ≤ length v + length b.
Proof.
  destruct (combine_results_spec v b) as (H & _).
  split; [done |]. rewrite <- length_app. by apply sublist_length.
Qed.

(** Candidates with pairwise different identities pass unchanged. *)
Lemma dedup_distinct l : ∀ u,
  distinct_ids (u ++ l) →
  fold_left dedup_step l (DedupState (map chunk_id u) u)
  = DedupState (map chunk_id (u ++ l)) (u ++ l).
Proof.
  induction l as [|c l IH]; intros u Hd; simpl.
  - by rewrite app_nil_r.
  - replace (u ++ c :: l) with ((u ++ [c]) ++ l) in * by (by rewrite <- app_assoc).
    rewrite <- IH by done. f_equal.
    unfold dedup_step. fold (chunk_id c). cbn [seen unique_results].
    assert (py_in (chunk_id c) (map chunk_id u) = false) as ->.
    { apply py_in_false, Forall_forall.
      intros k (c' & <- & Hc')%list_elem_of_In%in_map_iff.
      apply list_elem_of_In in Hc'. fold (same_id c c'). rewrite same_id_sym.
      apply distinct_ids_app_l in Hd. clear IH.
      induction u as [|c0 u IHu]; [by apply elem_of_nil in Hc' |].
      simpl in Hd. destruct Hd as [H0 Hd].
      apply elem_of_cons in Hc' as [-> | Hc'].
      - apply Forall_app in H0 as [_ H0]. by apply Forall_cons_1 in H0 as [? _].
      - by apply IHu. }
    cbn [negb]. by rewrite map_app.
Qed.

Lemma combine_distinct (v b : list pydict) :
  distinct_ids (v ++ b) → _combine_results v b = v ++ b.
Proof.
  intros H. unfold _combine_results.
  change (DedupState [] []) with (DedupState (map chunk_id []) []).
  by rewrite (dedup_distinct (v ++ b) [] H).
Qed.


Lemma filter_none {A} (P : A → Prop) `{∀ x, Decision (P x)} (l : list A) :
  (∀ y, y ∈ l → ¬ P y) → filter P l = [].
Proof.
  induction l as [|y l IH]; intros Hl; [done |].
  rewrite filter_cons_False by (apply Hl; by left).
  apply IH. intros z Hz. apply Hl. by right.
Qed.

(** Two candidates without the key [chunk_id] have the same identity. *)
Lemma missing_same_id (c c' : pydict) :
  c !! "chunk_id" = None → c' !! "chunk_id" = None → same_id c c' = true.
Proof. intros H H'. unfold same_id, chunk_id, get. by rewrite H, H'. Qed.

Lemma distinct_ids_missing (u : list pydict) :
  distinct_ids u →
  length (filter (λ c : pydict, c !! "chunk_id" = None) u) ≤ 1.
Proof.
  induction u as [|c u IH]; intros Hd; [simpl; lia |].
  destruct Hd as [Hc Hd]. rewrite filter_cons.
  case_decide as Hk; [| by apply IH].
  rewrite filter_none; [simpl; lia |].
  intros c' Hc' Hk'. rewrite Forall_forall in Hc.
  specialize (Hc c' Hc'). by rewrite (missing_same_id c c' Hk Hk') in Hc.
Qed.

(** X6: a candidate without the key [chunk_id] has the identity [None], like
    every other one: of all the candidates that lack the key, the combined
    list keeps one at most (the first of the vector pass, or else of the
    lexical pass). *)
Theorem X_combine_missing_chunk_id (v b : list pydict) :
  length (filter (λ c : pydict, c !! "chunk_id" = None) (_combine_results v b)) ≤ 1.
Proof. apply distinct_ids_missing, (combine_results_spec v b). Qed.

End CombineExtras.

(** ** The shape of a run of an ingest job *)

Module IngestShapeFacts.
Import Py Runtime Loops Worker IngestWorker RuntimeFacts AmendedIngest
  IngestFacts IngestJobFacts JobShape.

Lemma probing_refl st : probing st st.
Proof. exists []. by rewrite app_nil_r. Qed.

Lemma probing_trans st1 st2 st3 :
  probing st1 st2 → probing st2 st3 → probing st1 st3.
Proof.
  intros (evs1 & H1 & Q1 & P1 & F1) (evs2 & H2 & Q2 & P2 & F2).
  exists (evs1 ++ evs2). rewrite H2, H1, <- app_assoc, forallb_app, Q1, Q2.
  split_and!; [done | done | congruence | congruence].
Qed.

Lemma probing_note st ev : is_probe ev = true → probing st (note st ev).
Proof. intros H. exists [ev]. simpl. by rewrite H. Qed.

(** A step that ends after one probe. *)
Ltac one_probe :=
  eexists _, _; split; [reflexivity | by apply probing_note].

Lemma download_probes this file_path st :
  ∃ st' r, _download_file this file_path st = (st', r) ∧ probing st st'.
Proof.
  destruct (download_run this file_path st) as [r H].
  eexists _, r. split; [exact H | by apply probing_note].
Qed.

Lemma virus_scan_probes this path st :
  ∃ st' r, _virus_scan this path st = (st', r) ∧ probing st st'.
Proof.
  unfold _virus_scan, logger_warning, record, try_except, bind, call, raise, ret.
  destruct (clamav_client this) as [scan|]; [| one_probe].
  destruct (scan (trace st) path) as [[reply|]|e]; try one_probe.
  destruct (bool_decide (reply = ∅)); [one_probe |].
  destruct (reply !! path) as [[status found]|]; [| one_probe].
  destruct (bool_decide (status = "FOUND")); one_probe.
Qed.

Lemma metadata_probes this path mime st :
  ∃ st' metadata,
    _get_file_metadata this path mime st = (st', Ok metadata) ∧ probing st st'.
Proof.
  unfold _get_file_metadata, logger_warning, record, try_except, bind, call, ret.
  destruct (bool_decide (mime = "application/pdf"));
    [| eexists _, _; split; [reflexivity | apply probing_refl]].
  destruct (fitz_page_count this (trace st) path) as [n|e].
  - cbn [trace note].
    destruct (os_path_getsize this _ path) as [size|e].
    + destruct (fitz_close this _ path) as [[]|e];
        (eexists _, _; split; [reflexivity |]);
        repeat first [by apply probing_note
                     | eapply probing_trans; [| by apply probing_note]].
    + eexists _, _; split; [reflexivity |].
      eapply probing_trans; [| by apply probing_note].
      eapply probing_trans; by apply probing_note.
  - eexists _, _; split; [reflexivity |].
    eapply probing_trans; by apply probing_note.
Qed.

Lemma extract_probes this path mime st :
  ∃ st' r, _extract_text this path mime st = (st', r) ∧ probing st st'.
Proof.
  unfold _extract_text.
  destruct (negb (bool_decide (mime = "application/pdf"))).
  { eexists _, _. split; [reflexivity | apply probing_refl]. }
  unfold try_except at 1. unfold bind at 1. unfold call at 1.
  destruct (extract_text this (trace st) path) as [text|e]; [| one_probe].
  unfold bind at 1.
  destruct (negb (str_truthy (strip text))); [| one_probe].
  destruct (ENABLE_OCR this), (ocr_reader this) as [reader|]; try one_probe.
  unfold _extract_text_with_ocr, try_except, bind, call, raise, ret.
  cbn [trace note].
  destruct (reader _ path) as [results|e];
    (eexists _, _; split; [reflexivity |]);
    (eapply probing_trans; by apply probing_note).
Qed.

Lemma probing_unfold st st' :
  probing st st' →
  ∃ evs, st' = WState (trace st ++ evs) (processed_jobs st) (failed_jobs st)
         ∧ forallb is_probe evs = true.
Proof.
  intros (evs & Ht & Hp & Hc & Hf). exists evs. split; [| done].
  destruct st'. simpl in *. congruence.
Qed.

(** Every run of an ingest job logs its start, makes probes, and ends in
    one of the four ways of [ingest_tail]. *)
Lemma ingest_shape this (job : IngestJob.t) st :
  ∃ st' r probes tail n,
    _process_ingest_job this job st = (st', r)
    ∧ forallb is_probe probes = true
    ∧ ingest_tail (IngestJob.document_id job)
        (λ before local_file answer,
           os_unlink this (trace (started job st) ++ probes ++ before) local_file
           = answer)
        tail r n
    ∧ trace st' = trace (started job st) ++ probes ++ tail
    ∧ processed_jobs st' = processed_jobs st + n
    ∧ failed_jobs st' = failed_jobs st.
Proof.
  unfold _process_ingest_job.
  unfold time_time at 1, peek. unfold bind at 1. unfold bind at 1.
  change (log_job_start name (IngestJob.document_id job) "ingest"
            [("document_id", PStr (IngestJob.document_id job))] st)
    with (started job st, Ok tt).
  assert (P0 : probing (started job st) (started job st)) by apply probing_refl.
  unfold try_except at 1.
  unfold bind at 1.
  destruct (download_probes this (IngestJob.file_path job) (started job st))
    as (s1 & r1 & H1 & P1).
  rewrite H1. destruct r1 as [local|e].
  2:{ rewrite failed_run. apply probing_unfold in P1 as (evs & -> & Hp).
      eexists _, _, evs, _, 0. split_and!;
        [reflexivity | done | apply EarlyFailure | | |];
        cbn [trace note processed_jobs failed_jobs started];
        [by rewrite <- !app_assoc | lia | done]. }
  unfold bind at 1.
  destruct (virus_scan_probes this local s1) as (s2 & r2 & H2 & P2').
  rewrite H2. pose proof (probing_trans _ _ _ P1 P2') as P2.
  destruct r2 as [[]|e].
  2:{ rewrite failed_run. apply probing_unfold in P2 as (evs & -> & Hp).
      eexists _, _, evs, _, 0. split_and!;
        [reflexivity | done | apply EarlyFailure | | |];
        cbn [trace note processed_jobs failed_jobs started];
        [by rewrite <- !app_assoc | lia | done]. }
  unfold bind at 1.
  destruct (metadata_probes this local (IngestJob.mime_type job) s2)
    as (s3 & metadata & H3 & P3').
  rewrite H3. pose proof (probing_trans _ _ _ P2 P3') as P3.
  unfold bind at 1.
  destruct (extract_probes this local (IngestJob.mime_type job) s3)
    as (s4 & r4 & H4 & P4').
  rewrite H4. pose proof (probing_trans _ _ _ P3 P4') as P4.
  apply probing_unfold in P4 as (evs & -> & Hp).
  destruct r4 as [pages|e].
  2:{ rewrite failed_run.
      eexists _, _, evs, _, 0. split_and!;
        [reflexivity | done | apply EarlyFailure | | |];
        cbn [trace note processed_jobs failed_jobs started];
        [by rewrite <- !app_assoc | lia | done]. }
  unfold bind at 1. unfold _update_document_status at 1, record, call.
  unfold bind at 1.
  unfold _publish_embed_job, try_except at 1, bind at 1, time_time at 1, peek,
    call at 1.
  cbn [trace note processed_jobs failed_jobs].
  destruct (nats_publish (nats this) _ "jobs.embed") as [[]|e].
  2:{ unfold logger_error, record, call, bind at 1, raise at 1.
      rewrite failed_run.
      eexists _, _, evs, _, 0. split_and!;
        [reflexivity | done | apply PublishFailure | | |];
        cbn [trace note processed_jobs failed_jobs started];
        [by rewrite <- !app_assoc | lia | done]. }
  unfold bind at 1. cbn [trace note processed_jobs failed_jobs].
  destruct (os_unlink this _ local) as [[]|e] eqn:Hunlink.
  2:{ rewrite failed_run.
      eexists _, _, evs, _, 0. split_and!;
        [reflexivity | done
        | apply CleanupFailure; rewrite <- Hunlink; by rewrite <- !app_assoc
        | | |];
        cbn [trace note processed_jobs failed_jobs started];
        [by rewrite <- !app_assoc | lia | done]. }
  unfold bind, time_time, peek, log_job_success, record, call, incr_processed.
  eexists _, _, evs, _, 1. split_and!;
    [reflexivity | done
    | apply Success; rewrite <- Hunlink; by rewrite <- !app_assoc
    | | |];
    cbn [trace note processed_jobs failed_jobs started];
    [by rewrite <- !app_assoc | lia | done].
Qed.

End IngestShapeFacts.

(** ** Ingest jobs: statuses, counters, clean-up, files that are not PDFs *)

Module IngestExtras.
Import Py Runtime Loops Worker IngestWorker RuntimeFacts AmendedIngest
  IngestFacts IngestJobFacts JobShape IngestShapeFacts NonPdf.

Lemma statuses_app (evs1 evs2 : list event) :
  statuses (evs1 ++ evs2) = statuses evs1 ++ statuses evs2.
Proof.
  induction evs1 as [|ev evs1 IH]; [done |].
  destruct ev; simpl; by rewrite ?IH.
Qed.

Lemma probes_plain (evs : list event) :
  forallb is_probe evs = true →
  statuses evs = [] ∧ published evs = [] ∧ existsb is_unlink evs = false.
Proof.
  induction evs as [|ev evs IH]; [done |].
  intros [Hev Hevs]%andb_prop. destruct (IH Hevs) as (? & ? & ?).
  by destruct ev.
Qed.


(** X8: a run of an ingest job never changes [failed_jobs]; it adds one to
    [processed_jobs] when it succeeds and leaves it alone when it raises. *)
Theorem X_ingest_counters this (job : IngestJob.t) st :
  ∃ st' r,
    _process_ingest_job this job st = (st', r)
    ∧ failed_jobs st' = failed_jobs st
    ∧ processed_jobs st'
      = processed_jobs st + match r with Ok _ => 1 | Raise _ => 0 end.
Proof.
  destruct (ingest_shape this job st)
    as (st' & r & probes & tail & n & Hrun & _ & Htail & _ & Hproc & Hfail).
  exists st', r. split_and!; [done | done |]. by destruct Htail.
Qed.


Ltac trace_added :=
  unfold started, note; cbn [trace]; rewrite <- ?app_assoc; reflexivity.

Lemma virus_scan_one_call this path st :
  ∃ ev r, _virus_scan this path st = (note st ev, r)
          ∧ is_extraction ev = false.
Proof.
  unfold _virus_scan, logger_warning, record, try_except, bind, call, raise, ret.
  destruct (clamav_client this) as [scan|]; [| by eexists _, _].
  destruct (scan (trace st) path) as [[reply|]|e]; try by eexists _, _.
  destruct (bool_decide (reply = ∅)); [by eexists _, _ |].
  destruct (reply !! path) as [[status found]|]; [| by eexists _, _].
  destruct (bool_decide (status = "FOUND")); by eexists _, _.
Qed.

(** X10: a job whose mime type is not [application/pdf] always raises, and never
    opens, reads, publishes or removes anything; yet the type is looked at
    only after the file was downloaded and scanned: when both succeed the
    job ends with [Unsupported mime type: ...], as raised (it is not
    wrapped in [Text extraction failed]), and the status [failed]. *)
Theorem X_non_pdf_rejected_after_download this (job : IngestJob.t) st :
  IngestJob.mime_type job ≠ "application/pdf" →
  (∃ st' e added,
     _process_ingest_job this job st = (st', Raise e)
     ∧ trace st' = trace st ++ added
     ∧ existsb is_extraction added = false
     ∧ S3Download (IngestJob.file_path job) ∈ added)
  ∧ (∀ local_file s2,
       s3_download_file this (trace (started job st)) (IngestJob.file_path job)
         = Ok local_file →
       _virus_scan this local_file
         (note (started job st) (S3Download (IngestJob.file_path job)))
         = (s2, Ok tt) →
       _process_ingest_job this job st
       = (note s2 (failed_status (IngestJob.document_id job)
                     (unsupported (IngestJob.mime_type job))),
          Raise (unsupported (IngestJob.mime_type job)))).
Proof.
  intros Hmime.
  assert (Hstart : ∀ k : unit → M unit,
    _process_ingest_job this job st
    = try_except
        (do local_file <- _download_file this (IngestJob.file_path job);
         do _ <- _virus_scan this local_file;
         do metadata <- _get_file_metadata this local_file (IngestJob.mime_type job);
         do text_content <- _extract_text this local_file (IngestJob.mime_type job);
         do _ <- _update_document_status (IngestJob.document_id job) "ingested" metadata;
         do _ <- _publish_embed_job this (IngestJob.document_id job) text_content;
         do _ <- call (Unlink local_file) (λ h, os_unlink this h local_file);
         do now <- time_time (nats this);
         do _ <- log_job_success name (IngestJob.document_id job)
                   (now - clock (nats this) (trace st))
                   [("document_id", PStr (IngestJob.document_id job))];
         incr_processed)%worker
        (λ e, do _ <- _update_document_status (IngestJob.document_id job) "failed"
                        {[ "error" := PStr (exc_str e) ]};
              raise e)%worker
        (started job st)) by reflexivity.
  rewrite (Hstart (λ _, ret tt)). clear Hstart.
  assert (Hmeta : ∀ local_file s,
    _get_file_metadata this local_file (IngestJob.mime_type job) s = (s, Ok ∅)).
  { intros. unfold _get_file_metadata. by rewrite bool_decide_eq_false_2. }
  assert (Hext : ∀ local_file s,
    _extract_text this local_file (IngestJob.mime_type job) s
    = (s, Raise (unsupported (IngestJob.mime_type job)))).
  { intros. unfold _extract_text. by rewrite bool_decide_eq_false_2. }
  split.
  - unfold try_except at 1. unfold bind at 1.
    destruct (download_run this (IngestJob.file_path job) (started job st))
      as [r1 H1].
    rewrite H1. destruct r1 as [local|e].
    2:{ rewrite failed_run. eexists _, _, [_; _; _]. split_and!;
          [reflexivity | trace_added | reflexivity |].
        apply list_elem_of_further, list_elem_of_here. }
    unfold bind at 1.
    destruct (virus_scan_one_call this local
                (note (started job st) (S3Download (IngestJob.file_path job))))
      as (ev & r2 & H2 & Hev).
    rewrite H2. destruct r2 as [[]|e].
    2:{ rewrite failed_run. eexists _, _, [_; _; ev; _]. split_and!;
          [reflexivity | trace_added | |].
        - cbn [existsb is_extraction]. by rewrite Hev.
        - apply list_elem_of_further, list_elem_of_here. }
    unfold bind at 1. rewrite Hmeta. unfold bind at 1. rewrite Hext.
    rewrite failed_run. eexists _, _, [_; _; ev; _]. split_and!;
      [reflexivity | trace_added | |].
    + cbn [existsb is_extraction]. by rewrite Hev.
    + apply list_elem_of_further, list_elem_of_here.
  - intros local s2 Hdl Hscan.
    unfold try_except at 1. unfold bind at 1.
    unfold _download_file, try_except at 1, call at 1. rewrite Hdl.
    unfold bind at 1. rewrite Hscan.
    unfold bind at 1. rewrite Hmeta. unfold bind at 1. rewrite Hext.
    by rewrite failed_run.
Qed.

(** On the sample: a PNG handed to the healthy worker. *)
Lemma X_non_pdf_rejected_after_download_witness :
  ∃ st', _process_ingest_job StatedIngest.healthy_worker png_job Samples.empty_state
         = (st', Raise (unsupported "image/png"))
         ∧ S3Download "uploads/doc-2.png" ∈ trace st'.
Proof.
  destruct (X_non_pdf_rejected_after_download StatedIngest.healthy_worker
              png_job Samples.empty_state) as [_ H]; [done |].
  eexists. split.
  - apply (H "/tmp/tmp1.pdf"); reflexivity.
  - cbn [trace note]. apply list_elem_of_further, list_elem_of_here.
Defined.

End IngestExtras.

(** ** Embed jobs: where the requests stop, counters, the empty job *)

Module EmbedExtras.
Import Py Runtime Loops Worker EmbedWorker RuntimeFacts AmendedEmbed EmbedFacts
  EmbedShape.

Lemma embed_chunk_outcome this acc chunk st :
  match embed_chunk this acc chunk st with
  | (st', Ok _) => has_content chunk ∧ st' = note st (request this chunk)
  | (st', Raise e) =>
      ∃ reason, e = generation_failed reason
        ∧ ((chunk !! "content" = None ∧ reason = "'content'" ∧ st' = st)
           ∨ (has_content chunk ∧ st' = note st (request this chunk)))
  end.
Proof.
  unfold embed_chunk, try_except, bind, chunk_content, first_embedding,
    call, ret, raise, request, get, has_content, generation_failed.
  destruct (chunk !! "content") as [input|] eqn:Hc; simpl.
  - destruct (embeddings_create this (trace st) _ input) as [[|v rest]|e];
      simpl; eauto 10.
  - eexists. split; [reflexivity |]. by left.
Qed.

Lemma take_snoc_request this (chunk : pydict) chunks k st :
  trace (note st (request this chunk)) ++ map (request this) (take k chunks)
  = trace st ++ map (request this) (take (S k) (chunk :: chunks)).
Proof. unfold note. cbn [trace take map]. by rewrite <- app_assoc. Qed.

Lemma generate_prefix this chunks : ∀ acc st,
  match for_each chunks acc (embed_chunk this) st with
  | (st', Ok _) =>
      processed_jobs st' = processed_jobs st ∧ failed_jobs st' = failed_jobs st
  | (st', Raise e) =>
      processed_jobs st' = processed_jobs st ∧ failed_jobs st' = failed_jobs st
      ∧ ∃ k chunk reason,
          chunks !! k = Some chunk
          ∧ Forall has_content (take k chunks)
          ∧ e = generation_failed reason
          ∧ ((chunk !! "content" = None ∧ reason = "'content'"
              ∧ trace st' = trace st ++ map (request this) (take k chunks))
             ∨ (has_content chunk
                ∧ trace st'
                  = trace st ++ map (request this) (take (S k) chunks)))
  end.
Proof.
  induction chunks as [|chunk chunks IH]; intros acc st; [done |].
  cbn [for_each]. unfold bind.
  pose proof (embed_chunk_outcome this acc chunk st) as Hc.
  destruct (embed_chunk this acc chunk st) as [st1 [r|e]].
  - destruct Hc as [Hhas ->].
    specialize (IH r (note st (request this chunk))).
    destruct (for_each chunks r _ _) as [st' [r'|e]]; [done |].
    destruct IH as (Hp & Hf & k & c & reason & Hk & Hbefore & He & Hcase).
    split_and!; [done | done |].
    exists (S k), c, reason. split_and!; [done | by constructor | done |].
    destruct Hcase as [(? & ? & Htr) | (? & Htr)]; [left | right];
      split_and?; try done; by rewrite Htr, take_snoc_request.
  - destruct Hc as (reason & -> & Hcase).
    assert (processed_jobs st1 = processed_jobs st
            ∧ failed_jobs st1 = failed_jobs st) as [Hp Hf].
    { by destruct Hcase as [(_ & _ & ->) | (_ & ->)]. }
    split_and!; [done | done |].
    exists 0, chunk, reason. split_and!; [done | by constructor | done |].
    destruct Hcase as [(? & ? & ->) | (? & ->)]; [left | right];
      split_and?; try done.
    cbn [take map]. by rewrite app_nil_r.
Qed.

(** X11: the requests of [_generate_embeddings] are made in the order of the
    chunks and stop at the first failure: when it raises, the exception is
    [Exception("Failed to generate embedding: ...")], every chunk before
    the failing one has a content and was sent, no chunk behind it was, and
    the failing chunk itself either lacks the key [content] (the text is
    then ['content'] and no request was made for it) or was the last one
    sent.  The counters of the worker are not touched. *)
Theorem X_requests_stop_at_first_failure this chunks st :
  match _generate_embeddings this chunks st with
  | (st', Ok _) =>
      processed_jobs st' = processed_jobs st ∧ failed_jobs st' = failed_jobs st
  | (st', Raise e) =>
      processed_jobs st' = processed_jobs st ∧ failed_jobs st' = failed_jobs st
      ∧ ∃ k chunk reason,
          chunks !! k = Some chunk
          ∧ Forall has_content (take k chunks)
          ∧ e = generation_failed reason
          ∧ ((chunk !! "content" = None ∧ reason = "'content'"
              ∧ trace st' = trace st ++ map (request this) (take k chunks))
             ∨ (has_content chunk
                ∧ trace st'
                  = trace st ++ map (request this) (take (S k) chunks)))
  end.
Proof. apply generate_prefix. Qed.

(** X12: a run of an embed job never changes [failed_jobs]; it adds one to
    [processed_jobs] exactly when it succeeds; the only exceptions it
    raises are those of the generation, so the error stored with the
    status [failed] always starts with [Failed to generate embedding: ]. *)
Theorem X_embed_counters_and_error this (job : EmbedJob.t) st :
  match _process_embed_job this job st with
  | (st', Ok _) =>
      processed_jobs st' = S (processed_jobs st)
      ∧ failed_jobs st' = failed_jobs st
  | (st', Raise e) =>
      processed_jobs st' = processed_jobs st
      ∧ failed_jobs st' = failed_jobs st
      ∧ ∃ reason,
          e = generation_failed reason
          ∧ last (trace st')
            = Some (UpdateDocumentStatus (EmbedJob.document_id job) "failed"
                      (Some {[ "error" :=
                                 PStr ("Failed to generate embedding: "
                                       +:+ reason) ]}))
  end.
Proof.
  unfold _process_embed_job.
  unfold time_time at 1, peek. unfold bind at 1. unfold bind at 1.
  change (log_job_start name (EmbedJob.document_id job) "embed"
            [("document_id", PStr (EmbedJob.document_id job))] st)
    with (started job st, Ok tt).
  unfold try_except at 1. unfold bind at 1.
  unfold _generate_embeddings.
  pose proof (generate_prefix this (EmbedJob.chunks job) [] (started job st))
    as Hg.
  destruct (for_each (EmbedJob.chunks job) [] (embed_chunk this) (started job st))
    as [st1 [embs|e]].
  - destruct Hg as [Hp Hf].
    unfold _store_embeddings, _update_document_status, record, call, bind,
      time_time, peek, log_job_success, record, call, incr_processed.
    cbn [processed_jobs failed_jobs note]. by rewrite Hp, Hf.
  - destruct Hg as (Hp & Hf & k & chunk & reason & _ & _ & -> & _).
    unfold _update_document_status, record, call, bind, raise.
    cbn [processed_jobs failed_jobs note trace].
    split_and!; [done | done |]. exists reason. split; [done |].
    by rewrite last_snoc.
Qed.

(** X13: an embed job without chunks succeeds without a request: an empty list
    of vectors is stored and the document is marked [embedded]. *)
Theorem X_embed_job_without_chunks this (job : EmbedJob.t) st :
  EmbedJob.chunks job = [] →
  ∃ completed,
    _process_embed_job this job st
    = (WState (trace (started job st)
               ++ [StoreEmbeddings (EmbedJob.document_id job) [] [];
                   UpdateDocumentStatus (EmbedJob.document_id job) "embedded" None;
                   completed])
              (S (processed_jobs st)) (failed_jobs st), Ok tt)
    ∧ is_request completed = false.
Proof.
  intros Hempty. unfold _process_embed_job. rewrite Hempty.
  eexists. split.
  - unfold time_time, peek, bind, log_job_start, log_job_success, try_except,
      _generate_embeddings, _store_embeddings, _update_document_status,
      record, call, incr_processed, ret, started, note.
    cbn [for_each trace processed_jobs failed_jobs]. unfold ret.
    cbn [trace processed_jobs failed_jobs].
    rewrite <- !app_assoc. reflexivity.
  - reflexivity.
Qed.

(** On the sample: the job of a document without text. *)
Lemma X_embed_job_without_chunks_witness :
  ∃ completed,
    _process_embed_job StatedEmbed.zero_worker empty_job Samples.empty_state
    = (WState (trace (started empty_job Samples.empty_state)
               ++ [StoreEmbeddings "doc-3" [] [];
                   UpdateDocumentStatus "doc-3" "embedded" None;
                   completed]) 1 0, Ok tt)
    ∧ is_request completed = false.
Proof.
  apply (X_embed_job_without_chunks StatedEmbed.zero_worker empty_job
           Samples.empty_state).
  reflexivity.
Defined.

(** A chunk without [content] stops the sample worker before any request. *)
Lemma bare_chunk_stops_generation :
  _generate_embeddings StatedEmbed.zero_worker
    [bare_chunk; StatedEmbed.hello_chunk] Samples.empty_state
  = (Samples.empty_state, Raise (generation_failed "'content'")).
Proof. vm_compute. reflexivity. Qed.

End EmbedExtras.

(** ** QA jobs: what a run does as the source stands *)

Module QAExtras.
Import Py Runtime Loops Worker QAWorker RuntimeFacts CitationFacts AmendedQA
  FailingQA QAShape.

Lemma slice_to_nil {A} (n : Z) : slice_to (@nil A) n = [].
Proof. unfold slice_to. destruct (0 <=? n)%Z; apply take_nil. Qed.

Lemma vector_search_run this query limit st :
  ∃ r, _vector_search this query limit st
       = (note st (EmbeddingsCreate (OPENAI_EMBEDDING_MODEL this) (PStr query)), r)
       ∧ (r = Ok []
          ∨ ∃ reason, r = Raise (Exception ("Vector search failed: " +:+ reason))).
Proof.
  unfold _vector_search, try_except, bind, call, ret, raise.
  destruct (embeddings_create this (trace st) _ (PStr query)) as [[|v rest]|e];
    eexists; (split; [reflexivity |]); eauto.
Qed.

Lemma retrieve_run this (job : QAJob.t) st :
  ∃ r, _retrieve_chunks this job st = (note st (search_request this job), r)
       ∧ (r = Ok [] ∨ ∃ reason, r = Raise (retrieval_failed reason)).
Proof.
  unfold _retrieve_chunks, retrieve_with, try_except. unfold bind at 1.
  destruct (vector_search_run this (QAJob.query job)
              (QAJob.max_results job * 2)%Z st) as (r & Hrun & Hr).
  rewrite Hrun. destruct Hr as [-> | [reason ->]].
  - unfold _bm25_search, bind, ret. eexists. split; [reflexivity |].
    left. f_equal. apply slice_to_nil.
  - eexists. split; [reflexivity |]. right. by exists reason.
Qed.

Lemma generate_answer_run this query chunks temperature st :
  ∃ r, _generate_answer this query chunks temperature st
       = (note st (ChatCreate (OPENAI_MODEL this)
                     (_create_prompt query (_prepare_context chunks)) temperature),
          r)
       ∧ ((∃ answer, r = Ok answer) ∨ ∃ reason, r = Raise (answer_failed reason)).
Proof.
  unfold _generate_answer, try_except, bind, call, ret, raise.
  destruct (chat_create this (trace st) _ _ temperature) as [[|c rest]|e];
    eexists; (split; [reflexivity |]); eauto.
Qed.

Lemma cache_run this job_id (result : qa_result) st :
  ∃ tail, _cache_result this job_id result st
          = (WState (trace st ++ RedisSetex ("qa_result:" +:+ job_id) 3600 result
                                 :: tail)
               (processed_jobs st) (failed_jobs st), Ok tt)
          ∧ (tail = [] ∨ ∃ e, tail = [cache_warning e]).
Proof.
  unfold _cache_result, try_except, call, logger_warning, record, call, note.
  destruct (redis_setex this (trace st) _) as [[]|e]; cbn [trace].
  - exists []. eauto.
  - exists [cache_warning e]. rewrite <- app_assoc. eauto.
Qed.

Lemma qa_shape this (job : QAJob.t) st :
  match _process_qa_job this job st with
  | (st', Ok _) =>
      ∃ answer tail now,
        trace st'
        = trace (started this job st)
          ++ [search_request this job; answer_request this job [];
              RedisSetex ("qa_result:" +:+ job_id_at this st) 3600
                (bare_response this answer)]
          ++ tail ++ [qa_completed this job st now]
        ∧ (tail = [] ∨ ∃ e, tail = [cache_warning e])
        ∧ processed_jobs st' = S (processed_jobs st)
        ∧ failed_jobs st' = failed_jobs st
  | (st', Raise e) =>
      processed_jobs st' = processed_jobs st
      ∧ failed_jobs st' = failed_jobs st
      ∧ ∃ reason,
          (e = retrieval_failed reason
           ∧ trace st'
             = trace (started this job st)
               ++ [search_request this job; qa_failed this job st e])
          ∨ (e = answer_failed reason
             ∧ trace st'
               = trace (started this job st)
                 ++ [search_request this job; answer_request this job [];
                     qa_failed this job st e])
  end.
Proof.
  unfold _process_qa_job, process_qa_job_with.
  unfold time_time at 1, peek. unfold bind at 1. unfold bind at 1.
  fold (job_id_at this st).
  change (log_job_start name (job_id_at this st) "qa"
            [("query", PStr (QAJob.query job))] st)
    with (started this job st, Ok tt).
  unfold try_except at 1. unfold bind at 1.
  destruct (retrieve_run this job (started this job st)) as (r1 & H1 & Hr1).
  rewrite H1. destruct Hr1 as [-> | [reason ->]].
  2:{ unfold log_job_error, record, call, bind, raise.
      cbn [processed_jobs failed_jobs note trace].
      split_and!; [done | done |]. exists reason. left. split; [done |].
      by rewrite <- app_assoc. }
  unfold _rerank_chunks. unfold bind at 1, ret at 1. unfold bind at 1.
  destruct (generate_answer_run this (QAJob.query job) [] (QAJob.temperature job)
              (note (started this job st) (search_request this job)))
    as (r2 & H2 & Hr2).
  rewrite H2. destruct Hr2 as [[answer ->] | [reason ->]].
  2:{ unfold log_job_error, record, call, bind, raise.
      cbn [processed_jobs failed_jobs note trace].
      split_and!; [done | done |]. exists reason. right. split; [done |].
      by rewrite <- !app_assoc. }
  unfold bind at 1.
  match goal with
  | |- context [_cache_result this ?id ?res ?s] =>
      destruct (cache_run this id res s) as (tail & H3 & Htail); rewrite H3
  end.
  unfold bind, time_time, peek, log_job_success, record, call, incr_processed.
  cbn [processed_jobs failed_jobs note trace].
  eexists answer, tail, _. split_and!; [| done | done | done].
  rewrite <- !app_assoc. cbn [app]. reflexivity.
Qed.

(** X14: as the source stands (its two searches return no chunk), a QA job that
    succeeds has asked for the vector of the question, then for an answer
    over an empty context, and has handed to the cache a result without
    citations and with both chunk counts 0; it counts as processed whether
    or not the cache took the result. *)
Theorem X_qa_answers_without_context this (job : QAJob.t) st :
  _prepare_context [] = EmptyString
  ∧ match _process_qa_job this job st with
    | (st', Ok _) =>
        ∃ answer tail now,
          trace st'
          = trace (started this job st)
            ++ [search_request this job; answer_request this job [];
                RedisSetex ("qa_result:" +:+ job_id_at this st) 3600
                  (bare_response this answer)]
            ++ tail ++ [qa_completed this job st now]
          ∧ (tail = [] ∨ ∃ e, tail = [cache_warning e])
          ∧ processed_jobs st' = S (processed_jobs st)
          ∧ failed_jobs st' = failed_jobs st
    | (st', Raise _) => True
    end.
Proof.
  split; [reflexivity |].
  pose proof (qa_shape this job st) as H.
  by destruct (_process_qa_job this job st) as [st' [[]|e]].
Qed.

(** X15: a QA job raises only [Exception("Failed to retrieve chunks: Vector
    search failed: ...")], after the request for the vector of the
    question, or [Exception("Failed to generate answer: ...")], after the
    request for the answer; in both cases the failure is logged, nothing
    is handed to the cache and no counter moves. *)
Theorem X_qa_failures this (job : QAJob.t) st :
  match _process_qa_job this job st with
  | (st', Ok _) => True
  | (st', Raise e) =>
      processed_jobs st' = processed_jobs st
      ∧ failed_jobs st' = failed_jobs st
      ∧ ∃ reason,
          (e = retrieval_failed reason
           ∧ trace st'
             = trace (started this job st)
               ++ [search_request this job; qa_failed this job st e])
          ∨ (e = answer_failed reason
             ∧ trace st'
               = trace (started this job st)
                 ++ [search_request this job; answer_request this job [];
                     qa_failed this job st e])
  end.
Proof.
  pose proof (qa_shape this job st) as H.
  by destruct (_process_qa_job this job st) as [st' [[]|e]].
Qed.

(** X16: when the cache refuses the result, the job still succeeds and counts as
    processed: the refusal is logged as a warning and the answer is kept
    nowhere. *)
Theorem X_cache_failure_tolerated this retrieve (job : QAJob.t) st st1 st2
    chunks answer e :
  retrieve job (started this job st) = (st1, Ok chunks) →
  _generate_answer this (QAJob.query job) chunks (QAJob.temperature job) st1
    = (st2, Ok answer) →
  redis_setex this (trace st2) ("qa_result:" +:+ job_id_at this st) = Raise e →
  ∃ now,
    process_qa_job_with this retrieve job st
    = (WState (trace st2
               ++ [RedisSetex ("qa_result:" +:+ job_id_at this st) 3600
                     (response this answer chunks);
                   cache_warning e; qa_completed this job st now])
         (S (processed_jobs st2)) (failed_jobs st2), Ok tt).
Proof.
  intros Hr Hg Hc. unfold process_qa_job_with.
  unfold time_time at 1, peek. unfold bind at 1.
  unfold bind at 1. fold (job_id_at this st).
  change (log_job_start name (job_id_at this st) "qa"
            [("query", PStr (QAJob.query job))] st)
    with (started this job st, Ok tt).
  unfold try_except at 1.
  rewrite (run_bind _ _ _ _ _ Hr).
  unfold _rerank_chunks. unfold bind at 1, ret at 1.
  rewrite (run_bind _ _ _ _ _ Hg).
  unfold _cache_result, try_except, call, bind, time_time, peek, log_job_success,
    logger_warning, record, call, incr_processed, ret.
  rewrite Hc. cbn [trace note processed_jobs failed_jobs].
  eexists. rewrite <- !app_assoc. reflexivity.
Qed.

(** On the sample: the worker whose cache cannot be reached. *)
Lemma X_cache_failure_tolerated_witness :
  ∃ st', _process_qa_job forgetful_worker Samples.qa_job Samples.empty_state
         = (st', Ok tt)
    ∧ cache_warning (Exn "ConnectionError" "Connection refused") ∈ trace st'
    ∧ processed_jobs st' = 1.
Proof.
  destruct (X_cache_failure_tolerated forgetful_worker
              (_retrieve_chunks forgetful_worker) Samples.qa_job
              Samples.empty_state _ _ [] _
              (Exn "ConnectionError" "Connection refused")
              eq_refl eq_refl eq_refl) as [now H].
  eexists. split; [exact H |]. split; [| reflexivity].
  cbn [trace]. apply elem_of_app. right.
  apply list_elem_of_further, list_elem_of_here.
Defined.

(** X17: the context shown to the model can be rebuilt from the citations:
    there is one citation per chunk, and the source numbered [i + 1] in
    the context carries the content of the citation at position [i]. *)
Theorem X_context_sources_are_citations (chunks : list pydict) :
  length (_create_citations chunks) = length chunks
  ∧ _prepare_context chunks
    = join blank (imap source_of_citation (_create_citations chunks)).
Proof.
  rewrite create_citations_map. split; [apply length_map |].
  unfold _prepare_context. f_equal.
  change (map citation chunks) with (citation <$> chunks).
  rewrite imap_fmap. apply imap_ext. intros i chunk _.
  unfold context_part, source_of_citation, compose, get.
  destruct (citation_fields chunk) as (_ & _ & _ & -> & _). reflexivity.
Qed.

End QAExtras.

(** ** The message loop: counters, answers, attribution *)

Module LoopTallyFacts.
Import Py Runtime Loops Worker RuntimeFacts StatedRuntime LoopTally.

Lemma calls_app kind (evs1 evs2 : list event) :
  calls kind (evs1 ++ evs2) = calls kind evs1 + calls kind evs2.
Proof. unfold calls. by rewrite List.filter_app, length_app. Qed.

Ltac count_calls :=
  cbv [calls List.filter is_ack is_nak length].

Lemma tallied_refl st : tallied st st.
Proof.
  exists []. rewrite app_nil_r. unfold calls. simpl.
  split_and!; [done | lia | lia].
Qed.

Lemma tallied_trans st1 st2 st3 :
  tallied st1 st2 → tallied st2 st3 → tallied st1 st3.
Proof.
  intros (a1 & Ht1 & Hp1 & Hf1) (a2 & Ht2 & Hp2 & Hf2). exists (a1 ++ a2).
  rewrite Ht2, Ht1, Hp2, Hp1, Hf2, Hf1, !calls_app, <- app_assoc.
  split_and!; [done | lia | lia].
Qed.

Section Loop.
Context {J : Type}.
Variable b : bus.
Variable worker_name subject : string.
Variable parse_raw : string → result J.
Variable job_attr : J → string.
Variable handler : J → M unit.
Hypothesis handler_keeps_tally : keeps_tally handler.

Lemma on_exception_tally job msg e st :
  ∃ st' r, on_exception b worker_name job_attr job msg e st = (st', r)
           ∧ tallied st st'.
Proof.
  unfold on_exception, bind, ret, raise, log_job_error, record, call, incr_failed.
  destruct job as [j|]; cbn [trace note processed_jobs failed_jobs].
  - eexists _, _. split; [reflexivity |]. eexists [_; _].
    unfold note. cbn [trace processed_jobs failed_jobs].
    rewrite <- app_assoc.
    split_and!; [done | count_calls; lia | count_calls; lia].
  - eexists _, _. split; [reflexivity |]. apply tallied_refl.
Qed.

Lemma on_message_tally job msg st :
  ∃ st' r, on_message b worker_name parse_raw job_attr handler job msg st
           = (st', r)
           ∧ tallied st st'.
Proof.
  unfold on_message. destruct (decode_job b parse_raw msg) as [j|e].
  - unfold try_except. unfold bind at 1.
    destruct (handler_keeps_tally j st)
      as (st1 & r & added & Hrun & Htr & Ha & Hn & Hf & Hp).
    rewrite Hrun.
    destruct r as [[]|e].
    + unfold bind at 1, call at 1.
      assert (tallied st (note st1 (Ack msg))) as Hack.
      { exists (added ++ [Ack msg]). unfold note.
        cbn [trace processed_jobs failed_jobs].
        rewrite Htr, Hp, Hf, !calls_app, Ha, Hn, <- app_assoc. count_calls.
        split_and!; [done | lia | lia]. }
      destruct (msg_ack b (trace st1) msg) as [[]|e].
      * eexists _, _. split; [reflexivity | exact Hack].
      * unfold bind.
        destruct (on_exception_tally (Some j) msg e (note st1 (Ack msg)))
          as (st2 & r2 & H2 & Ht2).
        rewrite H2.
        destruct r2 as [[]|?];
          (eexists _, _; split; [reflexivity | by eapply tallied_trans]).
    + unfold bind.
      destruct (on_exception_tally (Some j) msg e st1) as (st2 & r2 & H2 & Ht2).
      rewrite H2.
      assert (tallied st st1) as H1.
      { exists added. rewrite Htr, Hp, Hf, Ha, Hn. split_and!; [done | lia | lia]. }
      destruct r2 as [[]|?];
        (eexists _, _; split; [reflexivity | by eapply tallied_trans]).
  - unfold bind.
    destruct (on_exception_tally job msg e st) as (st2 & r2 & H2 & Ht2).
    rewrite H2.
    destruct r2 as [[]|?]; (eexists _, _; split; [reflexivity | done]).
Qed.

Lemma for_each_tally msgs : ∀ job st,
  ∃ st' r, for_each msgs job
             (on_message b worker_name parse_raw job_attr handler) st
           = (st', r)
           ∧ tallied st st'.
Proof.
  induction msgs as [|msg msgs IH]; intros job st.
  - eexists _, _. split; [reflexivity | apply tallied_refl].
  - cbn [for_each]. unfold bind.
    destruct (on_message_tally job msg st) as (st1 & r1 & H1 & Ht1).
    rewrite H1. destruct r1 as [job'|e].
    + destruct (IH job' st1) as (st2 & r2 & H2 & Ht2).
      eexists _, _. split; [exact H2 | by eapply tallied_trans].
    + by eexists _, _.
Qed.

Lemma process_jobs_tally st :
  ∃ st', process_jobs b worker_name subject parse_raw job_attr handler st
         = (st', Ok tt)
         ∧ tallied st st'.
Proof.
  unfold process_jobs, try_except. unfold bind at 1, call at 1.
  assert (∀ s ev, is_ack ev = false → is_nak ev = false → tallied s (note s ev))
    as Hnote.
  { intros s ev Ha Hn. exists [ev]. unfold note, calls.
    cbn [trace processed_jobs failed_jobs List.filter]. rewrite Ha, Hn.
    cbn [length]. split_and!; [done | lia | lia]. }
  destruct (nats_subscribe b (trace st) subject) as [msgs|e].
  - unfold bind.
    destruct (for_each_tally msgs None (note st (Subscribe subject)))
      as (st1 & r1 & H1 & Ht1).
    rewrite H1.
    assert (tallied st st1) as Ht.
    { eapply tallied_trans; [| exact Ht1]. by apply Hnote. }
    destruct r1 as [job|e].
    + by eexists.
    + unfold logger_error, record, call. eexists. split; [reflexivity |].
      eapply tallied_trans; [exact Ht |]. by apply Hnote.
  - unfold logger_error, record, call. eexists. split; [reflexivity |].
    eapply tallied_trans; by apply Hnote.
Qed.

(** Once [job] is bound and when no rejection fails, every message is
    answered and the loop goes on. *)
Hypothesis nak_accepted : ∀ h msg, msg_nak b h msg = Ok tt.

Lemma on_exception_answers j msg e st :
  on_exception b worker_name job_attr (Some j) msg e st
  = (note (counted (note st (job_failed worker_name (job_attr j) e))) (Nak msg),
     Ok tt).
Proof.
  unfold on_exception, bind, ret, log_job_error, record, call, incr_failed.
  cbn [trace note processed_jobs failed_jobs]. by rewrite nak_accepted.
Qed.

Lemma on_message_answers job msg st :
  (is_Some job ∨ ∃ j, decode_job b parse_raw msg = Ok j) →
  ∃ st' j' added,
    on_message b worker_name parse_raw job_attr handler job msg st
    = (st', Ok (Some j'))
    ∧ trace st' = trace st ++ added
    ∧ answered added msg.
Proof.
  intros Hbound. unfold on_message.
  destruct (decode_job b parse_raw msg) as [j|e].
  - unfold try_except. unfold bind at 1.
    destruct (handler_keeps_tally j st) as (st1 & r & added & Hrun & Htr & _).
    rewrite Hrun. destruct r as [[]|e].
    + unfold bind at 1, call at 1.
      destruct (msg_ack b (trace st1) msg) as [[]|e].
      * eexists _, j, (added ++ [Ack msg]). split_and!; [reflexivity | |].
        -- unfold note. cbn [trace]. by rewrite Htr, <- app_assoc.
        -- left. apply elem_of_app. right. apply list_elem_of_here.
      * unfold bind. rewrite on_exception_answers.
        eexists _, j, (added ++ [Ack msg; _; Nak msg]).
        split_and!; [reflexivity | |].
        -- unfold note, counted. cbn [trace]. by rewrite Htr, <- !app_assoc.
        -- left. apply elem_of_app. right. apply list_elem_of_here.
    + unfold bind. rewrite on_exception_answers.
      eexists _, j, (added ++ [_; Nak msg]). split_and!; [reflexivity | |].
      * unfold note, counted. cbn [trace]. by rewrite Htr, <- !app_assoc.
      * right. apply elem_of_app. right.
        apply list_elem_of_further, list_elem_of_here.
  - destruct Hbound as [[j ->] | [j [=]]].
    unfold bind. rewrite on_exception_answers.
    eexists _, j, [_; Nak msg]. split_and!; [reflexivity | |].
    + unfold note, counted. cbn [trace]. by rewrite <- !app_assoc.
    + right. apply list_elem_of_further, list_elem_of_here.
Qed.

Lemma answered_later added added' msg :
  answered added msg → answered (added' ++ added) msg.
Proof. intros [H | H]; [left | right]; apply elem_of_app; by right. Qed.

Lemma answered_earlier added added' msg :
  answered added msg → answered (added ++ added') msg.
Proof. intros [H | H]; [left | right]; apply elem_of_app; by left. Qed.

Lemma for_each_answers msgs : ∀ j st,
  ∃ st' j' added,
    for_each msgs (Some j)
      (on_message b worker_name parse_raw job_attr handler) st
    = (st', Ok (Some j'))
    ∧ trace st' = trace st ++ added
    ∧ Forall (answered added) msgs.
Proof.
  induction msgs as [|msg msgs IH]; intros j st.
  - exists st, j, []. by rewrite app_nil_r.
  - cbn [for_each]. unfold bind.
    destruct (on_message_answers (Some j) msg st) as (st1 & j1 & a1 & H1 & Ht1 & Ha1);
      [by left |].
    rewrite H1. destruct (IH j1 st1) as (st2 & j2 & a2 & H2 & Ht2 & Ha2).
    exists st2, j2, (a1 ++ a2). split_and!; [done | |].
    + by rewrite Ht2, Ht1, <- app_assoc.
    + constructor; [by apply answered_earlier |].
      eapply Forall_impl; [exact Ha2 |]. intros m. apply answered_later.
Qed.

Lemma process_jobs_answers msg msgs j st :
  nats_subscribe b (trace st) subject = Ok (msg :: msgs) →
  decode_job b parse_raw msg = Ok j →
  ∃ st' added,
    process_jobs b worker_name subject parse_raw job_attr handler st
    = (st', Ok tt)
    ∧ trace st' = trace st ++ Subscribe subject :: added
    ∧ Forall (answered added) (msg :: msgs).
Proof.
  intros Hs Hd. unfold process_jobs, try_except. unfold bind at 1, call at 1.
  rewrite Hs. cbn [for_each]. unfold bind at 1. unfold bind at 1.
  destruct (on_message_answers None msg (note st (Subscribe subject)))
    as (st1 & j1 & a1 & H1 & Ht1 & Ha1); [by right; exists j |].
  rewrite H1.
  destruct (for_each_answers msgs j1 st1) as (st2 & j2 & a2 & H2 & Ht2 & Ha2).
  rewrite H2. exists st2, (a1 ++ a2). split_and!; [done | |].
  - rewrite Ht2, Ht1. unfold note. cbn [trace]. by rewrite <- !app_assoc.
  - constructor; [by apply answered_earlier |].
    eapply Forall_impl; [exact Ha2 |]. intros m. apply answered_later.
Qed.
End Loop.

End LoopTallyFacts.

Module HandlerTallies.
Import Py Runtime Loops Worker RuntimeFacts StatedRuntime LoopTally LoopTallyFacts
  JobShape.

Lemma probes_answer_nothing (evs : list event) :
  forallb is_probe evs = true → calls is_ack evs = 0 ∧ calls is_nak evs = 0.
Proof.
  induction evs as [|ev evs IH]; [done |].
  intros [Hev Hevs]%andb_prop. destruct (IH Hevs) as [Ha Hn].
  unfold calls in *. by destruct ev.
Qed.

Lemma requests_answer_nothing (evs : list event) :
  forallb AmendedEmbed.is_request evs = true →
  calls is_ack evs = 0 ∧ calls is_nak evs = 0.
Proof.
  induction evs as [|ev evs IH]; [done |].
  intros [Hev Hevs]%andb_prop. destruct (IH Hevs) as [Ha Hn].
  unfold calls in *. by destruct ev.
Qed.

Lemma requests_are_requests this (chunks : list pydict) :
  forallb AmendedEmbed.is_request (map (AmendedEmbed.request this) chunks) = true.
Proof. induction chunks as [|chunk chunks IH]; [done | exact IH]. Qed.

Lemma ingest_keeps_tally this :
  keeps_tally (IngestWorker._process_ingest_job this).
Proof.
  intros job st.
  destruct (IngestShapeFacts.ingest_shape this job st)
    as (st' & r & probes & tail & n & Hrun & Hp & Htail & Htr & Hproc & Hfail).
  destruct (probes_answer_nothing probes Hp) as [Ha Hn].
  eexists st', r, (_ :: probes ++ tail). split_and!; [done | | | | done |].
  - rewrite Htr. unfold AmendedIngest.started, note. cbn [trace].
    rewrite <- app_assoc. reflexivity.
  - change (calls is_ack (?ev :: ?l)) with (calls is_ack l).
    rewrite calls_app, Ha. by destruct Htail.
  - change (calls is_nak (?ev :: ?l)) with (calls is_nak l).
    rewrite calls_app, Hn. by destruct Htail.
  - rewrite Hproc. by destruct Htail.
Qed.

Lemma embed_keeps_tally this :
  keeps_tally (EmbedWorker._process_embed_job this).
Proof.
  intros job st. unfold EmbedWorker._process_embed_job.
  unfold time_time at 1, peek. unfold bind at 1. unfold bind at 1.
  change (log_job_start EmbedWorker.name (EmbedJob.document_id job) "embed"
            [("document_id", PStr (EmbedJob.document_id job))] st)
    with (AmendedEmbed.started job st, Ok tt).
  unfold try_except at 1. unfold bind at 1.
  pose proof (EmbedFacts.generate_run this (EmbedJob.chunks job)
                (AmendedEmbed.started job st)) as Hg.
  pose proof (EmbedExtras.generate_prefix this (EmbedJob.chunks job) []
                (AmendedEmbed.started job st)) as Hc.
  unfold EmbedWorker._generate_embeddings in *.
  destruct (for_each (EmbedJob.chunks job) [] _ (AmendedEmbed.started job st))
    as [st1 [embs|e]].
  - destruct Hg as [_ Htr]. destruct Hc as [Hp Hf].
    unfold EmbedWorker._store_embeddings, EmbedWorker._update_document_status,
      record, call, bind, time_time, peek, log_job_success, record, call,
      incr_processed.
    cbn [trace note processed_jobs failed_jobs].
    eexists _, _, (_ :: map (AmendedEmbed.request this) (EmbedJob.chunks job)
                     ++ [_; _; _]).
    split_and!; [reflexivity | | | | |];
      unfold note; cbn [trace processed_jobs failed_jobs].
    + rewrite Htr. unfold AmendedEmbed.started, note. cbn [trace].
      rewrite <- !app_assoc. reflexivity.
    + change (calls is_ack (?ev :: ?l)) with (calls is_ack l).
      rewrite calls_app.
      pose proof (requests_are_requests this (EmbedJob.chunks job)) as Hreq.
      by destruct (requests_answer_nothing _ Hreq) as [-> _].
    + change (calls is_nak (?ev :: ?l)) with (calls is_nak l).
      rewrite calls_app.
      pose proof (requests_are_requests this (EmbedJob.chunks job)) as Hreq.
      by destruct (requests_answer_nothing _ Hreq) as [_ ->].
    + rewrite Hf. reflexivity.
    + rewrite Hp. unfold AmendedEmbed.started, note. cbn [processed_jobs]. lia.
  - destruct Hg as (_ & evs & Htr & Hevs). destruct Hc as (Hp & Hf & _).
    destruct (requests_answer_nothing evs Hevs) as [Ha Hn].
    unfold EmbedWorker._update_document_status, record, call, bind, raise.
    cbn [trace note processed_jobs failed_jobs].
    eexists _, _, (_ :: evs ++ [_]).
    split_and!; [reflexivity | | | | |];
      unfold note; cbn [trace processed_jobs failed_jobs].
    + rewrite Htr. unfold AmendedEmbed.started, note. cbn [trace].
      rewrite <- !app_assoc. reflexivity.
    + change (calls is_ack (?ev :: ?l)) with (calls is_ack l).
      by rewrite calls_app, Ha.
    + change (calls is_nak (?ev :: ?l)) with (calls is_nak l).
      by rewrite calls_app, Hn.
    + rewrite Hf. reflexivity.
    + rewrite Hp. unfold AmendedEmbed.started, note. cbn [processed_jobs]. lia.
Qed.

Lemma qa_keeps_tally this :
  keeps_tally (QAWorker._process_qa_job this).
Proof.
  intros job st. pose proof (QAExtras.qa_shape this job st) as H.
  destruct (QAWorker._process_qa_job this job st) as [st' [[]|e]].
  - destruct H as (answer & tail & now & Htr & Htail & Hp & Hf).
    eexists _, _, (_ :: [_; _; _] ++ tail ++ [_]).
    split_and!; [reflexivity | | | | done | simpl; lia].
    + rewrite Htr. unfold AmendedQA.started, note. cbn [trace].
      rewrite <- !app_assoc. reflexivity.
    + by destruct Htail as [-> | [e' ->]].
    + by destruct Htail as [-> | [e' ->]].
  - destruct H as (Hp & Hf & reason & [[_ Htr] | [_ Htr]]).
    + eexists _, _, [_; _; _].
      split_and!; [reflexivity | | | | done | simpl; lia].
      * rewrite Htr. unfold AmendedQA.started, note. cbn [trace].
        rewrite <- !app_assoc. reflexivity.
      * reflexivity.
      * reflexivity.
    + eexists _, _, [_; _; _; _].
      split_and!; [reflexivity | | | | done | simpl; lia].
      * rewrite Htr. unfold AmendedQA.started, note. cbn [trace].
        rewrite <- !app_assoc. reflexivity.
      * reflexivity.
      * reflexivity.
Qed.

End HandlerTallies.

Module LoopExtras.
Import Py Runtime Loops Worker RuntimeFacts StatedRuntime LoopTally LoopTallyFacts
  HandlerTallies.

(** X18: in every run of [_process_jobs], of each of the three workers, calls
    are only added to the history, [processed_jobs] grows by the number of
    [msg.ack()] calls made and [failed_jobs] by the number of [msg.nak()]
    calls made, whatever the bus, the parser and the services answer. *)
Theorem X_counters_follow_answers :
  (∀ this st, ∃ st',
     IngestWorker._process_jobs this st = (st', Ok tt) ∧ tallied st st')
  ∧ (∀ this st, ∃ st',
       EmbedWorker._process_jobs this st = (st', Ok tt) ∧ tallied st st')
  ∧ (∀ this st, ∃ st',
       QAWorker._process_jobs this st = (st', Ok tt) ∧ tallied st st').
Proof.
  split_and!; intros this st.
  - apply process_jobs_tally, ingest_keeps_tally.
  - apply process_jobs_tally, embed_keeps_tally.
  - apply process_jobs_tally, qa_keeps_tally.
Qed.

(** X19: when the first message of a subscription of the ingest worker is a
    job and no rejection fails, the loop reaches the end of the
    subscription and every message of it is answered, by [msg.ack()] or by
    [msg.nak()]. *)
Theorem X_messages_answered_once_job_bound (this : IngestWorker.self) st
    msg msgs job :
  nats_subscribe (IngestWorker.nats this) (trace st) "jobs.ingest"
    = Ok (msg :: msgs) →
  decode_job (IngestWorker.nats this) (IngestWorker.parse_raw this) msg = Ok job →
  (∀ h m, msg_nak (IngestWorker.nats this) h m = Ok tt) →
  ∃ st' added,
    IngestWorker._process_jobs this st = (st', Ok tt)
    ∧ trace st' = trace st ++ Subscribe "jobs.ingest" :: added
    ∧ Forall (answered added) (msg :: msgs).
Proof.
  intros Hs Hd Hnak.
  by apply (process_jobs_answers (IngestWorker.nats this) IngestWorker.name
              "jobs.ingest" (IngestWorker.parse_raw this) IngestJob.document_id
              (IngestWorker._process_ingest_job this)
              (ingest_keeps_tally this) Hnak msg msgs job st).
Qed.

(** On the sample: the job, then a message that is not a job. *)
Lemma X_messages_answered_once_job_bound_witness :
  ∃ st' added,
    IngestWorker._process_jobs good_first_worker Samples.empty_state = (st', Ok tt)
    ∧ trace st' = [] ++ Subscribe "jobs.ingest" :: added
    ∧ Forall (answered added) [good_message; bad_message].
Proof.
  apply (X_messages_answered_once_job_bound good_first_worker
           Samples.empty_state good_message [bad_message] StatedIngest.pdf_job).
  - reflexivity.
  - reflexivity.
  - intros h m. reflexivity.
Defined.

(** X20: a job that was handled but whose acknowledgement fails is treated as a
    failed job: the failure is logged under the job, counted in
    [failed_jobs] (beside the [processed_jobs] the handler counted) and
    the message is rejected, so the bus delivers the finished job again. *)
Theorem X_ack_failure_rejects_processed_job {J} (b : bus) worker_name
    (parse_raw : string → result J) job_attr handler prev msg job st st1 e :
  decode_job b parse_raw msg = Ok job →
  handler job st = (st1, Ok tt) →
  msg_ack b (trace st1) msg = Raise e →
  ∃ r, on_message b worker_name parse_raw job_attr handler prev msg st
       = (note (counted (note (note st1 (Ack msg))
                           (job_failed worker_name (job_attr job) e)))
               (Nak msg), r).
Proof.
  intros Hd Hh Ha. unfold on_message. rewrite Hd.
  unfold try_except. rewrite (run_bind _ _ _ _ _ Hh).
  unfold bind at 1, call at 1. rewrite Ha.
  unfold on_exception, bind, ret, log_job_error, record, call, incr_failed.
  cbn [trace note processed_jobs failed_jobs].
  destruct (msg_nak b _ msg) as [[]|e']; eauto.
Qed.

(** On the sample: the bus loses the acknowledgement of the sample job. *)
Lemma X_ack_failure_rejects_processed_job_witness :
  ∃ st' r,
    on_message (IngestWorker.nats unacked_worker) IngestWorker.name
      (IngestWorker.parse_raw unacked_worker) IngestJob.document_id
      (IngestWorker._process_ingest_job unacked_worker) None good_message
      Samples.empty_state = (st', r)
    ∧ processed_jobs st' = 1 ∧ failed_jobs st' = 1
    ∧ last (trace st') = Some (Nak good_message).
Proof.
  destruct (X_ack_failure_rejects_processed_job
              (IngestWorker.nats unacked_worker) IngestWorker.name
              (IngestWorker.parse_raw unacked_worker) IngestJob.document_id
              (IngestWorker._process_ingest_job unacked_worker) None good_message
              StatedIngest.pdf_job Samples.empty_state _
              (Exn "TimeoutError" "nats: timeout")
              eq_refl eq_refl eq_refl) as [r Hr].
  eexists _, r. split; [exact Hr |]. split_and!; reflexivity.
Defined.

(** X21: a message that cannot be decoded or parsed, arriving while [job] is
    bound by an earlier message of the same subscription, is logged under
    that earlier job, counted and rejected; [job] stays bound to the
    earlier job. *)
Theorem X_unparsed_message_blamed_on_previous_job {J} (b : bus) worker_name
    (parse_raw : string → result J) job_attr handler (previous : J) msg st e :
  decode_job b parse_raw msg = Raise e →
  ∃ r, on_message b worker_name parse_raw job_attr handler (Some previous) msg st
       = (note (counted (note st (job_failed worker_name (job_attr previous) e)))
               (Nak msg), r)
       ∧ ∀ job, r = Ok job → job = Some previous.
Proof.
  intros Hd. unfold on_message. rewrite Hd.
  unfold on_exception, bind, ret, log_job_error, record, call, incr_failed.
  cbn [trace note processed_jobs failed_jobs].
  destruct (msg_nak b _ msg) as [[]|e']; eexists; (split; [reflexivity |]);
    congruence.
Qed.

(** On the sample: the message that is not a job, behind the sample job. *)
Lemma X_unparsed_message_blamed_on_previous_job_witness :
  ∃ r,
    on_message (IngestWorker.nats good_first_worker) IngestWorker.name
      (IngestWorker.parse_raw good_first_worker) IngestJob.document_id
      (IngestWorker._process_ingest_job good_first_worker)
      (Some StatedIngest.pdf_job) bad_message Samples.empty_state
    = (note (counted (note Samples.empty_state
                        (job_failed "ingest" "doc-1"
                           (Exn "ValidationError"
                              "1 validation error for IngestJob"))))
            (Nak bad_message), r)
    ∧ ∀ job, r = Ok job → job = Some StatedIngest.pdf_job.
Proof.
  apply (X_unparsed_message_blamed_on_previous_job
           (IngestWorker.nats good_first_worker) IngestWorker.name
           (IngestWorker.parse_raw good_first_worker) IngestJob.document_id
           (IngestWorker._process_ingest_job good_first_worker)
           StatedIngest.pdf_job bad_message Samples.empty_state
           (Exn "ValidationError" "1 validation error for IngestJob")).
  reflexivity.
Defined.

End LoopExtras.

(** ** Starting and stopping *)

Module LifecycleFacts.
Import Py Runtime Loops Worker RuntimeFacts LoopFacts Lifecycle.

(** A turn around a [_process_jobs] that raises nothing pauses for one
    second and logs nothing of its own. *)
Lemma turn_quiet label (process_jobs : M unit) ls :
  (∀ w, ∃ w', process_jobs w = (w', Ok tt)) →
  turn label process_jobs ls = sleep 1 (with_core ls (process_jobs (core ls)).1).
Proof.
  intros Hpj. unfold turn. destruct (Hpj (core ls)) as [w' Hw]. by rewrite Hw.
Qed.

Lemma loop_keeps_turning label (process_jobs : M unit) :
  (∀ w, ∃ w', process_jobs w = (w', Ok tt)) →
  ∀ turns ls, is_running ls = true →
    ∃ ls', while_running turns (turn label process_jobs) ls = (ls', Running)
      ∧ is_running ls' = true
      ∧ sleeps ls' = sleeps ls ++ repeat 1 turns
      ∧ nats_client ls' = nats_client ls
      ∧ redis_client ls' = redis_client ls
      ∧ closing ls' = closing ls
      ∧ core ls' = Nat.iter turns (λ w, (process_jobs w).1) (core ls).
Proof.
  intros Hpj. induction turns as [|turns IH]; intros ls Hrun.
  - exists ls. cbn [while_running repeat Nat.iter nat_rect]. rewrite Hrun, app_nil_r.
    by split_and!.
  - cbn [while_running]. rewrite Hrun, (turn_quiet label process_jobs ls Hpj).
    destruct (IH (sleep 1 (with_core ls (process_jobs (core ls)).1)) Hrun)
      as (ls' & Hloop & ? & Hs & ? & ? & ? & Hc).
    exists ls'. split_and!; try done.
    + rewrite Hs. cbn [sleeps sleep with_core repeat].
      by rewrite <- app_assoc.
    + rewrite Hc. cbn [core sleep with_core]. by rewrite Nat.iter_succ_r.
Qed.

Lemma init_clients_run h ls :
  ∃ ls1 r, init_clients h ls = (ls1, r)
    ∧ core ls1 = core ls ∧ is_running ls1 = is_running ls
    ∧ sleeps ls1 = sleeps ls ∧ closing ls1 = closing ls
    ∧ nats_client ls1 = true
    ∧ match r with
      | Ok _ => redis_client ls1 = true
      | Raise _ => redis_client ls1 = redis_client ls
      end.
Proof.
  unfold init_clients.
  destruct (nats_connect h _) as [[]|e]; [| by eexists _, _].
  destruct (redis_from_url h _) as [[]|e]; by eexists _, _.
Qed.

End LifecycleFacts.

Module LifecycleExtras.
Import Py Runtime Loops Worker RuntimeFacts LoopFacts Lifecycle LifecycleFacts.

(** X22: [start] of the embed and of the QA worker, as long as nobody calls
    [stop]: it does not return; it raises only when a connection cannot
    be made, before the first turn, and then leaves [is_running] set; and
    otherwise it keeps turning, each turn being one run of
    [_process_jobs] followed by a pause of one second: the [except]
    clause of the loop, with its pause of five seconds and its line
    [Error in ... worker], is never entered. *)
Theorem X_start_keeps_polling :
  (∀ this h turns ls,
     match EmbedLifecycle.start this h turns ls with
     | (ls', Returned) => False
     | (ls', Raised e) =>
         init_clients h (announce EmbedWorker.name ls) = (ls', Raise e)
         ∧ is_running ls' = true ∧ nats_client ls' = true
         ∧ sleeps ls' = sleeps ls
     | (ls', Running) =>
         is_running ls' = true
         ∧ sleeps ls' = sleeps ls ++ repeat 1 turns
         ∧ core ls'
           = Nat.iter turns (λ w, (EmbedWorker._process_jobs this w).1)
               (core (announce EmbedWorker.name ls))
     end)
  ∧ (∀ this h turns ls,
       match QALifecycle.start this h turns ls with
       | (ls', Returned) => False
       | (ls', Raised e) =>
           init_clients h (announce QAWorker.name ls) = (ls', Raise e)
           ∧ is_running ls' = true ∧ nats_client ls' = true
           ∧ sleeps ls' = sleeps ls
       | (ls', Running) =>
           is_running ls' = true
           ∧ sleeps ls' = sleeps ls ++ repeat 1 turns
           ∧ core ls'
             = Nat.iter turns (λ w, (QAWorker._process_jobs this w).1)
                 (core (announce QAWorker.name ls))
       end).
Proof.
  assert (∀ worker label h (process_jobs : M unit) turns ls,
    (∀ w, ∃ w', process_jobs w = (w', Ok tt)) →
    match start_with worker label h process_jobs turns ls with
    | (ls', Returned) => False
    | (ls', Raised e) =>
        init_clients h (announce worker ls) = (ls', Raise e)
        ∧ is_running ls' = true ∧ nats_client ls' = true
        ∧ sleeps ls' = sleeps ls
    | (ls', Running) =>
        is_running ls' = true
        ∧ sleeps ls' = sleeps ls ++ repeat 1 turns
        ∧ core ls'
          = Nat.iter turns (λ w, (process_jobs w).1) (core (announce worker ls))
    end) as Hstart.
  { intros worker label h process_jobs turns ls Hpj. unfold start_with.
    destruct (init_clients_run h (announce worker ls))
      as (ls1 & r & Hinit & Hcore & Hrun & Hs & _ & Hn & _).
    rewrite Hinit. destruct r as [[]|e].
    - destruct (loop_keeps_turning label process_jobs Hpj turns ls1)
        as (ls' & Hloop & ? & Hs' & _ & _ & _ & Hc); [by rewrite Hrun |].
      rewrite Hloop. split_and!; [done | by rewrite Hs', Hs | by rewrite Hc, Hcore].
    - split_and!; [done | by rewrite Hrun | done | by rewrite Hs]. }
  split; intros this h turns ls.
  - apply Hstart. intros w. apply process_jobs_returns.
  - apply Hstart. intros w. apply process_jobs_returns.
Qed.

(** X23: [start] of the ingest worker, as long as nobody calls [stop]: it
    does not return; it raises only when a connection cannot be made or,
    OCR being enabled, when the OCR reader cannot be made, in both cases
    before the first turn and leaving [is_running] set; otherwise it keeps
    turning with pauses of one second only.  That the scanner cannot be
    reached is never the reason of a raise: it costs a warning. *)
Theorem X_ingest_start_keeps_polling this h sv turns ls :
  match IngestLifecycle.start this h sv turns ls with
  | (ls', Returned) => False
  | (ls', Raised e) =>
      is_running ls' = true ∧ nats_client ls' = true ∧ sleeps ls' = sleeps ls
      ∧ (init_clients h (announce IngestWorker.name ls) = (ls', Raise e)
         ∨ ∃ ls1,
             init_clients h (announce IngestWorker.name ls) = (ls1, Ok tt)
             ∧ ls' = IngestLifecycle.after_ping sv ls1
             ∧ IngestWorker.ENABLE_OCR this = true
             ∧ IngestLifecycle.easyocr_Reader sv (trace (core ls')) = Raise e)
  | (ls', Running) =>
      is_running ls' = true ∧ nats_client ls' = true ∧ redis_client ls' = true
      ∧ sleeps ls' = sleeps ls ++ repeat 1 turns
      ∧ ∃ ls1,
          init_clients h (announce IngestWorker.name ls) = (ls1, Ok tt)
          ∧ (IngestWorker.ENABLE_OCR this = false
             ∨ ∃ reader,
                 IngestLifecycle.easyocr_Reader sv
                   (trace (core (IngestLifecycle.after_ping sv ls1)))
                 = Ok reader)
  end.
Proof.
  unfold IngestLifecycle.start, IngestLifecycle._init_connections.
  destruct (init_clients_run h (announce IngestWorker.name ls))
    as (ls1 & r & Hinit & Hcore & Hrun & Hs & _ & Hn & Hr).
  destruct (init_clients h (announce IngestWorker.name ls)) as [ls0 r0] eqn:Hi.
  injection Hinit as -> ->. destruct r as [[]|e].
  2:{ split_and!; [by rewrite Hrun | done | by rewrite Hs | by left]. }
  assert (∀ this2 ls2,
    is_running ls2 = true → nats_client ls2 = true → redis_client ls2 = true →
    sleeps ls2 = sleeps ls →
    match while_running turns
            (turn "ingest" (IngestWorker._process_jobs this2)) ls2 with
    | (ls', Running) =>
        is_running ls' = true ∧ nats_client ls' = true ∧ redis_client ls' = true
        ∧ sleeps ls' = sleeps ls ++ repeat 1 turns
    | _ => False
    end) as Hloop.
  { intros this2 ls2 H1 H2 H3 H4.
    destruct (loop_keeps_turning "ingest" (IngestWorker._process_jobs this2)
                (λ w, process_jobs_returns _ _ _ _ _ _ w) turns ls2 H1)
      as (ls' & -> & ? & Hs' & Hn' & Hr' & _).
    split_and!; [done | by rewrite Hn' | by rewrite Hr' | by rewrite Hs', H4]. }
  assert (∀ this1 ls2,
    ls2 = IngestLifecycle.after_ping sv ls1 →
    is_running ls2 = true → nats_client ls2 = true → redis_client ls2 = true →
    sleeps ls2 = sleeps ls →
    IngestWorker.ENABLE_OCR this1 = IngestWorker.ENABLE_OCR this →
    match
      match IngestLifecycle.init_ocr sv this1 ls2 with
      | Ok this2 =>
          while_running turns
            (turn "ingest" (IngestWorker._process_jobs this2)) ls2
      | Raise e => (ls2, Raised e)
      end
    with
    | (ls', Returned) => False
    | (ls', Raised e) =>
        is_running ls' = true ∧ nats_client ls' = true ∧ sleeps ls' = sleeps ls
        ∧ ((ls1, @Ok unit tt) = (ls', Raise e)
           ∨ ∃ ls3,
               (ls1, @Ok unit tt) = (ls3, Ok tt)
               ∧ ls' = IngestLifecycle.after_ping sv ls3
               ∧ IngestWorker.ENABLE_OCR this = true
               ∧ IngestLifecycle.easyocr_Reader sv (trace (core ls')) = Raise e)
    | (ls', Running) =>
        is_running ls' = true ∧ nats_client ls' = true ∧ redis_client ls' = true
        ∧ sleeps ls' = sleeps ls ++ repeat 1 turns
        ∧ ∃ ls3,
            (ls1, @Ok unit tt) = (ls3, Ok tt)
            ∧ (IngestWorker.ENABLE_OCR this = false
               ∨ ∃ reader,
                   IngestLifecycle.easyocr_Reader sv
                     (trace (core (IngestLifecycle.after_ping sv ls3)))
                   = Ok reader)
    end) as Hocr.
  { intros this1 ls2 Hls2 H1 H2 H3 H4 Hflag. unfold IngestLifecycle.init_ocr.
    destruct (IngestWorker.ENABLE_OCR this1) eqn:Hen.
    - destruct (IngestLifecycle.easyocr_Reader sv (trace (core ls2)))
        as [reader|e] eqn:Hreader.
      + specialize (Hloop (IngestLifecycle.with_ocr this1 (Some reader)) ls2
                      H1 H2 H3 H4).
        destruct (while_running _ _ _) as [ls' []]; try done.
        destruct Hloop as (? & ? & ? & ?).
        split_and!; try done. exists ls1. split; [done |]. right.
        exists reader. by rewrite <- Hls2.
      + split_and!; [done | done | done |]. right. exists ls1.
        split_and!; [done | done | by rewrite <- Hflag | done].
    - specialize (Hloop this1 ls2 H1 H2 H3 H4).
      destruct (while_running _ _ _) as [ls' []]; try done.
      destruct Hloop as (? & ? & ? & ?).
      split_and!; try done. exists ls1. split; [done |]. left.
      by rewrite <- Hflag. }
  destruct (IngestLifecycle.clamd_ping sv (trace (core ls1))) as [[]|e] eqn:Hping.
  - apply Hocr;
      [unfold IngestLifecycle.after_ping; by rewrite Hping
      | by rewrite Hrun | done | done | exact Hs | reflexivity].
  - apply Hocr; cbn [is_running nats_client redis_client sleeps with_core];
      [unfold IngestLifecycle.after_ping; by rewrite Hping
      | by rewrite Hrun | done | done | exact Hs | reflexivity].
Qed.

(** X24: when the scanner cannot be reached at start-up, [_init_connections]
    only warns and leaves the worker without a scanner client; every job
    of that worker then skips the scan with a warning. *)
Theorem X_scanner_unreachable_at_startup h sv this ls ls1 e :
  init_clients h ls = (ls1, Ok tt) →
  IngestLifecycle.clamd_ping sv (trace (core ls1)) = Raise e →
  ∃ this',
    IngestLifecycle._init_connections h sv this ls
    = (with_core ls1 (note (core ls1) (IngestLifecycle.clamav_warning e)), Ok this')
    ∧ ∀ file_path st,
        IngestWorker._virus_scan this' file_path st
        = (note st (Log "warning" "ClamAV not available, skipping virus scan" []),
           Ok tt).
Proof.
  intros Hinit Hping. unfold IngestLifecycle._init_connections.
  rewrite Hinit, Hping. eexists. split; [reflexivity |].
  intros file_path st. reflexivity.
Qed.

(** On the sample: every connection succeeds, the scanner daemon is not
    running. *)
Lemma X_scanner_unreachable_at_startup_witness :
  ∃ ls' this',
    IngestLifecycle._init_connections IngestLifecycle.open_host
      IngestLifecycle.no_daemon StatedIngest.healthy_worker fresh
    = (ls', Ok this')
    ∧ IngestWorker._virus_scan this' "/tmp/tmp1.pdf" Samples.empty_state
      = (note Samples.empty_state
           (Log "warning" "ClamAV not available, skipping virus scan" []),
         Ok tt).
Proof.
  destruct (X_scanner_unreachable_at_startup IngestLifecycle.open_host
              IngestLifecycle.no_daemon StatedIngest.healthy_worker fresh
              _ (Exn "ConnectionError" "Error 2 connecting") eq_refl eq_refl)
    as (this' & Hinit & Hscan).
  eexists _, this'. split; [exact Hinit | apply Hscan].
Defined.

(** X25: [stop], whatever it returns, logs the stop and clears
    [is_running], so that the loop of [start] returns at its next test.
    It asks a client to close only if [_init_connections] has created it,
    the bus before Redis, and it raises exactly when one of these calls
    raises: when closing the bus raises, the Redis client is not asked to
    close. *)
Theorem X_stop_ends_loop worker h ls :
  let stopped := note (core ls) (log_worker_stop worker) in
  ∃ ls' r asked,
    stop worker h ls = (ls', r)
    ∧ is_running ls' = false
    ∧ (∀ turns body, while_running turns body ls' = (ls', Returned))
    ∧ core ls' = stopped
    ∧ closing ls' = closing ls ++ asked
    ∧ match r with
      | Ok _ =>
          asked = (if nats_client ls then ["nats"] else [])
                  ++ (if redis_client ls then ["redis"] else [])
          ∧ (nats_client ls = true → nats_close h (trace stopped) = Ok tt)
          ∧ (redis_client ls = true → redis_close h (trace stopped) = Ok tt)
      | Raise e =>
          (nats_client ls = true
           ∧ nats_close h (trace stopped) = Raise e
           ∧ asked = ["nats"])
          ∨ (redis_client ls = true
             ∧ (nats_client ls = true → nats_close h (trace stopped) = Ok tt)
             ∧ redis_close h (trace stopped) = Raise e
             ∧ asked = (if nats_client ls then ["nats"] else []) ++ ["redis"])
      end.
Proof.
  intros stopped.
  assert (∀ ls', is_running ls' = false →
            ∀ turns body, while_running turns body ls' = (ls', Returned))
    as Hends.
  { intros ls' Hoff turns body. destruct turns; cbn [while_running]; by rewrite Hoff. }
  unfold stop, close_redis.
  cbn [nats_client redis_client set_running with_core ask_to_close core].
  fold stopped.
  destruct (nats_client ls) eqn:Hn, (redis_client ls) eqn:Hr;
    try destruct (nats_close h (trace stopped)) as [[]|e1] eqn:Hnc;
    try destruct (redis_close h (trace stopped)) as [[]|e2] eqn:Hrc;
    (eexists _, _, _; split_and!;
       [reflexivity | reflexivity | by apply Hends | reflexivity | |]);
    cbn [closing ask_to_close set_running with_core];
    rewrite <- ?app_assoc; try reflexivity; try (rewrite app_nil_r; reflexivity);
    try (split_and!; done);
    first [ left; split_and!; done | right; split_and!; done ].
Qed.

End LifecycleExtras.

(** ** Metadata and text extraction *)

Module ExtractionExtras.
Import Py Runtime Loops Worker IngestWorker RuntimeFacts ExtractionShape.

(** X26: [_get_file_metadata] never raises.  For a file that is not a PDF
    it returns the empty dict without a call.  For a PDF it opens the
    document, reads its size and closes it, stopping at the first of the
    three that fails, which costs a warning only: the dict is empty when
    the document could not be opened, holds [page_count] alone when the
    size could not be read, and holds both entries otherwise, also when
    only the closing failed.  So [file_size] is there exactly when both
    reads succeeded, never without [page_count], and there is no other
    key. *)
Theorem X_metadata_best_effort this file_path mime_type st :
  let opened := fitz_page_count this (trace st) file_path in
  let st1 := note st (FitzOpen file_path) in
  let sized := os_path_getsize this (trace st1) file_path in
  let st2 := note st1 (GetSize file_path) in
  let closed := fitz_close this (trace st2) file_path in
  let st3 := note st2 (FitzClose file_path) in
  ∃ st' metadata,
    _get_file_metadata this file_path mime_type st = (st', Ok metadata)
    ∧ (if bool_decide (mime_type = "application/pdf") then
         match opened with
         | Raise e => metadata = ∅ ∧ st' = note st1 (metadata_warning e)
         | Ok n =>
             match sized with
             | Raise e =>
                 metadata = {[ "page_count" := PInt (Z.of_nat n) ]}
                 ∧ st' = note st2 (metadata_warning e)
             | Ok size =>
                 metadata = <[ "file_size" := PInt size ]>
                              {[ "page_count" := PInt (Z.of_nat n) ]}
                 ∧ st' = match closed with
                         | Ok _ => st3
                         | Raise e => note st3 (metadata_warning e)
                         end
             end
         end
       else metadata = ∅ ∧ st' = st)
    ∧ (is_Some (metadata !! "file_size")
       ↔ mime_type = "application/pdf"
         ∧ (∃ n, opened = Ok n) ∧ (∃ size, sized = Ok size))
    ∧ (is_Some (metadata !! "file_size") → is_Some (metadata !! "page_count"))
    ∧ (∀ key, is_Some (metadata !! key) → key = "page_count" ∨ key = "file_size").
Proof.
  intros opened st1 sized st2 closed st3.
  unfold _get_file_metadata.
  destruct (bool_decide (mime_type = "application/pdf")) eqn:Hmime.
  2:{ apply bool_decide_eq_false in Hmime. exists st, ∅.
      split; [reflexivity |]. split; [done |]. split; [| split].
      - split; [intros [v Hv]; by rewrite lookup_empty in Hv | by intros [? _]].
      - intros [v Hv]. by rewrite lookup_empty in Hv.
      - intros key [v Hv]. by rewrite lookup_empty in Hv. }
  apply bool_decide_eq_true in Hmime.
  unfold try_except, bind, call, logger_warning, record, call, ret.
  fold opened. destruct opened as [n|e] eqn:Hopened.
  - fold st1 sized. destruct sized as [size|e] eqn:Hsized.
    + fold st2 closed.
      exists (match closed with
              | Ok _ => st3
              | Raise e => note st3 (metadata_warning e)
              end),
             (<[ "file_size" := PInt size ]>
                {[ "page_count" := PInt (Z.of_nat n) ]}).
      split; [by destruct closed as [[]|e] |]. split; [done |].
      split; [| split].
      * split; [intros _; eauto | intros _; by simplify_map_eq].
      * intros _. by simplify_map_eq.
      * intros key [v [[<- _] | [_ [<- _]%lookup_singleton_Some]]%lookup_insert_Some];
          eauto.
    + eexists _, _. split; [reflexivity |]. split; [done |].
      split; [| split].
      * split; [intros [v Hv]; by simplify_map_eq | by intros (_ & _ & [? [=]])].
      * intros [v Hv]. by simplify_map_eq.
      * intros key [v [<- _]%lookup_singleton_Some]. by left.
  - eexists _, _. split; [reflexivity |]. split; [done |].
    split; [| split].
    + split; [intros [v Hv]; by rewrite lookup_empty in Hv
             | by intros (_ & [? [=]] & _)].
    + intros [v Hv]. by rewrite lookup_empty in Hv.
    + intros key [v Hv]. by rewrite lookup_empty in Hv.
Qed.

(** X27: what [_extract_text] does with a PDF.  It returns the pages of
    the text pdfminer found, when that text is not blank, having asked
    nothing else; or, pdfminer having found a blank text and OCR being
    enabled with a reader, the pages of the text that reader read.  It
    raises when pdfminer fails, when the text is blank and OCR is disabled
    or has no reader, and when the reader fails; every exception is
    [Exception("Text extraction failed: ...")], the failure of the reader
    being wrapped twice
    ([Text extraction failed: OCR extraction failed: ...]). *)
Theorem X_extract_text_outcomes this file_path st :
  let st1 := note st (PdfExtract file_path) in
  let st2 := note st1 (OcrRead file_path) in
  match _extract_text this file_path "application/pdf" st with
  | (st', Ok pages) =>
      ∃ text,
        pages = _split_text_into_pages text
        ∧ ((st' = st1
            ∧ extract_text this (trace st) file_path = Ok text
            ∧ str_truthy (strip text) = true)
           ∨ (st' = st2
              ∧ ENABLE_OCR this = true
              ∧ ∃ blank_text reader results,
                  extract_text this (trace st) file_path = Ok blank_text
                  ∧ str_truthy (strip blank_text) = false
                  ∧ ocr_reader this = Some reader
                  ∧ reader (trace st1) file_path = Ok results
                  ∧ text = ocr_text results))
  | (st', Raise e) =>
      ∃ reason,
        e = extraction_failed reason
        ∧ ((st' = st1
            ∧ ∃ cause, extract_text this (trace st) file_path = Raise cause
                       ∧ reason = exc_str cause)
           ∨ (st' = st1
              ∧ (ENABLE_OCR this = false ∨ ocr_reader this = None)
              ∧ reason = "No text found and OCR is disabled"
              ∧ ∃ blank_text,
                  extract_text this (trace st) file_path = Ok blank_text
                  ∧ str_truthy (strip blank_text) = false)
           ∨ (st' = st2
              ∧ ENABLE_OCR this = true
              ∧ ∃ blank_text reader cause,
                  extract_text this (trace st) file_path = Ok blank_text
                  ∧ str_truthy (strip blank_text) = false
                  ∧ ocr_reader this = Some reader
                  ∧ reader (trace st1) file_path = Raise cause
                  ∧ reason = "OCR extraction failed: " +:+ exc_str cause))
  end.
Proof.
  intros st1 st2. unfold _extract_text.
  rewrite bool_decide_eq_true_2 by done. cbn [negb].
  unfold try_except at 1. unfold bind at 1, call at 1.
  destruct (extract_text this (trace st) file_path) as [text|e] eqn:Htext.
  2:{ unfold raise. eexists. split; [reflexivity |]. left. eauto. }
  unfold bind at 1.
  destruct (str_truthy (strip text)) eqn:Hblank; cbn [negb].
  { unfold ret. exists text. split; [reflexivity |]. by left. }
  destruct (ENABLE_OCR this) eqn:Hocr.
  2:{ unfold raise. eexists. split; [reflexivity |]. right. left.
      split_and!; eauto. }
  destruct (ocr_reader this) as [reader|] eqn:Hreader.
  2:{ unfold raise. eexists. split; [reflexivity |]. right. left.
      split_and!; eauto. }
  unfold _extract_text_with_ocr, try_except, bind, call, ret, raise.
  fold st1. destruct (reader (trace st1) file_path) as [results|e] eqn:Hread.
  - exists (ocr_text results). split; [reflexivity |]. right.
    split_and!; [reflexivity | done |]. by exists text, reader, results.
  - eexists. split; [reflexivity |]. right. right.
    split_and!; [reflexivity | done |]. by exists text, reader, e.
Qed.

(** Paragraphs that fit one page together make one page. *)
Lemma short_fold (ps : list string) : ∀ cur,
  total_len (cur ++ ps) ≤ max_page_length →
  fold_left loop_step ps (LoopState [] cur (total_len cur))
  = LoopState [] (cur ++ ps) (total_len (cur ++ ps)).
Proof.
  induction ps as [|p ps IH]; intros cur Hlen; cbn [fold_left].
  - by rewrite app_nil_r.
  - replace (cur ++ p :: ps) with ((cur ++ [p]) ++ ps) in *
      by (by rewrite <- app_assoc).
    rewrite <- (IH (cur ++ [p]) Hlen). f_equal.
    unfold loop_step. cbn [pages current_page current_length].
    assert (total_len (cur ++ [p]) = total_len cur + String.length p) as Hp.
    { rewrite PyFacts.total_len_app. unfold total_len. simpl. lia. }
    rewrite PyFacts.total_len_app in Hlen.
    assert ((max_page_length <? total_len cur + String.length p)%nat = false)
      as ->.
    { apply Nat.ltb_ge. lia. }
    cbn [andb]. by rewrite Hp.
Qed.

Lemma short_text_one_page (text : string) :
  total_len (split_blank text) ≤ max_page_length →
  _split_text_into_pages text = [page 0 text].
Proof.
  intros Hlen. unfold _split_text_into_pages.
  change loop_init with (LoopState [] [] (total_len [])).
  rewrite (short_fold (split_blank text) [] Hlen). cbv zeta.
  cbn [app current_page pages].
  destruct (split_blank text) as [|p ps] eqn:Hsplit;
    [by destruct (PyFacts.split_blank_nonempty text) |].
  cbn [truthy]. unfold append_page. cbn [app length].
  by rewrite <- Hsplit, PyFacts.join_split_blank.
Qed.

(** The text made of pages on which nothing was read. *)
Lemma ocr_text_nothing (results : list (list string)) :
  Forall (λ fragments, fragments = []) results →
  ocr_text results = join blank (repeat EmptyString (length results)).
Proof.
  unfold ocr_text. intros H. f_equal.
  induction H as [|fragments results -> _ IH]; [done |].
  cbn [map length repeat]. by rewrite IH.
Qed.

Lemma join_blank_empties (n : nat) :
  join blank (repeat EmptyString (S (S n)))
  = String nl (String nl (join blank (repeat EmptyString (S n)))).
Proof. reflexivity. Qed.

Lemma split_blank_empties (n : nat) :
  split_blank (join blank (repeat EmptyString (S n))) = repeat EmptyString (S n).
Proof.
  induction n as [|n IH]; [reflexivity |].
  rewrite join_blank_empties, PyFacts.split_blank_cons.
  unfold is_nl. rewrite Ascii.eqb_refl. cbn [andb]. by rewrite IH.
Qed.

Lemma total_len_empties (n : nat) : total_len (repeat EmptyString n) = 0.
Proof. induction n as [|n IH]; [done |]. unfold total_len in *. simpl. exact IH. Qed.

Lemma lstrip_empties (n : nat) :
  lstrip (join blank (repeat EmptyString n)) = EmptyString.
Proof.
  destruct n as [|n]; [reflexivity |].
  induction n as [|n IH]; [reflexivity |].
  rewrite join_blank_empties. cbn [lstrip].
  change (is_space nl) with true. cbn iota. exact IH.
Qed.

Lemma blank_ocr_text (results : list (list string)) :
  Forall (λ fragments, fragments = []) results →
  _split_text_into_pages (ocr_text results) = [page 0 (ocr_text results)]
  ∧ strip (ocr_text results) = EmptyString.
Proof.
  intros H. rewrite (ocr_text_nothing results H). split.
  - apply short_text_one_page.
    destruct (length results) as [|n].
    + cbn. lia.
    + rewrite split_blank_empties, total_len_empties. lia.
  - unfold strip. by rewrite lstrip_empties.
Qed.

(** X28: the text read by OCR is taken as it is: only the text of pdfminer
    is tested for being blank.  When pdfminer finds a blank text and OCR
    is enabled, the pages are those of the OCR text whatever it is; when
    nothing was recognised on any page, that text is blank too (it is
    empty, or made of the delimiters between the pages), and it is
    ingested all the same, as the single page 0. *)
Theorem X_ocr_text_not_checked this file_path st blank_text reader results :
  extract_text this (trace st) file_path = Ok blank_text →
  str_truthy (strip blank_text) = false →
  ENABLE_OCR this = true →
  ocr_reader this = Some reader →
  reader (trace (note st (PdfExtract file_path))) file_path = Ok results →
  _extract_text this file_path "application/pdf" st
  = (note (note st (PdfExtract file_path)) (OcrRead file_path),
     Ok (_split_text_into_pages (ocr_text results)))
  ∧ (Forall (λ fragments, fragments = []) results →
     _split_text_into_pages (ocr_text results) = [page 0 (ocr_text results)]
     ∧ str_truthy (strip (ocr_text results)) = false).
Proof.
  intros Htext Hblank Hocr Hreader Hread. split.
  - unfold _extract_text. rewrite bool_decide_eq_true_2 by done. cbn [negb].
    unfold try_except at 1. unfold bind at 1, call at 1. rewrite Htext.
    unfold bind at 1. rewrite Hblank, Hocr, Hreader. cbn [negb].
    unfold _extract_text_with_ocr, try_except, bind, call, ret.
    by rewrite Hread.
  - intros Hnothing. destruct (blank_ocr_text results Hnothing) as [Hpage Hstrip].
    split; [exact Hpage | by rewrite Hstrip].
Qed.

(** On the sample: a scanned document of two pages on which OCR
    recognises nothing is ingested as one page holding the delimiter. *)
Lemma X_ocr_text_not_checked_witness :
  _extract_text scanned_worker "/tmp/tmp1.pdf" "application/pdf" Samples.empty_state
  = (note (note Samples.empty_state (PdfExtract "/tmp/tmp1.pdf"))
          (OcrRead "/tmp/tmp1.pdf"),
     Ok [page 0 blank]).
Proof.
  destruct (X_ocr_text_not_checked scanned_worker "/tmp/tmp1.pdf"
              Samples.empty_state "  " (λ _ _, Ok [[]; []]) [[]; []]
              eq_refl eq_refl eq_refl eq_refl eq_refl) as [Hrun Hpages].
  rewrite Hrun. destruct Hpages as [-> _]; [by repeat constructor |].
  reflexivity.
Defined.

End ExtractionExtras.

(** ** From the splitter to the embedding generator *)

Module PipelineExtras.
Import Py Runtime Loops Worker RuntimeFacts Paragraphs SplitterFacts
  AmendedEmbed EmbedShape.

Lemma pages_have_content (gs : list (list string)) : ∀ base,
  Forall has_content (pages_of base gs).
Proof.
  induction gs as [|g gs IH]; intros base; [constructor |].
  cbn [pages_of]. constructor; [| apply IH].
  unfold has_content, IngestWorker.page. by simplify_map_eq.
Qed.

Lemma generate_total this chunks :
  (∀ h input, ∃ v rest,
     EmbedWorker.embeddings_create this h
       (EmbedWorker.OPENAI_EMBEDDING_MODEL this) input = Ok (v :: rest)) →
  Forall has_content chunks →
  ∀ acc st, ∃ st' new,
    for_each chunks acc (EmbedWorker.embed_chunk this) st = (st', Ok (acc ++ new))
    ∧ length new = length chunks.
Proof.
  intros Hprovider. induction 1 as [|chunk chunks Hchunk _ IH]; intros acc st.
  - exists st, []. by rewrite app_nil_r.
  - cbn [for_each]. unfold bind at 1.
    unfold EmbedWorker.embed_chunk at 1, try_except, bind,
      EmbedWorker.chunk_content, EmbedWorker.first_embedding, call, ret.
    unfold has_content in Hchunk.
    destruct (chunk !! "content") as [input|]; [| done].
    destruct (Hprovider (trace st) input) as (v & rest & ->).
    destruct (IH (acc ++ [v])
                (note st (EmbeddingsCreate
                            (EmbedWorker.OPENAI_EMBEDDING_MODEL this) input)))
      as (st' & new & Hrun & Hlen).
    exists st', (v :: new). rewrite Hrun. split.
    + by rewrite <- app_assoc.
    + cbn [length]. by rewrite Hlen.
Qed.

(** X29: the pages made by the splitter of the ingest worker all carry a
    [content]; handed to the embedding generator of a worker whose
    provider answers every request with at least one vector, they give
    one vector per page: the [KeyError] for a chunk without content
    cannot be met on them. *)
Theorem X_split_pages_embeddable this (text : string) st :
  (∀ h input, ∃ v rest,
     EmbedWorker.embeddings_create this h
       (EmbedWorker.OPENAI_EMBEDDING_MODEL this) input = Ok (v :: rest)) →
  Forall has_content (IngestWorker._split_text_into_pages text)
  ∧ ∃ st' embeddings,
      EmbedWorker._generate_embeddings this
        (IngestWorker._split_text_into_pages text) st = (st', Ok embeddings)
      ∧ length embeddings = length (IngestWorker._split_text_into_pages text).
Proof.
  intros Hprovider.
  assert (Forall has_content (IngestWorker._split_text_into_pages text)) as Hc.
  { rewrite split_pages_of. apply pages_have_content. }
  split; [exact Hc |].
  destruct (generate_total this _ Hprovider Hc [] st) as (st' & new & Hrun & Hlen).
  by exists st', new.
Qed.

(** On the sample: the text of the sample PDF, the worker of the all-zero
    vectors. *)
Lemma X_split_pages_embeddable_witness :
  Forall has_content (IngestWorker._split_text_into_pages "Hello World")
  ∧ ∃ st' embeddings,
      EmbedWorker._generate_embeddings StatedEmbed.zero_worker
        (IngestWorker._split_text_into_pages "Hello World") Samples.empty_state
      = (st', Ok embeddings)
      ∧ length embeddings
        = length (IngestWorker._split_text_into_pages "Hello World").
Proof.
  apply (X_split_pages_embeddable StatedEmbed.zero_worker "Hello World"
           Samples.empty_state).
  intros h input. eexists _, _. reflexivity.
Defined.

End PipelineExtras.

Module PollingExtras.
Import Py Runtime Loops Worker RuntimeFacts StatedRuntime Lifecycle
  LifecycleSamples.

(** X30: a subscription that fails is tried again after one second, not
    after five: [_process_jobs] logs [Error processing jobs: ...] itself
    and returns, so the turn of [start] ends with the pause of a normal
    turn, having handled no message and changed no counter. *)
Theorem X_failed_subscription_retried_after_one_second {J} (b : bus)
    worker_name subject (parse_raw : string → result J) job_attr handler
    label ls e :
  nats_subscribe b (trace (core ls)) subject = Raise e →
  turn label (process_jobs b worker_name subject parse_raw job_attr handler) ls
  = sleep 1 (with_core ls (note (note (core ls) (Subscribe subject))
                             (loop_error e))).
Proof.
  intros Hs. unfold turn, process_jobs, try_except, bind, call, logger_error,
    record, call.
  by rewrite Hs.
Qed.

(** On the sample: the ingest loop on a bus that refuses subscriptions. *)
Lemma X_failed_subscription_retried_after_one_second_witness :
  ∃ ls',
    turn "ingest"
      (process_jobs down_bus IngestWorker.name "jobs.ingest"
         StatedIngest.sample_parse IngestJob.document_id
         (IngestWorker._process_ingest_job StatedIngest.healthy_worker))
      fresh = ls'
    ∧ sleeps ls' = [1]
    ∧ processed_jobs (core ls') = 0 ∧ failed_jobs (core ls') = 0.
Proof.
  eexists. split.
  - apply (X_failed_subscription_retried_after_one_second down_bus
             IngestWorker.name "jobs.ingest" StatedIngest.sample_parse
             IngestJob.document_id
             (IngestWorker._process_ingest_job StatedIngest.healthy_worker)
             "ingest" fresh
             (Exn "ConnectionClosedError" "nats: connection closed")).
    reflexivity.
  - split_and!; reflexivity.
Defined.

End PollingExtras.
